(** * Creo barcode plug-in: the barcode core, embedded and verified

    A shallow embedding of the self-contained core of the plug-in:
    - the special-character codec, the symbology validator and the
      precondition chain of [BarcodeGenerator::generate]
      (creo-barcode-plugin/src/barcode_generator.cpp);
    - the dependency-free Code 128 encoder (src/barcode_pure_c.c);
    - the grid layout and the batch insertion of the COM bridge
      (creo-barcode-plugin/src/creo_com_bridge.cpp);
    - the batch processor (src/batch_processor.cpp);
    and of the code around it:
    - the data synchronisation checker (src/data_sync_checker.cpp);
    - the version check and the validation of the settings
      (creo-barcode-plugin/src/version_check.cpp, settings_dialog.cpp);
    - the members of the COM bridge behind the batch operations, the C
      interface and the menu handlers
      (creo-barcode-plugin/src/creo_com_bridge.cpp, barcode_c_api.cpp,
      menu_manager.cpp).

    Part I holds the model, Part II the properties; each part is
    continued for the code around the core.

    Conventions.  A [char] is an [ascii]; a [std::string] is a [string].
    A C [int] is a [Z] kept in the 32-bit range by [Int32.wrap], written at
    every operation that can leave the range.  A [double] is a primitive
    binary64 [float].  Collaborators that live outside the repository (the
    ZXing writer, the PNG codec, the file system, the CAD host) are fields
    of an interface record that the operations take as an argument. *)

From Stdlib Require Import ZArith List Bool Lia String Ascii.
From Stdlib Require Import Floats DecimalString DecimalPos.
Import ListNotations.

Local Open Scope string_scope.
Local Open Scope Z_scope.

(* ================================================================== *)
(** * Part I.  The model                                               *)
(* ================================================================== *)

(** ** Machine integers *)

Module Int32.

Definition INT_MAX : Z := 2147483647.
Definition INT_MIN : Z := -2147483648.

(** Two's-complement reduction of a mathematical integer to an [int]. *)
Definition wrap (z : Z) : Z := (z + 2147483648) mod 4294967296 - 2147483648.

Definition add (a b : Z) : Z := wrap (a + b).
Definition sub (a b : Z) : Z := wrap (a - b).
Definition mul (a b : Z) : Z := wrap (a * b).
(** C's [/] and [%] truncate towards zero. *)
Definition div (a b : Z) : Z := wrap (Z.quot a b).
Definition rem (a b : Z) : Z := Z.rem a b.

(** [static_cast<int>] of a [size_t]. *)
Definition of_size (n : nat) : Z := wrap (Z.of_nat n).

End Int32.

(** ** Characters *)

Module Char.

(** The value of a [char] read as [unsigned char]. *)
Definition ord (c : ascii) : Z := Z.of_N (N_of_ascii c).

(** The value of a [char] read as a signed [char]. *)
Definition sord (c : ascii) : Z :=
  if ord c <? 128 then ord c else ord c - 256.

(** [static_cast<char>] of an [int]. *)
Definition chr (z : Z) : ascii := ascii_of_N (Z.to_N (z mod 256)).

Definition backslash : ascii := chr 92.
Definition letter_x : ascii := chr 120.

Definition between (lo hi : Z) (c : ascii) : bool :=
  (lo <=? ord c) && (ord c <=? hi).

(** <cctype> in the default "C" locale. *)
Definition isdigit (c : ascii) : bool := between 48 57 c.
Definition isupper (c : ascii) : bool := between 65 90 c.
Definition islower (c : ascii) : bool := between 97 122 c.
Definition isalpha (c : ascii) : bool := isupper c || islower c.
Definition isalnum (c : ascii) : bool := isalpha c || isdigit c.
Definition isspace (c : ascii) : bool := (ord c =? 32) || between 9 13 c.
Definition toupper (c : ascii) : ascii :=
  if islower c then chr (ord c - 32) else c.

Definition char_is (code : Z) (c : ascii) : bool := ord c =? code.

End Char.

(** [std::string] helpers. *)

Fixpoint string_forallb (p : ascii -> bool) (s : string) : bool :=
  match s with
  | EmptyString => true
  | String c r => p c && string_forallb p r
  end.

Definition string_empty (s : string) : bool :=
  match s with EmptyString => true | String _ _ => false end.

(** ** The special-character codec (barcode_generator.cpp, 54-102) *)

Module Codec.

Import Char.

(** One digit as [operator<<] prints it under [std::hex] (lower case). *)
Definition hex_digit (d : Z) : ascii :=
  if d <? 10 then chr (48 + d) else chr (87 + d).

(** [operator<<(int)] under [std::hex] for the value of an [unsigned
    char]: the shortest digit string, so one digit below 16 and two
    from 16 to 255. *)
Definition format_hex (n : Z) : string :=
  if n <? 16 then String (hex_digit n) EmptyString
  else String (hex_digit (n / 16)) (String (hex_digit (n mod 16)) EmptyString).

(** [std::setw(w) << std::setfill(f)]: pad on the left up to width [w]. *)
Fixpoint pad_left (k : nat) (f : ascii) (s : string) : string :=
  match k with
  | O => s
  | S k' => String f (pad_left k' f s)
  end.

Definition setw_setfill (w : nat) (f : ascii) (s : string) : string :=
  pad_left (w - String.length s) f s.

(** The body of the loop of [encodeSpecialChars] for one byte [c]. *)
Definition encode_char (c : ascii) : string :=
  if (ord c <? 32) || (126 <? ord c) then
    String backslash (String letter_x
      (setw_setfill 2 (chr 48) (format_hex (ord c))))
  else if char_is 92 c then
    String backslash (String backslash EmptyString)
  else
    String c EmptyString.

Fixpoint encodeSpecialChars (input : string) : string :=
  match input with
  | EmptyString => EmptyString
  | String c rest => encode_char c ++ encodeSpecialChars rest
  end.

(** *** [std::stoi(str, nullptr, 16)]

    The standard library routine, as the C++ standard defines it through
    [strtol]: leading white space is skipped, one sign is accepted, then
    an optional [0x]/[0X] prefix, then the longest run of hexadecimal
    digits.  It throws ([None]) only when no digit at all could be read,
    or when the value does not fit an [int]; characters left over after
    the digits are ignored. *)

Definition hex_value (c : ascii) : option Z :=
  if between 48 57 c then Some (ord c - 48)
  else if between 97 102 c then Some (ord c - 87)
  else if between 65 70 c then Some (ord c - 55)
  else None.

Fixpoint skip_space (s : string) : string :=
  match s with
  | String c r => if isspace c then skip_space r else s
  | EmptyString => s
  end.

Fixpoint read_hex (acc : option Z) (s : string) : option Z :=
  match s with
  | String c r =>
      match hex_value c with
      | Some d =>
          read_hex (Some (16 * match acc with Some a => a | None => 0 end + d)) r
      | None => acc
      end
  | EmptyString => acc
  end.

Definition strip_sign (s : string) : bool * string :=
  match s with
  | String c r =>
      if char_is 45 c then (true, r) else if char_is 43 c then (false, r) else (false, s)
  | EmptyString => (false, s)
  end.

Definition strip_0x (s : string) : string :=
  match s with
  | String c0 (String c1 (String c2 r)) =>
      if char_is 48 c0 && (char_is 120 c1 || char_is 88 c1)
         && match hex_value c2 with Some _ => true | None => false end
      then String c2 r else s
  | _ => s
  end.

Definition stoi16 (s : string) : option Z :=
  let '(neg, s1) := strip_sign (skip_space s) in
  match read_hex None (strip_0x s1) with
  | None => None
  | Some v =>
      let r := if neg then - v else v in
      if (Int32.INT_MIN <=? r) && (r <=? Int32.INT_MAX) then Some r else None
  end.

(** [input[i]]; never asked outside the string. *)
Definition char_at (input : string) (i : nat) : ascii :=
  match String.get i input with
  | Some c => c
  | None => Ascii.zero
  end.

(** The [while] loop of [decodeSpecialChars] (73-100), from index [i]
    with [decoded] built so far.  Every turn advances [i], so
    [length input] turns of [fuel] see the loop to its end. *)
Fixpoint decode_loop (fuel : nat) (input : string) (i : nat) (decoded : string)
  : string :=
  match fuel with
  | O => decoded
  | S fuel' =>
      if (i <? String.length input)%nat then
        if char_is 92 (char_at input i) && (i + 1 <? String.length input)%nat then
          if char_is 92 (char_at input (i + 1)) then
            decode_loop fuel' input (i + 2)
              (decoded ++ String backslash EmptyString)
          else if char_is 120 (char_at input (i + 1))
                  && (i + 3 <? String.length input)%nat then
            let hexStr := substring (i + 2) 2 input in
            match stoi16 hexStr with
            | Some value =>
                decode_loop fuel' input (i + 4)
                  (decoded ++ String (chr value) EmptyString)
            | None =>
                decode_loop fuel' input (i + 1)
                  (decoded ++ String (char_at input i) EmptyString)
            end
          else
            decode_loop fuel' input (i + 1)
              (decoded ++ String (char_at input i) EmptyString)
        else
          decode_loop fuel' input (i + 1)
            (decoded ++ String (char_at input i) EmptyString)
      else decoded
  end.

Definition decodeSpecialChars (input : string) : string :=
  decode_loop (String.length input) input 0 EmptyString.

(** The same decoder as a recursion on the text not yet consumed: the
    argument is [input[i..]], so [i + 1 < length] reads "a second
    character follows", [i + 3 < length] reads "a fourth one follows", and
    [i += k] drops [k] characters.  [decodeSpecialChars_unfold] in Part II
    shows that the loop computes it. *)
Fixpoint decode_suffix (input : string) : string :=
  match input with
  | EmptyString => EmptyString
  | String c rest =>
      let keep := String c (decode_suffix rest) in
      if char_is 92 c then
        match rest with
        | EmptyString => keep
        | String c1 rest1 =>
            if char_is 92 c1 then
              String backslash (decode_suffix rest1)
            else if char_is 120 c1 then
              match rest1 with
              | String h1 (String h2 rest2) =>
                  match stoi16 (String h1 (String h2 EmptyString)) with
                  | Some value => String (chr value) (decode_suffix rest2)
                  | None => keep
                  end
              | _ => keep
              end
            else keep
        end
      else keep
  end.

End Codec.

(** ** Doubles *)

Module Double.

(** Conversion of an [int] to [double]; exact, since an [int] has at
    most 31 significant bits. *)
Definition of_int (z : Z) : float :=
  if z <? 0 then PrimFloat.opp (PrimFloat.of_uint63 (Uint63.of_Z (- z)))
  else PrimFloat.of_uint63 (Uint63.of_Z z).

(** [static_cast<int>] of a [double]: truncation towards zero.  The
    standard leaves the conversion undefined for NaN, the infinities and
    values outside [int]; the model answers 0 for the first two and the
    unreduced integer for the last. *)
Definition to_int (f : float) : Z :=
  match Prim2SF f with
  | S754_finite s m e =>
      let a := if 0 <=? e then Z.pos m * 2 ^ e else Z.pos m / 2 ^ (- e) in
      if s then - a else a
  | _ => 0
  end.

Definition is_finite (f : float) : bool :=
  match Prim2SF f with
  | S754_zero _ | S754_finite _ _ _ => true
  | _ => false
  end.

Definition is_neg_zero (f : float) : bool :=
  match Prim2SF f with
  | S754_zero true => true
  | _ => false
  end.

End Double.

(** ** Error taxonomy (include/error_codes.h) *)

Inductive ErrorCode : Set :=
  | SUCCESS | VERSION_INCOMPATIBLE | NO_DRAWING_OPEN | NO_MODEL_ASSOCIATED
  | BARCODE_GENERATION_FAILED | IMAGE_INSERT_FAILED | CONFIG_LOAD_FAILED
  | CONFIG_SAVE_FAILED | FILE_NOT_FOUND | INVALID_BARCODE_TYPE | INVALID_DATA
  | BATCH_PARTIAL_FAILURE | DECODE_FAILED | INVALID_SIZE | DATA_OUT_OF_SYNC
  | SYNC_CHECK_FAILED.

Record ErrorInfo : Set := mkErrorInfo {
  code : ErrorCode;
  message : string;
  details : string
}.

(** ** The generator (include/barcode_generator.h, barcode_generator.cpp) *)

Inductive BarcodeType : Set :=
  | CODE_128 | CODE_39 | QR_CODE | DATA_MATRIX | EAN_13.

Record BarcodeConfig : Set := mkConfig {
  type : BarcodeType;
  width : Z;
  height : Z;
  margin : Z;
  showText : bool;
  dpi : Z
}.

Module BarcodeGenerator.

Import Char.

(** *** [validateData] (104-137) *)

(** The [CODE_39] loop: the first [if] rejects a character that is not
    alphanumeric after [toupper] and is none of the seven symbols, the
    second rejects a lower-case letter; falling out of the loop returns
    [true]. *)
Fixpoint code39_loop (data : string) : bool :=
  match data with
  | EmptyString => true
  | String c rest =>
      let upper := toupper c in
      if negb (isalnum upper)
         && negb (char_is 32 c) && negb (char_is 45 c) && negb (char_is 46 c)
         && negb (char_is 36 c) && negb (char_is 47 c) && negb (char_is 43 c)
         && negb (char_is 37 c)
      then false
      else if isalpha c && islower c then false
      else code39_loop rest
  end.

(** The [EAN_13] loop. *)
Fixpoint ean13_loop (data : string) : bool :=
  match data with
  | EmptyString => true
  | String c rest => if negb (isdigit c) then false else ean13_loop rest
  end.

(** The [default:] arm of the switch answers [false]; the enumeration
    has no sixth value, so the arm has no counterpart here. *)
Definition validateData (data : string) (t : BarcodeType) : bool :=
  if string_empty data then false
  else
    match t with
    | CODE_39 => code39_loop data
    | EAN_13 =>
        if negb (String.length data =? 12)%nat && negb (String.length data =? 13)%nat
        then false
        else ean13_loop data
    | CODE_128 | QR_CODE | DATA_MATRIX => true
    end.

(** *** Collaborators of [generate] *)

Inductive ZXingFormat : Set :=
  | ZX_Code128 | ZX_Code39 | ZX_QRCode | ZX_DataMatrix | ZX_EAN13.

Definition toZXingFormat (t : BarcodeType) : ZXingFormat :=
  match t with
  | CODE_128 => ZX_Code128
  | CODE_39 => ZX_Code39
  | QR_CODE => ZX_QRCode
  | DATA_MATRIX => ZX_DataMatrix
  | EAN_13 => ZX_EAN13
  end.

(** [ZXing::BitMatrix]: its size and the module at (x, y). *)
Record BitMatrix : Type := mkBitMatrix {
  bm_width : Z;
  bm_height : Z;
  bm_get : Z -> Z -> bool
}.

(** What [generate] asks of the outside world.  [writer_encode] is
    [MultiFormatWriter(format).encode(data, w, h)]: a matrix, or the
    [what()] of the exception it throws.  [stbi_write_png] is the PNG
    writer: path, width, height, components, pixel data and stride; it
    answers whether the file was written. *)
Record Collaborators : Type := mkCollaborators {
  writer_encode : ZXingFormat -> string -> Z -> Z -> BitMatrix + string;
  stbi_write_png : string -> Z -> Z -> Z -> list Z -> Z -> bool
}.

(** The calls [generate] makes on its collaborators, in order. *)
Inductive Event : Type :=
  | EvEncode (format : ZXingFormat) (data : string) (w h : Z)
  | EvWritePng (path : string) (w h comp : Z) (pixels : list Z) (stride : Z).

(** *** [scaleImage] (35-49) *)

Definition range (n : Z) : list Z := map Z.of_nat (seq 0 (Z.to_nat n)).

(** [dst] has [dstWidth * dstHeight] entries, written once each in row
    order, so the vector is the row-major comprehension.  The product is
    taken to fit the index type, as its allocation requires. *)
Definition scaleImage (src : list Z) (srcWidth srcHeight dstWidth dstHeight : Z)
  : list Z :=
  let xRatio := (Double.of_int srcWidth / Double.of_int dstWidth)%float in
  let yRatio := (Double.of_int srcHeight / Double.of_int dstHeight)%float in
  flat_map (fun y =>
    map (fun x =>
      let srcX := Double.to_int (Double.of_int x * xRatio)%float in
      let srcY := Double.to_int (Double.of_int y * yRatio)%float in
      nth (Z.to_nat (srcY * srcWidth + srcX)) src 0)
      (range dstWidth))
    (range dstHeight).

(** *** [generate] (140-197) *)

(** The pixels read off the matrix: 0 for a set module, 255 otherwise. *)
Definition matrix_pixels (m : BitMatrix) : list Z :=
  flat_map (fun y =>
    map (fun x => if bm_get m x y then 0 else 255) (range (bm_width m)))
    (range (bm_height m)).

(** The outcome of a call: the value returned, the [lastError_] it
    leaves in the generator, and the calls made on the collaborators. *)
Record Outcome : Type := mkOutcome {
  returned : bool;
  lastError_ : ErrorInfo;
  events : list Event
}.

Definition generate (env : Collaborators) (lastError0 : ErrorInfo)
    (data : string) (config : BarcodeConfig) (outputPath : string) : Outcome :=
  if string_empty data then
    mkOutcome false (mkErrorInfo INVALID_DATA "Empty data" EmptyString) []
  else if (width config <=? 0) || (height config <=? 0) then
    mkOutcome false (mkErrorInfo INVALID_SIZE "Invalid dimensions" EmptyString) []
  else if negb (validateData data (type config)) then
    mkOutcome false
      (mkErrorInfo INVALID_DATA "Data not valid for barcode type" EmptyString) []
  else
    let format := toZXingFormat (type config) in
    let genWidth := width config in
    let genHeight := height config in
    let ev1 := EvEncode format data genWidth genHeight in
    match writer_encode env format data genWidth genHeight with
    | inr what =>
        mkOutcome false (mkErrorInfo BARCODE_GENERATION_FAILED what EmptyString) [ev1]
    | inl matrix =>
        let matrixWidth := bm_width matrix in
        let matrixHeight := bm_height matrix in
        let pixels := matrix_pixels matrix in
        let finalWidth := width config in
        let finalHeight := height config in
        let finalPixels :=
          if negb (matrixWidth =? width config)
             || negb (matrixHeight =? height config)
          then scaleImage pixels matrixWidth matrixHeight
                 (width config) (height config)
          else pixels in
        let ev2 := EvWritePng outputPath finalWidth finalHeight 1
                     finalPixels finalWidth in
        if negb (stbi_write_png env outputPath finalWidth finalHeight 1
                   finalPixels finalWidth)
        then mkOutcome false
               (mkErrorInfo BARCODE_GENERATION_FAILED "Failed to write image" EmptyString)
               [ev1; ev2]
        else mkOutcome true lastError0 [ev1; ev2]
    end.

End BarcodeGenerator.

(** ** The dependency-free Code 128 encoder (src/barcode_pure_c.c) *)

Module PureC.

Import Char.

(** A [const char*] is [None] when null; otherwise the bytes it points
    to, of which C reads the part before the first NUL. *)
Fixpoint c_str (s : string) : string :=
  match s with
  | EmptyString => EmptyString
  | String c r => if char_is 0 c then EmptyString else String c (c_str r)
  end.

Definition strlen (s : string) : nat := String.length (c_str s).

(** The pattern table (17-41), indices 0 to 106. *)
Definition CODE128_PATTERNS : list string :=
  [ "212222"; "222122"; "222221"; "121223"; "121322"; "131222";
    "122213"; "122312"; "132212"; "221213"; "221312"; "231212";
    "112232"; "122132"; "122231"; "113222"; "123122"; "123221";
    "223211"; "221132"; "221231"; "213212"; "223112"; "312131";
    "311222"; "321122"; "321221"; "312212"; "322112"; "322211";
    "212123"; "212321"; "232121"; "111323"; "131123"; "131321";
    "112313"; "132113"; "132311"; "211313"; "231113"; "231311";
    "112133"; "112331"; "132131"; "113123"; "113321"; "133121";
    "313121"; "211331"; "231131"; "213113"; "213311"; "213131";
    "311123"; "311321"; "331121"; "312113"; "312311"; "332111";
    "314111"; "221411"; "431111"; "111224"; "111422"; "121124";
    "121421"; "141122"; "141221"; "112214"; "112412"; "122114";
    "122411"; "142112"; "142211"; "241211"; "221114"; "413111";
    "241112"; "134111"; "111242"; "121142"; "121241"; "114212";
    "124112"; "124211"; "411212"; "421112"; "421211"; "212141";
    "214121"; "412121"; "111143"; "111341"; "131141"; "114113";
    "114311"; "411113"; "411311"; "113141"; "114131"; "311141";
    "411131"; "211412"; "211214"; "211232"; "2331112" ].

(** The sum of the run lengths of a pattern: its width in modules. *)
Fixpoint pattern_modules (pat : string) : Z :=
  match pat with
  | EmptyString => 0
  | String c r => (ord c - 48) + pattern_modules r
  end.

(** What [DRAW_PATTERN] advances [currentX] by, in modules, for the
    pattern of index [s], and for a sequence of them. *)
Definition symbol_modules (s : Z) : Z :=
  pattern_modules (nth (Z.to_nat s) CODE128_PATTERNS EmptyString).

Definition drawn_modules (symbols : list Z) : Z :=
  fold_right (fun s acc => symbol_modules s + acc) 0 symbols.

(** [code128b_value] (44-49).  [char] is signed on the plug-in's
    platform; [code128b_value_unsigned] in Part II shows that an
    unsigned [char] gives the same values. *)
Definition code128b_value (c : ascii) : Z :=
  if (32 <=? sord c) && (sord c <=? 127) then sord c - 32 else 0.

(** The loop of [calculate_checksum] from index [i] on, over the
    characters not yet read. *)
Fixpoint checksum_loop (rest : string) (i : Z) (sum : Z) : Z :=
  match rest with
  | EmptyString => sum
  | String c r =>
      checksum_loop r (i + 1)
        (Int32.add sum (Int32.mul (code128b_value c) (Int32.add i 1)))
  end.

(** [calculate_checksum] (52-62).  The loop reads [data[0..len-1]] with
    [len = (int)strlen(data)]. *)
Definition calculate_checksum (data : string) (startCode : Z) : Z :=
  let len := Int32.of_size (strlen data) in
  let read := substring 0 (Z.to_nat len) (c_str data) in
  Int32.rem (checksum_loop read 0 startCode) 103.

(** The part of the BMP that is kept: the info header's size fields. *)
Record BmpInfo : Set := mkBmpInfo {
  biWidth : Z;
  biHeight : Z;
  biBitCount : Z;
  biSizeImage : Z
}.

(** What [DRAW_PATTERN] reads of the locals of [barcode_generate_pure_c]. *)
Record Canvas : Set := mkCanvas {
  cv_rowSize : Z;
  cv_width : Z;
  cv_height : Z;
  cv_margin : Z;
  cv_moduleWidth : Z
}.

(** A file written by [barcode_generate_pure_c]: where, its header, the
    module width in pixels, the indices of the patterns [DRAW_PATTERN] was
    expanded on, in order, and the locals the expansions read.  The
    pixel buffer is not stored: it is what the expansions make of these,
    [w_writes] below. *)
Record Written : Set := mkWritten {
  w_path : string;
  w_info : BmpInfo;
  w_moduleWidth : Z;
  w_symbols : list Z;
  w_canvas : Canvas
}.

(** The values a [for] loop takes from [lo] while below [hi]. *)
Definition interval (lo hi : Z) : list Z :=
  map (fun k => lo + Z.of_nat k) (seq 0 (Z.to_nat (hi - lo))).

(** The two inner loops of [DRAW_PATTERN] (163-172) for one bar: the
    rows from [barcodeTop = margin] while below [barcodeBottom = height -
    margin], and in each the columns from [currentX] while below both
    [currentX + barWidth] and [width - margin]; a pixel whose last byte
    lies in the buffer gets its three bytes written. *)
Definition draw_bar (cv : Canvas) (currentX barWidth : Z) : list Z :=
  let barcodeTop := cv_margin cv in
  let barcodeBottom := Int32.sub (cv_height cv) (cv_margin cv) in
  flat_map (fun y =>
    flat_map (fun x =>
      let offset := Int32.add (Int32.mul y (cv_rowSize cv)) (Int32.mul x 3) in
      if Int32.add offset 2 <? Int32.mul (cv_rowSize cv) (cv_height cv) then
        [offset; Int32.add offset 1; Int32.add offset 2]
      else [])
      (interval currentX
         (Z.min (Int32.add currentX barWidth)
            (Int32.sub (cv_width cv) (cv_margin cv)))))
    (interval barcodeTop barcodeBottom).

(** [DRAW_PATTERN] (157-176) from [patternIdx] on: the offsets written
    and [currentX] afterwards. *)
Fixpoint draw_pattern (cv : Canvas) (pat : string) (patternIdx currentX : Z)
  : list Z * Z :=
  match pat with
  | EmptyString => ([], currentX)
  | String c r =>
      let barWidth := Int32.mul (ord c - 48) (cv_moduleWidth cv) in
      let isBar := Int32.rem patternIdx 2 =? 0 in
      let writes := if isBar then draw_bar cv currentX barWidth else [] in
      let '(more, currentX') :=
        draw_pattern cv r (patternIdx + 1) (Int32.add currentX barWidth) in
      ((writes ++ more)%list, currentX')
  end.

(** The expansions of [DRAW_PATTERN] on the patterns of [symbols], one
    after the other (178-199). *)
Fixpoint draw_symbols (cv : Canvas) (symbols : list Z) (currentX : Z)
  : list Z * Z :=
  match symbols with
  | [] => ([], currentX)
  | s :: rest =>
      let pattern := nth (Z.to_nat s) CODE128_PATTERNS EmptyString in
      let '(writes, currentX1) := draw_pattern cv pattern 0 currentX in
      let '(more, currentX2) := draw_symbols cv rest currentX1 in
      ((writes ++ more)%list, currentX2)
  end.

(** The pixel buffer of a written file: the offsets set to 0 by the
    expansions of [DRAW_PATTERN] on its patterns, from [currentX =
    margin] (150), in the order of the writes.  Every other byte holds
    the 255 of the [memset] (144), and the file holds the rows of the
    buffer from the last to the first (234-236).  An offset outside the
    buffer is a write the C standard leaves undefined; it is listed like
    any other. *)
Definition w_writes (file : Written) : list Z :=
  fst (draw_symbols (w_canvas file) (w_symbols file)
         (cv_margin (w_canvas file))).

(** The C runtime calls that can fail. *)
Record Runtime : Type := mkRuntime {
  malloc_ok : Z -> bool;
  fopen_ok : string -> bool
}.

Fixpoint data_symbols (data : string) : list Z :=
  match data with
  | EmptyString => []
  | String c r =>
      let value := code128b_value c in
      if (0 <=? value) && (value <? 106) then value :: data_symbols r
      else data_symbols r
  end.

(** [barcode_generate_pure_c] (90-242): the return code and the file
    written, if any. *)
Definition barcode_generate_pure_c (rt : Runtime)
    (data outputPath : option string) (width height margin : Z)
  : Z * option Written :=
  match data, outputPath with
  | Some d, Some path =>
      if string_empty (c_str d) then (-1, None)
      else
        let dataLen := Int32.of_size (strlen d) in
        if 80 <? dataLen then (-2, None)
        else
          let totalModules :=
            Int32.add (Int32.add (Int32.add 11 (Int32.mul dataLen 11)) 11) 13 in
          let barcodeWidth := Int32.sub width (Int32.mul 2 margin) in
          let moduleWidth := Int32.div barcodeWidth totalModules in
          let moduleWidth := if moduleWidth <? 2 then 2 else moduleWidth in
          let barcodeWidth := Int32.mul moduleWidth totalModules in
          let width := Int32.add barcodeWidth (Int32.mul 2 margin) in
          let height := if height <? 60 then 60 else height in
          let rowSize :=
            Int32.mul (Int32.div (Int32.add (Int32.mul width 3) 3) 4) 4 in
          if negb (malloc_ok rt (Int32.mul rowSize height)) then (-3, None)
          else
            let checksum := calculate_checksum d 104 in
            let read := substring 0 (Z.to_nat dataLen) (c_str d) in
            let symbols :=
              ([104] ++ data_symbols read
               ++ (if (0 <=? checksum) && (checksum <? 106) then [checksum] else [])
               ++ [106])%list in
            let cv := mkCanvas rowSize width height margin moduleWidth in
            if negb (fopen_ok rt path) then (-4, None)
            else
              (0, Some (mkWritten path
                          (mkBmpInfo width height 24 (Int32.mul rowSize height))
                          moduleWidth symbols cv))
  | _, _ => (-1, None)
  end.

(** [barcode_generate_c] (252-282): the return code, the text left in
    [g_purec_error], and the file written. *)
Definition barcode_generate_c (rt : Runtime) (g_purec_error : string)
    (data : option string) (type width height margin : Z)
    (outputPath : option string) : Z * string * option Written :=
  let '(result, file) :=
    barcode_generate_pure_c rt data outputPath width height margin in
  let err :=
    if result =? 0 then EmptyString
    else if result =? -1 then "Invalid parameters"
    else if result =? -2 then "Data too long (max 80 characters)"
    else if result =? -3 then "Memory allocation failed"
    else if result =? -4 then "Cannot create output file"
    else "Unknown error: " ++ NilZero.string_of_int (Z.to_int result) in
  (result, err, file).

End PureC.

(** ** The COM bridge: grid layout and batch insertion
       (include/creo_com_bridge.h, creo_com_bridge.cpp 693-803) *)

Module CreoComBridge.

Record GridLayoutParams : Set := mkGridLayoutParams {
  startX : float;
  startY : float;
  cell_width : float;
  cell_height : float;
  columns : Z;
  spacing : float
}.

Record GridPosition : Set := mkGridPosition {
  x : float;
  y : float
}.

Record BatchInsertResult : Set := mkBatchInsertResult {
  totalCount : Z;
  successCount : Z;
  failCount : Z;
  failedPaths : list string;
  errorMessages : list string
}.

Record BatchImageInfo : Set := mkBatchImageInfo {
  imagePath : string;
  img_x : float;
  img_y : float;
  img_width : float;
  img_height : float
}.

(** [calculateGridPosition] (783-803). *)
Definition calculateGridPosition (index columns : Z)
    (spacing startX startY width height : float) : GridPosition :=
  let columns := if columns <? 1 then 1 else columns in
  let col := Int32.rem index columns in
  let row := Int32.div index columns in
  {| x := (startX + Double.of_int col * (width + spacing))%float;
     y := (startY - Double.of_int row * (height + spacing))%float |}.

(** The bridge object as the batch operations see it: some state [St],
    the member [insertImage] that talks to the CAD host (it may change
    the state, [m_lastError] included, and answers success or failure),
    and the reading of [m_lastError].  The batch operations are modelled
    for every such bridge. *)
Record Bridge (St : Type) : Type := mkBridge {
  insertImage : St -> string -> float -> float -> float -> float -> bool * St;
  m_lastError : St -> string
}.
Arguments insertImage {St}.
Arguments m_lastError {St}.

(** One call of [insertImage]: its arguments, its answer, and what
    [m_lastError] reads once it has returned. *)
Record InsertCall : Set := mkInsertCall {
  call_path : string;
  call_x : float;
  call_y : float;
  call_width : float;
  call_height : float;
  call_ok : bool;
  call_error : string
}.

(** The body shared by both loops after the call of [insertImage]:
    count a success, or count a failure and record the path and the
    bridge's last error. *)
Definition tally {St} (b : Bridge St) (result : BatchInsertResult)
    (ok : bool) (path : string) (st : St) : BatchInsertResult :=
  if ok then
    mkBatchInsertResult (totalCount result)
      (Int32.add (successCount result) 1) (failCount result)
      (failedPaths result) (errorMessages result)
  else
    mkBatchInsertResult (totalCount result)
      (successCount result) (Int32.add (failCount result) 1)
      (failedPaths result ++ [path])%list
      (errorMessages result ++ [m_lastError b st])%list.

(** The loop of [batchInsertImages] over the images still to insert. *)
Fixpoint images_loop {St} (b : Bridge St) (images : list BatchImageInfo)
    (st : St) (result : BatchInsertResult) (calls : list InsertCall)
  : BatchInsertResult * St * list InsertCall :=
  match images with
  | [] => (result, st, calls)
  | img :: rest =>
      let '(ok, st') :=
        insertImage b st (imagePath img) (img_x img) (img_y img)
          (img_width img) (img_height img) in
      images_loop b rest st'
        (tally b result ok (imagePath img) st')
        (calls ++ [mkInsertCall (imagePath img) (img_x img) (img_y img)
                     (img_width img) (img_height img)
                     ok (m_lastError b st')])%list
  end.

(** [batchInsertImages] (693-719): the result, the bridge state after
    the call, and the calls of [insertImage] in order. *)
Definition batchInsertImages {St} (b : Bridge St) (st : St)
    (images : list BatchImageInfo)
  : BatchInsertResult * St * list InsertCall :=
  let result := mkBatchInsertResult (Int32.of_size (List.length images)) 0 0 [] [] in
  match images with
  | [] => (result, st, [])
  | _ => images_loop b images st result []
  end.

(** The loop of [batchInsertImagesGrid] from index [i] on. *)
Fixpoint grid_loop {St} (b : Bridge St) (paths : list string) (i : nat)
    (columns : Z) (params : GridLayoutParams)
    (st : St) (result : BatchInsertResult) (calls : list InsertCall)
  : BatchInsertResult * St * list InsertCall :=
  match paths with
  | [] => (result, st, calls)
  | path :: rest =>
      let pos :=
        calculateGridPosition (Int32.of_size i) columns (spacing params)
          (startX params) (startY params)
          (cell_width params) (cell_height params) in
      let '(ok, st') :=
        insertImage b st path (x pos) (y pos)
          (cell_width params) (cell_height params) in
      grid_loop b rest (S i) columns params st'
        (tally b result ok path st')
        (calls ++ [mkInsertCall path (x pos) (y pos)
                     (cell_width params) (cell_height params)
                     ok (m_lastError b st')])%list
  end.

(** [batchInsertImagesGrid] (721-777). *)
Definition batchInsertImagesGrid {St} (b : Bridge St) (st : St)
    (imagePaths : list string) (params : GridLayoutParams)
  : BatchInsertResult * St * list InsertCall :=
  let result := mkBatchInsertResult (Int32.of_size (List.length imagePaths)) 0 0 [] [] in
  match imagePaths with
  | [] => (result, st, [])
  | _ =>
      let columns := if columns params <? 1 then 1 else columns params in
      grid_loop b imagePaths 0 columns params st result []
  end.

End CreoComBridge.

(** ** The batch processor (include/batch_processor.h, src/batch_processor.cpp) *)

Module BatchProcessor.

Record BatchResult : Set := mkBatchResult {
  filePath : string;
  success : bool;
  errorMessage : string
}.

(** The world [process] runs in: [ifstream_good w path] tells whether
    [std::ifstream file(path)] opens in the world [w].  A progress
    callback is arbitrary caller code: it receives [current] and [total]
    and may change the world. *)
Record FileSystem (W : Type) : Type := mkFileSystem {
  ifstream_good : W -> string -> bool
}.
Arguments ifstream_good {W}.

Definition ProgressCallback (W : Type) : Type := Z -> Z -> W -> W.

(** The range-for of [process] over the files still queued.  [results]
    grows by [emplace_back]; [calls] lists the arguments of the callback
    invocations made so far. *)
Fixpoint process_loop {W} (fs : FileSystem W) (queue : list string)
    (progressCallback : option (ProgressCallback W)) (total current : Z)
    (w : W) (results : list BatchResult) (calls : list (Z * Z))
  : list BatchResult * W * list (Z * Z) :=
  match queue with
  | [] => (results, w, calls)
  | path :: rest =>
      let current := Int32.add current 1 in
      let '(w, calls) :=
        match progressCallback with
        | Some cb => (cb current total w, (calls ++ [(current, total)])%list)
        | None => (w, calls)
        end in
      if negb (ifstream_good fs w path) then
        process_loop fs rest progressCallback total current w
          (results ++ [mkBatchResult path false "File not found"])%list calls
      else
        process_loop fs rest progressCallback total current w
          (results ++ [mkBatchResult path true EmptyString])%list calls
  end.

(** [BatchProcessor::process] (19-54) on the queue [fileQueue_]: the
    results, the world afterwards, and the callback invocations. *)
Definition process {W} (fs : FileSystem W) (fileQueue_ : list string)
    (config : BarcodeConfig)
    (progressCallback : option (ProgressCallback W)) (w : W)
  : list BatchResult * W * list (Z * Z) :=
  let total := Int32.of_size (List.length fileQueue_) in
  process_loop fs fileQueue_ progressCallback total 0 w [] [].

End BatchProcessor.

(* ================================================================== *)
(** * Part I, continued.  The code around the core                     *)
(* ================================================================== *)

(** ** The rest of the generator (barcode_generator.cpp 199-280) *)

Module GeneratorUtil.

Import BarcodeGenerator.

(** [barcodeTypeToString] (262-271).  The [default:] arm answers
    "UNKNOWN"; the enumeration has no sixth value to reach it. *)
Definition barcodeTypeToString (t : BarcodeType) : string :=
  match t with
  | CODE_128 => "CODE_128"
  | CODE_39 => "CODE_39"
  | QR_CODE => "QR_CODE"
  | DATA_MATRIX => "DATA_MATRIX"
  | EAN_13 => "EAN_13"
  end.

(** [stringToBarcodeType] (273-280). *)
Definition stringToBarcodeType (str : string) : option BarcodeType :=
  if String.eqb str "CODE_128" then Some CODE_128
  else if String.eqb str "CODE_39" then Some CODE_39
  else if String.eqb str "QR_CODE" then Some QR_CODE
  else if String.eqb str "DATA_MATRIX" then Some DATA_MATRIX
  else if String.eqb str "EAN_13" then Some EAN_13
  else None.

(** [cfg.type = t] on a copy of the configuration. *)
Definition with_type (config : BarcodeConfig) (t : BarcodeType) : BarcodeConfig :=
  mkConfig t (width config) (height config) (margin config)
    (showText config) (dpi config).

(** [generateCode128], [generateCode39], [generateQRCode] (238-260). *)
Definition generateCode128 (env : Collaborators) (lastError0 : ErrorInfo)
    (data : string) (config : BarcodeConfig) (outputPath : string) : Outcome :=
  generate env lastError0 data (with_type config CODE_128) outputPath.

Definition generateCode39 (env : Collaborators) (lastError0 : ErrorInfo)
    (data : string) (config : BarcodeConfig) (outputPath : string) : Outcome :=
  generate env lastError0 data (with_type config CODE_39) outputPath.

Definition generateQRCode (env : Collaborators) (lastError0 : ErrorInfo)
    (data : string) (config : BarcodeConfig) (outputPath : string) : Outcome :=
  generate env lastError0 data (with_type config QR_CODE) outputPath.

(** What [decode] and [getImageSize] ask of the outside world.
    [stbi_load path desired] is the image loader: the pixel data with
    its width, height and channel count, or nothing when the file cannot
    be read.  [ReadBarcode] is the ZXing reader on a luminance image:
    whether a symbol was found and its text, or the [what()] of the
    exception it throws. *)
Record Reader : Type := mkReader {
  stbi_load : string -> Z -> option (list Z * Z * Z * Z);
  ReadBarcode : list Z -> Z -> Z -> (bool * string) + string
}.

(** [decode] (199-225): the optional text and the [lastError_] left. *)
Definition decode (rd : Reader) (lastError0 : ErrorInfo) (imagePath : string)
  : option string * ErrorInfo :=
  match stbi_load rd imagePath 1 with
  | None =>
      (None, mkErrorInfo FILE_NOT_FOUND "Failed to load image" EmptyString)
  | Some (data, w, h, channels) =>
      match ReadBarcode rd data w h with
      | inl (isValid, text) =>
          if isValid then (Some text, lastError0)
          else (None, mkErrorInfo DECODE_FAILED "No barcode found" EmptyString)
      | inr what => (None, mkErrorInfo DECODE_FAILED what EmptyString)
      end
  end.

(** [getImageSize] (228-236): success with the width and height read. *)
Definition getImageSize (rd : Reader) (imagePath : string) : option (Z * Z) :=
  match stbi_load rd imagePath 0 with
  | None => None
  | Some (data, w, h, channels) => Some (w, h)
  end.

End GeneratorUtil.

(** ** The data synchronisation checker
       (include/data_sync_checker.h, src/data_sync_checker.cpp) *)

Module DataSyncChecker.

Import Codec GeneratorUtil.

Inductive SyncStatus : Set :=
  | IN_SYNC | OUT_OF_SYNC | BARCODE_NOT_FOUND | DECODE_ERROR | UNKNOWN.

Record BarcodeInstance : Set := mkBarcodeInstance {
  imagePath : string;
  encodedData : string;
  decodedData : string;
  instance_type : BarcodeType;
  posX : float;
  posY : float;
  timestamp : string
}.

Record SyncCheckResult : Set := mkSyncCheckResult {
  status : SyncStatus;
  currentPartName : string;
  barcodeData : string;
  message : string;
  warningDisplayed : bool
}.

Definition isInSync (r : SyncCheckResult) : bool :=
  match status r with IN_SYNC => true | _ => false end.

Definition needsUpdate (r : SyncCheckResult) : bool :=
  match status r with OUT_OF_SYNC => true | _ => false end.

(** [getStatusMessage] (177-191). *)
Definition getStatusMessage (s : SyncStatus) : string :=
  match s with
  | IN_SYNC => "Barcode data matches current part name"
  | OUT_OF_SYNC =>
      "Barcode data does not match current part name - update recommended"
  | BARCODE_NOT_FOUND => "No barcode found in drawing"
  | DECODE_ERROR => "Could not decode barcode data"
  | UNKNOWN => "Synchronization status unknown"
  end.

(** [syncStatusToString] (201-210). *)
Definition syncStatusToString (s : SyncStatus) : string :=
  match s with
  | IN_SYNC => "IN_SYNC"
  | OUT_OF_SYNC => "OUT_OF_SYNC"
  | BARCODE_NOT_FOUND => "BARCODE_NOT_FOUND"
  | DECODE_ERROR => "DECODE_ERROR"
  | UNKNOWN => "UNKNOWN"
  end.

(** [checkSync] (23-61).  A default-constructed result has the status
    [UNKNOWN], empty strings and no warning. *)
Definition checkSync (partName : string) (barcodeInstance : BarcodeInstance)
  : SyncCheckResult :=
  if string_empty (decodedData barcodeInstance) then
    mkSyncCheckResult BARCODE_NOT_FOUND partName (decodedData barcodeInstance)
      (getStatusMessage BARCODE_NOT_FOUND) false
  else if string_empty partName then
    mkSyncCheckResult UNKNOWN partName (decodedData barcodeInstance)
      "Part name is empty" false
  else if String.eqb (decodedData barcodeInstance) partName then
    mkSyncCheckResult IN_SYNC partName (decodedData barcodeInstance)
      (getStatusMessage IN_SYNC) false
  else
    mkSyncCheckResult OUT_OF_SYNC partName (decodedData barcodeInstance)
      (getStatusMessage OUT_OF_SYNC) true.

(** [checkSyncFromImage] (63-99): the result, the checker's [lastError_]
    and the generator's. *)
Definition checkSyncFromImage (rd : Reader)
    (checkerError generatorError : ErrorInfo)
    (partName barcodePath : string)
  : SyncCheckResult * ErrorInfo * ErrorInfo :=
  match decode rd generatorError barcodePath with
  | (None, generatorError') =>
      (mkSyncCheckResult DECODE_ERROR partName EmptyString
         "Failed to decode barcode from image" false,
       mkErrorInfo DECODE_FAILED "Failed to decode barcode from image" barcodePath,
       generatorError')
  | (Some data, generatorError') =>
      let decodedPartName := decodeSpecialChars data in
      if String.eqb decodedPartName partName then
        (mkSyncCheckResult IN_SYNC partName data
           (getStatusMessage IN_SYNC) false,
         checkerError, generatorError')
      else
        (mkSyncCheckResult OUT_OF_SYNC partName data
           (getStatusMessage OUT_OF_SYNC) true,
         checkerError, generatorError')
  end.

(** An [UpdateConfirmCallback]: the user's answer to (old data, new
    data); an empty [std::function] is [None]. *)
Definition UpdateConfirmCallback : Type := string -> string -> bool.

(** [promptUpdate] (101-130): the value returned and the arguments of the
    callback invocations made. *)
Definition promptUpdate (defaultUpdateCallback_ : option UpdateConfirmCallback)
    (result : SyncCheckResult) (confirmCallback : option UpdateConfirmCallback)
  : bool * list (string * string) :=
  match status result with
  | OUT_OF_SYNC =>
      let callback :=
        match confirmCallback with
        | Some cb => Some cb
        | None => defaultUpdateCallback_
        end in
      match callback with
      | None => (false, [])
      | Some cb =>
          (cb (barcodeData result) (currentPartName result),
           [(barcodeData result, currentPartName result)])
      end
  | _ => (false, [])
  end.

(** [compareData] (150-175). *)
Definition compareData (partName barcodeData : string) : bool :=
  if string_empty partName || string_empty barcodeData then false
  else if String.eqb partName barcodeData then true
  else if String.eqb (encodeSpecialChars partName) barcodeData then true
  else if String.eqb partName (decodeSpecialChars barcodeData) then true
  else false.

End DataSyncChecker.

(** ** The rest of the batch processor (src/batch_processor.cpp 7-17, 56-85) *)

Module BatchQueue.

Import BatchProcessor.

(** The processor's only member is [fileQueue_]. *)
Definition addFile (fileQueue_ : list string) (filePath : string) : list string :=
  (fileQueue_ ++ [filePath])%list.

Definition addFiles (fileQueue_ filePaths : list string) : list string :=
  (fileQueue_ ++ filePaths)%list.

Definition clear (fileQueue_ : list string) : list string := [].

Definition getQueueSize (fileQueue_ : list string) : nat := List.length fileQueue_.

(** The line feed written by the stream. *)
Definition nl : string := String (Char.chr 10) EmptyString.

(** [operator<<] of an integer, in decimal. *)
Definition dec (z : Z) : string := NilZero.string_of_int (Z.to_int z).

(** The loop of [getSummary] over the results still to count. *)
Fixpoint summary_loop (results : list BatchResult)
    (successCount failureCount : Z) (failures : list string)
  : Z * Z * list string :=
  match results with
  | [] => (successCount, failureCount, failures)
  | result :: rest =>
      if success result then
        summary_loop rest (Int32.add successCount 1) failureCount failures
      else
        summary_loop rest successCount (Int32.add failureCount 1)
          (failures
           ++ [(filePath result ++ ": " ++ errorMessage result)%string])%list
  end.

Fixpoint failure_lines (failures : list string) : string :=
  match failures with
  | [] => EmptyString
  | failure :: rest => "  - " ++ failure ++ nl ++ failure_lines rest
  end.

(** [getSummary] (56-85). *)
Definition getSummary (results : list BatchResult) : string :=
  let '(successCount, failureCount, failures) := summary_loop results 0 0 [] in
  "Batch Processing Summary" ++ nl
  ++ "========================" ++ nl
  ++ "Total files: " ++ dec (Z.of_nat (List.length results)) ++ nl
  ++ "Successful: " ++ dec successCount ++ nl
  ++ "Failed: " ++ dec failureCount ++ nl
  ++ match failures with
     | [] => EmptyString
     | _ => nl ++ "Failure details:" ++ nl ++ failure_lines failures
     end.

(** The line [getSummary] keeps for a failed result. *)
Definition failure_of (result : BatchResult) : string :=
  filePath result ++ ": " ++ errorMessage result.

Definition failed (result : BatchResult) : bool := negb (success result).

End BatchQueue.

(** ** The version check
       (creo-barcode-plugin/include/version_check.h, src/version_check.cpp) *)

Module VersionCheck.

Record CreoVersion : Set := mkCreoVersion {
  major : Z;
  minor : Z;
  patch : Z
}.

Definition MIN_CREO_MAJOR_VERSION : Z := 8.
Definition MIN_CREO_MINOR_VERSION : Z := 0.

(** [operator>=] (version_check.h 20-24). *)
Definition ge (this other : CreoVersion) : bool :=
  if negb (major this =? major other) then major other <? major this
  else if negb (minor this =? minor other) then minor other <? minor this
  else patch other <=? patch this.

(** [operator<] (26-28). *)
Definition lt (this other : CreoVersion) : bool := negb (ge this other).

(** [getMinimumVersion] (version_check.cpp 47-49). *)
Definition getMinimumVersion : CreoVersion :=
  mkCreoVersion MIN_CREO_MAJOR_VERSION MIN_CREO_MINOR_VERSION 0.

(** [checkCreoVersion] (6-9). *)
Definition checkCreoVersion (version : CreoVersion) : bool :=
  ge version getMinimumVersion.

(** [toString] (version_check.h 30-32); [std::to_string] of an [int]
    is its decimal form. *)
Definition toString (v : CreoVersion) : string :=
  BatchQueue.dec (major v) ++ "." ++ BatchQueue.dec (minor v) ++ "."
  ++ BatchQueue.dec (patch v).

(** *** [operator>>(int&)] on a [std::istringstream]

    The formatted extraction as the C++ standard defines it for the
    default flags: white space is skipped, one sign is accepted, then the
    longest run of decimal digits is taken.  The extraction fails
    ([None]) when there is no digit or when the value does not fit an
    [int]; otherwise it answers the value and the text not yet read. *)

Fixpoint read_digits (acc : Z) (s : string) : Z * string :=
  match s with
  | String c r =>
      if Char.isdigit c then read_digits (10 * acc + (Char.ord c - 48)) r
      else (acc, s)
  | EmptyString => (acc, s)
  end.

Definition extract_int (s : string) : option (Z * string) :=
  let '(neg, s1) := Codec.strip_sign (Codec.skip_space s) in
  match s1 with
  | EmptyString => None
  | String c _ =>
      if Char.isdigit c then
        let '(v, rest) := read_digits 0 s1 in
        let r := if neg then - v else v in
        if (Int32.INT_MIN <=? r) && (r <=? Int32.INT_MAX) then Some (r, rest)
        else None
      else None
  end.

(** [iss.peek() == '.'] followed by [iss >> dot]: the text after the
    dot, when the next character is one. *)
Definition after_dot (s : string) : option string :=
  match s with
  | String c r => if Char.char_is 46 c then Some r else None
  | EmptyString => None
  end.

(** [parseVersionString] (version_check.cpp 11-45): the version read
    when the function answers true. *)
Definition parseVersionString (versionStr : string) : option CreoVersion :=
  if string_empty versionStr then None
  else
    match extract_int versionStr with
    | None => None
    | Some (major, rest) =>
        match after_dot rest with
        | None => Some (mkCreoVersion major 0 0)
        | Some rest1 =>
            match extract_int rest1 with
            | None => None
            | Some (minor, rest2) =>
                match after_dot rest2 with
                | None => Some (mkCreoVersion major minor 0)
                | Some rest3 =>
                    match extract_int rest3 with
                    | None => None
                    | Some (patch, _) => Some (mkCreoVersion major minor patch)
                    end
                end
            end
        end
    end.

End VersionCheck.

(** ** Validation of the settings
       (creo-barcode-plugin/include/settings_dialog.h, src/settings_dialog.cpp) *)

Module SettingsDialog.

Record ValidationResult : Set := mkValidationResult {
  valid : bool;
  errorMessage : string;
  fieldName : string
}.

Definition success : ValidationResult :=
  mkValidationResult true EmptyString EmptyString.

Definition failure (msg field : string) : ValidationResult :=
  mkValidationResult false msg field.

Record DialogResult : Set := mkDialogResult {
  accepted : bool;
  config : BarcodeConfig
}.

Definition MIN_WIDTH : Z := 50.
Definition MAX_WIDTH : Z := 1000.
Definition MIN_HEIGHT : Z := 20.
Definition MAX_HEIGHT : Z := 500.
Definition MIN_MARGIN : Z := 0.
Definition MAX_MARGIN : Z := 50.
Definition MIN_DPI : Z := 72.
Definition MAX_DPI : Z := 600.

(** [validateWidth], [validateHeight], [validateMargin], [validateDpi]
    (47-101). *)
Definition validateWidth (w : Z) : ValidationResult :=
  if w <? MIN_WIDTH then
    failure ("Width must be at least " ++ BatchQueue.dec MIN_WIDTH ++ " pixels") "width"
  else if MAX_WIDTH <? w then
    failure ("Width must not exceed " ++ BatchQueue.dec MAX_WIDTH ++ " pixels") "width"
  else success.

Definition validateHeight (h : Z) : ValidationResult :=
  if h <? MIN_HEIGHT then
    failure ("Height must be at least " ++ BatchQueue.dec MIN_HEIGHT ++ " pixels") "height"
  else if MAX_HEIGHT <? h then
    failure ("Height must not exceed " ++ BatchQueue.dec MAX_HEIGHT ++ " pixels") "height"
  else success.

Definition validateMargin (m : Z) : ValidationResult :=
  if m <? MIN_MARGIN then
    failure ("Margin must be at least " ++ BatchQueue.dec MIN_MARGIN ++ " pixels") "margin"
  else if MAX_MARGIN <? m then
    failure ("Margin must not exceed " ++ BatchQueue.dec MAX_MARGIN ++ " pixels") "margin"
  else success.

Definition validateDpi (d : Z) : ValidationResult :=
  if d <? MIN_DPI then
    failure ("DPI must be at least " ++ BatchQueue.dec MIN_DPI) "dpi"
  else if MAX_DPI <? d then
    failure ("DPI must not exceed " ++ BatchQueue.dec MAX_DPI) "dpi"
  else success.

(** [static_cast<int>] of a [BarcodeType] (barcode_generator.h 10-16). *)
Definition type_value (t : BarcodeType) : Z :=
  match t with
  | CODE_128 => 0
  | CODE_39 => 1
  | QR_CODE => 2
  | DATA_MATRIX => 3
  | EAN_13 => 4
  end.

(** [validateConfig] (103-135) on the fields of the configuration as
    they are stored.  A [BarcodeType] is an [int] underneath and the
    field can hold any, not only the five enumerators: [typeValue] is
    what [static_cast<int>(config.type)] reads. *)
Definition validateConfig_fields (typeValue width height margin dpi : Z)
  : ValidationResult :=
  let result := validateWidth width in
  if negb (valid result) then result
  else
    let result := validateHeight height in
    if negb (valid result) then result
    else
      let result := validateMargin margin in
      if negb (valid result) then result
      else
        let result := validateDpi dpi in
        if negb (valid result) then result
        else
          if (typeValue <? 0) || (type_value EAN_13 <? typeValue) then
            failure "Invalid barcode type" "type"
          else success.

(** [validateConfig] on a configuration whose type is one of the
    enumerators. *)
Definition validateConfig (cfg : BarcodeConfig) : ValidationResult :=
  validateConfig_fields (type_value (type cfg))
    (width cfg) (height cfg) (margin cfg) (dpi cfg).

(** [show] in the stand-alone build (139-156): the result and the
    [lastError_] of the dialog afterwards. *)
Definition show (lastError_ : ErrorInfo) (initialConfig : BarcodeConfig)
  : DialogResult * ErrorInfo :=
  let validation := validateConfig initialConfig in
  (mkDialogResult false initialConfig,
   if negb (valid validation) then
     mkErrorInfo INVALID_DATA (errorMessage validation) (fieldName validation)
   else lastError_).

End SettingsDialog.

(** ** The menu handlers in the stand-alone build
       (creo-barcode-plugin/src/menu_manager.cpp 101-181) *)

Module MenuManager.

(** [PluginConfig] (include/config_manager.h 11-18). *)
Record PluginConfig : Set := mkPluginConfig {
  defaultType : BarcodeType;
  defaultWidth : Z;
  defaultHeight : Z;
  defaultShowText : bool;
  outputDirectory : string;
  defaultDpi : Z;
  recentFiles : list string
}.

(** A default-constructed [BarcodeConfig] (barcode_generator.h 18-25). *)
Definition default_config : BarcodeConfig :=
  mkConfig CODE_128 200 80 10 true 300.

(** The five assignments from the plug-in configuration (125-129,
    161-165) on a default-constructed [BarcodeConfig]. *)
Definition from_plugin (pluginConfig : PluginConfig) : BarcodeConfig :=
  mkConfig (defaultType pluginConfig) (defaultWidth pluginConfig)
    (defaultHeight pluginConfig) (margin default_config)
    (defaultShowText pluginConfig) (defaultDpi pluginConfig).

(** [showSettingsDialog] (101-114), on a dialog constructed for the
    call: whether the user accepted, and the configuration. *)
Definition showSettingsDialog (currentConfig : BarcodeConfig)
  : bool * BarcodeConfig :=
  let dialogResult :=
    fst (SettingsDialog.show (mkErrorInfo SUCCESS EmptyString EmptyString)
           currentConfig) in
  (SettingsDialog.accepted dialogResult, SettingsDialog.config dialogResult).

(** [handleGenerateBarcode] (118-138): the configurations the callback
    is called with; [generateCallback_] tells whether one is set, and
    [configManager_] holds the plug-in configuration, if there is a
    manager. *)
Definition handleGenerateBarcode (generateCallback_ : bool)
    (configManager_ : option PluginConfig) : list BarcodeConfig :=
  if generateCallback_ then
    match configManager_ with
    | Some pluginConfig => [from_plugin pluginConfig]
    | None => [default_config]
    end
  else [].

(** [handleSettings] (150-181): the plug-in configuration afterwards. *)
Definition handleSettings (configManager_ : option PluginConfig)
  : option PluginConfig :=
  match configManager_ with
  | None => None
  | Some pluginConfig =>
      let '(accepted, cfg) := showSettingsDialog (from_plugin pluginConfig) in
      if accepted then
        Some (mkPluginConfig (type cfg) (width cfg) (height cfg) (showText cfg)
                (outputDirectory pluginConfig) (dpi cfg)
                (recentFiles pluginConfig))
      else Some pluginConfig
  end.

End MenuManager.

(** ** The members of the COM bridge behind the batch operations
       (creo_com_bridge.cpp 77-92, 378-691)

    The file is compiled for Windows only; [HRESULT] is a 32-bit signed
    integer and [unsigned long] has 32 bits there.  Calls of the logger
    are left out: they touch nothing the bridge reads. *)

Module CreoComBridgeCore.

Import Char.

(** Values of the Windows SDK (winerror.h): [E_NOTIMPL] is 0x80004001,
    [E_FAIL] is 0x80004005, and [FAILED] tests the sign. *)
Definition S_OK : Z := 0.
Definition E_NOTIMPL : Z := -2147467263.
Definition E_FAIL : Z := -2147467259.
Definition FAILED (hr : Z) : bool := hr <? 0.

(** The data members; an interface pointer is kept as whether it is set. *)
Record BridgeState : Set := mkBridgeState {
  m_initialized : bool;
  m_comInitialized : bool;
  m_lastHResult : Z;
  m_lastError : string;
  m_pConnection : bool;
  m_pSession : bool
}.

(** What the members ask of the platform.  The file-system queries
    answer their value, or the message of the error code they set.
    [FormatMessageW] answers the system text of a code as UTF-16 units,
    none when it has no text.  [getCurrentDrawing] (306-376) is a chain
    of calls on the CAD session: any function that answers a drawing or
    not and leaves a bridge state.  [CreateDraftingImage] answers its
    [HRESULT] and whether the image pointer is set. *)
Record Host : Type := mkHost {
  IpfcDrawing : Type;
  IpfcOutline2D : Type;
  fs_exists : string -> bool + string;
  fs_is_regular_file : string -> bool + string;
  fs_extension : string -> string;
  fs_file_size : string -> Z + string;
  FormatMessageW : Z -> list Z;
  WideCharToMultiByte : list Z -> string;
  MultiByteToWideChar : string -> list Z;
  SysAllocString : list Z -> bool;
  to_string : float -> string;
  getCurrentDrawing : BridgeState -> option IpfcDrawing * BridgeState;
  CreateDraftingImage : IpfcDrawing -> list Z -> IpfcOutline2D -> Z * bool
}.

(** [::tolower] in the default "C" locale. *)
Definition tolower (c : ascii) : ascii :=
  if isupper c then chr (ord c + 32) else c.

Fixpoint transform_tolower (s : string) : string :=
  match s with
  | EmptyString => EmptyString
  | String c r => String (tolower c) (transform_tolower r)
  end.

(** [operator<<] of an [unsigned long] under [std::hex]: the digits from
    the last to the first; eight turns serve 32 bits. *)
Fixpoint hex_loop (fuel : nat) (n : Z) (acc : string) : string :=
  match fuel with
  | O => acc
  | S fuel' =>
      let acc' := String (Codec.hex_digit (n mod 16)) acc in
      if n / 16 =? 0 then acc' else hex_loop fuel' (n / 16) acc'
  end.

(** [std::hex << std::setfill('0') << std::setw(8)
    << static_cast<unsigned long>(hr)]. *)
Definition hex8 (hr : Z) : string :=
  Codec.setw_setfill 8 (chr 48) (hex_loop 8 (hr mod 4294967296) EmptyString).

(** [wstringToUtf8] (143-167). *)
Definition wstringToUtf8 (h : Host) (wstr : list Z) : string :=
  match wstr with
  | [] => EmptyString
  | _ => WideCharToMultiByte h wstr
  end.

(** [utf8ToWstring] (119-141) and [stringToBSTR] (100-105): whether the
    allocation of the [BSTR] succeeded. *)
Definition utf8ToWstring (h : Host) (utf8 : string) : list Z :=
  match utf8 with
  | EmptyString => []
  | _ => MultiByteToWideChar h utf8
  end.

Definition stringToBSTR (h : Host) (str : list Z) : option (list Z) :=
  if SysAllocString h str then Some str else None.

(** The loop that drops trailing line feeds and carriage returns. *)
Fixpoint pop_newlines (reversed : list Z) : list Z :=
  match reversed with
  | [] => []
  | c :: r => if (c =? 10) || (c =? 13) then pop_newlines r else reversed
  end.

(** The system text of a code as both [setError] and [formatHResult]
    obtain it: nothing when [FormatMessageW] has none. *)
Definition system_message (h : Host) (hr : Z) : option string :=
  match FormatMessageW h hr with
  | [] => None
  | wMsg => Some (wstringToUtf8 h (rev (pop_newlines (rev wMsg))))
  end.

(** [setError(HRESULT, context)] (378-415). *)
Definition setError_hr (h : Host) (st : BridgeState) (hr : Z) (context : string)
  : BridgeState :=
  mkBridgeState (m_initialized st) (m_comInitialized st) hr
    (context ++ " (HRESULT: 0x" ++ hex8 hr
     ++ match system_message h hr with
        | Some utf8Msg => " - " ++ utf8Msg
        | None => EmptyString
        end
     ++ ")")
    (m_pConnection st) (m_pSession st).

(** [setError(message)] (417-430). *)
Definition setError (st : BridgeState) (message : string) : BridgeState :=
  mkBridgeState (m_initialized st) (m_comInitialized st) E_FAIL
    (message ++ " (HRESULT: 0x" ++ hex8 E_FAIL ++ ")")
    (m_pConnection st) (m_pSession st).

(** [formatHResult] (440-469). *)
Definition formatHResult (h : Host) (hr : Z) : string :=
  "0x" ++ hex8 hr
  ++ match system_message h hr with
     | Some utf8Msg => " (" ++ utf8Msg ++ ")"
     | None => EmptyString
     end.

(** [getSupportedFormats] (566-568). *)
Definition getSupportedFormats : list string :=
  [".png"; ".jpg"; ".jpeg"; ".bmp"].

(** [isFormatSupported] (546-564). *)
Definition isFormatSupported (extension : string) : bool :=
  let ext :=
    match extension with
    | EmptyString => extension
    | String c _ => if negb (char_is 46 c) then "." ++ extension else extension
    end in
  let ext := transform_tolower ext in
  existsb (String.eqb ext) getSupportedFormats.

(** [validateImageFile] (471-544), with its own list of formats. *)
Definition validateImageFile (h : Host) (st : BridgeState) (path : string)
  : bool * BridgeState :=
  if string_empty path then (false, setError st "Image file path is empty")
  else
    match fs_exists h path with
    | inr ec =>
        (false, setError st
                  ("Error checking file existence: " ++ path ++ " (" ++ ec ++ ")"))
    | inl false => (false, setError st ("Image file not found: " ++ path))
    | inl true =>
        match fs_is_regular_file h path with
        | inr ec =>
            (false, setError st
                      ("Error checking file type: " ++ path ++ " (" ++ ec ++ ")"))
        | inl false =>
            (false, setError st ("Path is not a regular file: " ++ path))
        | inl true =>
            let ext := transform_tolower (fs_extension h path) in
            let supportedFormats := [".png"; ".jpg"; ".jpeg"; ".bmp"] in
            if negb (existsb (String.eqb ext) supportedFormats) then
              (false, setError st
                        ("Unsupported image format: " ++ ext
                         ++ " (supported: PNG, JPG, BMP). File: " ++ path))
            else
              match fs_file_size h path with
              | inr ec =>
                  (false, setError st
                            ("Error getting file size: " ++ path
                             ++ " (" ++ ec ++ ")"))
              | inl fileSize =>
                  if fileSize =? 0 then
                    (false, setError st
                              ("Image file is empty (0 bytes): " ++ path))
                  else (true, st)
              end
        end
    end.

(** [CreoVBAPIFactory::CreateOutline2D] (77-92), called with the address
    of a local pointer: it clears the pointer and answers [E_NOTIMPL] in
    both branches of the conditional compilation. *)
Definition CreateOutline2D (h : Host) (x1 y1 x2 y2 : float)
  : Z * option (IpfcOutline2D h) :=
  (E_NOTIMPL, None).

(** [insertImage] (570-691): the value returned and the bridge state
    afterwards. *)
Definition insertImage (h : Host) (st : BridgeState) (imagePath : string)
    (x y width height : float) : bool * BridgeState :=
  if string_empty imagePath then
    (false, setError st "Image path cannot be empty")
  else if (width <? 0)%float || (height <? 0)%float then
    (false, setError st
              ("Image dimensions cannot be negative (width: "
               ++ to_string h width ++ ", height: " ++ to_string h height ++ ")"))
  else
    let '(valid, st) := validateImageFile h st imagePath in
    if negb valid then (false, st)
    else if negb (m_initialized st) then
      (false, setError st "COM bridge not initialized - call initialize() first")
    else
      let '(pDrawing, st) := getCurrentDrawing h st in
      match pDrawing with
      | None => (false, st)
      | Some drawing =>
          let wImagePath := utf8ToWstring h imagePath in
          match stringToBSTR h wImagePath with
          | None => (false, setError st "Failed to convert image path to BSTR")
          | Some bstrImagePath =>
              let actualWidth := if (0 <? width)%float then width else 50%float in
              let actualHeight := if (0 <? height)%float then height else 50%float in
              let x1 := x in
              let y1 := y in
              let x2 := (x + actualWidth)%float in
              let y2 := (y + actualHeight)%float in
              let '(hr, pOutline) := CreateOutline2D h x1 y1 x2 y2 in
              match (if FAILED hr then None else pOutline) with
              | None =>
                  if hr =? E_NOTIMPL then
                    (false, setError_hr h st hr
                              "CreateOutline2D not implemented - Creo type library required")
                  else
                    (false, setError_hr h st hr
                              "Failed to create outline for image bounds")
              | Some outline =>
                  let '(hr, pImage) :=
                    CreateDraftingImage h drawing bstrImagePath outline in
                  if FAILED hr then
                    (false, setError_hr h st hr
                              "Failed to create drafting image in drawing")
                  else if negb pImage then
                    (false, setError st
                              "CreateDraftingImage returned null image pointer")
                  else (true, st)
              end
          end
      end.

(** What a refusal through [setError(message)] leaves of a bridge
    [st]: [E_FAIL], a message that ends in that code, and the other
    members as they were. *)
Definition failed_with (st st' : BridgeState) : Prop :=
  m_lastHResult st' = E_FAIL
  /\ (exists msg, m_lastError st' = msg ++ " (HRESULT: 0x80004005)")
  /\ m_initialized st' = m_initialized st
  /\ m_comInitialized st' = m_comInitialized st
  /\ m_pConnection st' = m_pConnection st
  /\ m_pSession st' = m_pSession st.

(** The bridge the batch operations run on: the singleton with the
    members above. *)
Definition bridge (h : Host) : CreoComBridge.Bridge BridgeState :=
  CreoComBridge.mkBridge BridgeState (insertImage h) m_lastError.

End CreoComBridgeCore.

(** ** The C interface (include/barcode_c_api.h, barcode_c_api.cpp)

    A pointer argument is [None] when null.  A [const char*] that is not
    null is read up to its first NUL ([PureC.c_str]); an array is the
    list of its elements, of which the first [count] are read. *)

Module CApi.

Import BarcodeGenerator CreoComBridge.

Record BarcodeConfigC : Set := mkBarcodeConfigC {
  c_type : Z;
  c_width : Z;
  c_height : Z;
  c_margin : Z;
  c_showText : Z;
  c_dpi : Z
}.

Record BatchInsertResultC : Set := mkBatchInsertResultC {
  c_totalCount : Z;
  c_successCount : Z;
  c_failCount : Z
}.

(** [toCppType] (32-41) on the value of the C enumeration. *)
Definition toCppType (t : Z) : BarcodeType :=
  if t =? 0 then CODE_128
  else if t =? 1 then CODE_39
  else if t =? 2 then QR_CODE
  else if t =? 3 then DATA_MATRIX
  else if t =? 4 then EAN_13
  else CODE_128.

(** The copy of a [BarcodeConfigC] into a [BarcodeConfig] (107-113). *)
Definition toCppConfig (cfg : BarcodeConfigC) : BarcodeConfig :=
  mkConfig (toCppType (c_type cfg)) (c_width cfg) (c_height cfg) (c_margin cfg)
    (negb (c_showText cfg =? 0)) (c_dpi cfg).

(** [barcode_generate] (75-132).  [g_generator] is [None] before the
    generator exists, and holds its [lastError_] afterwards.  The value
    returned, [g_generator], [g_lastError] and the calls made on the
    generator's collaborators. *)
Definition barcode_generate (env : Collaborators)
    (g_generator : option ErrorInfo) (g_lastError : string)
    (data : option string) (cfg : option BarcodeConfigC)
    (outputPath : option string)
  : Z * option ErrorInfo * string * list Event :=
  match data, cfg, outputPath with
  | Some data, Some cfg, Some outputPath =>
      if string_empty (PureC.c_str data) then
        (-1, g_generator, "Invalid parameters: empty data string", [])
      else if string_empty (PureC.c_str outputPath) then
        (-1, g_generator, "Invalid parameters: empty output path", [])
      else
        let lastError0 :=
          match g_generator with
          | Some e => e
          | None => mkErrorInfo SUCCESS EmptyString EmptyString
          end in
        let out :=
          generate env lastError0 (PureC.c_str data) (toCppConfig cfg)
            (PureC.c_str outputPath) in
        if returned out then (0, Some (lastError_ out), g_lastError, events out)
        else (-1, Some (lastError_ out), message (lastError_ out), events out)
  | _, _, _ => (-1, g_generator, "Invalid parameters: null pointer", [])
  end.

(** [barcode_decode] (134-154): the value returned, the C string left in
    the buffer if it was written, [g_lastError] and the generator's
    [lastError_].  [g_generator] is as in [barcode_generate]. *)
Definition barcode_decode (rd : GeneratorUtil.Reader)
    (g_generator : option ErrorInfo) (g_lastError : string)
    (imagePath : option string) (outputBuffer : bool) (bufferSize : Z)
  : Z * option string * string * option ErrorInfo :=
  match g_generator, imagePath with
  | Some lastError0, Some imagePath =>
      if negb outputBuffer || (bufferSize <=? 0) then
        (-1, None, "Invalid parameters or module not initialized", g_generator)
      else
        match GeneratorUtil.decode rd lastError0 (PureC.c_str imagePath) with
        | (Some text, e) =>
            (0,
             Some (substring 0 (Z.to_nat (Int32.sub bufferSize 1)) (PureC.c_str text)),
             g_lastError, Some e)
        | (None, e) => (-1, None, message e, Some e)
        end
  | _, _ => (-1, None, "Invalid parameters or module not initialized", g_generator)
  end.

(** [sync_check] (205-221); [initialized] tells whether both
    [g_syncChecker] and [g_generator] exist. *)
Definition sync_check (initialized : bool) (g_lastError : string)
    (partName barcodeData : option string) : Z * string :=
  match partName, barcodeData with
  | Some partName, Some barcodeData =>
      if negb initialized then
        (-1, "Invalid parameters or module not initialized")
      else if DataSyncChecker.compareData (PureC.c_str partName)
                (PureC.c_str barcodeData)
      then (1, g_lastError)
      else (0, g_lastError)
  | _, _ => (-1, "Invalid parameters or module not initialized")
  end.

(** [barcode_insert_image] (354-374): the value returned,
    [g_comBridgeLastError] and the bridge afterwards. *)
Definition barcode_insert_image {St} (b : Bridge St) (st : St)
    (g_comBridgeLastError : string) (imagePath : option string)
    (x y width height : float) : Z * string * St :=
  match imagePath with
  | None => (-1, "Image path is null", st)
  | Some imagePath =>
      let '(ok, st') := insertImage b st (PureC.c_str imagePath) x y width height in
      if ok then (0, EmptyString, st') else (-1, m_lastError b st', st')
  end.

(** The last element of a vector that is not empty ([back()]). *)
Definition back (l : list string) : string := last l EmptyString.

(** What both batch wrappers do with the result of the bridge (415-429,
    478-492): the value returned, the structure behind [result] if the
    pointer is set, and [g_comBridgeLastError]. *)
Definition copy_results (batchResult : BatchInsertResult) (result : bool)
  : Z * option BatchInsertResultC * string :=
  (successCount batchResult,
   (if result then
      Some (mkBatchInsertResultC (totalCount batchResult)
              (successCount batchResult) (failCount batchResult))
    else None),
   (if (0 <? failCount batchResult)
       && negb (match errorMessages batchResult with [] => true | _ => false end)
    then back (errorMessages batchResult)
    else EmptyString)).

(** The loop of [barcode_batch_insert_images] (398-410) from index [i]
    on, over the entries of [imagePaths] still to read. *)
Fixpoint collect_images (imagePaths : list (option string))
    (positions : list float) (i : Z) (width height : float)
  : list BatchImageInfo :=
  match imagePaths with
  | [] => []
  | None :: rest => collect_images rest positions (i + 1) width height
  | Some path :: rest =>
      mkBatchImageInfo (PureC.c_str path)
        (nth (Z.to_nat (Int32.mul i 2)) positions 0%float)
        (nth (Z.to_nat (Int32.add (Int32.mul i 2) 1)) positions 0%float)
        width height
      :: collect_images rest positions (i + 1) width height
  end.

(** [barcode_batch_insert_images] (376-435): the value returned, the
    structure behind [result], [g_comBridgeLastError], the bridge
    afterwards and the calls of [insertImage]. *)
Definition barcode_batch_insert_images {St} (b : Bridge St) (st : St)
    (g_comBridgeLastError : string)
    (imagePaths : option (list (option string)))
    (positions : option (list float)) (count : Z) (width height : float)
    (result : bool)
  : Z * option BatchInsertResultC * string * St * list InsertCall :=
  let initial :=
    if result then Some (mkBatchInsertResultC count 0 0) else None in
  match imagePaths, positions with
  | Some imagePaths, Some positions =>
      if count <=? 0 then
        (0, initial, "Invalid parameters for batch insert", st, [])
      else
        let images :=
          collect_images (firstn (Z.to_nat count) imagePaths) positions 0
            width height in
        let '(batchResult, st', calls) := batchInsertImages b st images in
        let '(ret, res, err) := copy_results batchResult result in
        (ret, res, err, st', calls)
  | _, _ => (0, initial, "Invalid parameters for batch insert", st, [])
  end.

(** The loop of [barcode_batch_insert_images_grid] (460-464). *)
Fixpoint collect_paths (imagePaths : list (option string)) : list string :=
  match imagePaths with
  | [] => []
  | None :: rest => collect_paths rest
  | Some path :: rest => PureC.c_str path :: collect_paths rest
  end.

(** [barcode_batch_insert_images_grid] (437-498). *)
Definition barcode_batch_insert_images_grid {St} (b : Bridge St) (st : St)
    (g_comBridgeLastError : string)
    (imagePaths : option (list (option string))) (count : Z)
    (startX startY width height : float) (columns : Z) (spacing : float)
    (result : bool)
  : Z * option BatchInsertResultC * string * St * list InsertCall :=
  let initial :=
    if result then Some (mkBatchInsertResultC count 0 0) else None in
  match imagePaths with
  | Some imagePaths =>
      if count <=? 0 then
        (0, initial, "Invalid parameters for grid batch insert", st, [])
      else
        let paths := collect_paths (firstn (Z.to_nat count) imagePaths) in
        let params :=
          mkGridLayoutParams startX startY width height
            (if 0 <? columns then columns else 1) spacing in
        let '(batchResult, st', calls) := batchInsertImagesGrid b st paths params in
        let '(ret, res, err) := copy_results batchResult result in
        (ret, res, err, st', calls)
  | None => (0, initial, "Invalid parameters for grid batch insert", st, [])
  end.

(** [barcode_insert_image_with_fallback] (504-548): the value returned,
    what is left behind [usedFallback] if the pointer is set,
    [g_comBridgeLastError] and the bridge afterwards.  [isInitialized]
    reads [m_initialized]. *)
Definition barcode_insert_image_with_fallback {St} (b : Bridge St)
    (isInitialized : St -> bool) (st : St) (g_comBridgeLastError : string)
    (imagePath : option string) (x y width height : float)
    (partName : option string) (usedFallback : bool)
  : Z * option Z * string * St :=
  match imagePath with
  | None =>
      (-1, (if usedFallback then Some 0 else None), "Image path is null", st)
  | Some imagePath =>
      if isInitialized st then
        let '(ok, st') :=
          insertImage b st (PureC.c_str imagePath) x y width height in
        if ok then
          (0, (if usedFallback then Some 0 else None), EmptyString, st')
        else
          (1, (if usedFallback then Some 1 else None), m_lastError b st', st')
      else
        (1, (if usedFallback then Some 1 else None),
         "COM bridge not initialized", st)
  end.

(** [com_bridge_is_initialized] (348-352). *)
Definition com_bridge_is_initialized : Z := 0.

End CApi.

(** ** Concrete worlds for the code around the core *)

(** A reader that loads a one-pixel image from any path and reads the
    escaped form of a backslash followed by the byte 7 off it. *)
Definition escaped_name : string :=
  String Char.backslash (String (Char.chr 7) EmptyString).

Definition escaped_reader : GeneratorUtil.Reader :=
  GeneratorUtil.mkReader
    (fun _ _ => Some ([0], 1, 1, 1))
    (fun _ _ _ => inl (true, Codec.encodeSpecialChars escaped_name)).


(** A host in which every file is a non-empty PNG, a drawing is open,
    and the system has no text for any code. *)
Definition friendly_host : CreoComBridgeCore.Host :=
  CreoComBridgeCore.mkHost unit unit
    (fun _ => inl true) (fun _ => inl true) (fun _ => ".PNG")
    (fun _ => inl 1024) (fun _ => []) (fun _ => EmptyString)
    (fun _ => [112]) (fun _ => true) (fun _ => "0.000000")
    (fun st => (Some tt, st)) (fun _ _ _ => (0, true)).

Definition bridge_ready : CreoComBridgeCore.BridgeState :=
  CreoComBridgeCore.mkBridgeState true true 0 EmptyString true true.

(** ** The vocabulary of the properties of the code around the core *)

(** The summary of a list of results in the words of its format: the
    title and its rule, the number of results, of successes and of
    failures, each on a line, and then, when some result failed, an empty
    line, the heading and one line "  - path: message" for each failed
    result, in the order of the results. *)
Definition summary_text (results : list BatchProcessor.BatchResult) : string :=
  let failures :=
    filter (fun r => negb (BatchProcessor.success r)) results in
  "Batch Processing Summary" ++ BatchQueue.nl
  ++ "========================" ++ BatchQueue.nl
  ++ "Total files: " ++ BatchQueue.dec (Z.of_nat (List.length results))
  ++ BatchQueue.nl
  ++ "Successful: "
  ++ BatchQueue.dec
       (Z.of_nat (List.length (filter BatchProcessor.success results)))
  ++ BatchQueue.nl
  ++ "Failed: " ++ BatchQueue.dec (Z.of_nat (List.length failures))
  ++ BatchQueue.nl
  ++ match failures with
     | [] => EmptyString
     | _ =>
         BatchQueue.nl ++ "Failure details:" ++ BatchQueue.nl
         ++ fold_right append EmptyString
              (map (fun r =>
                      "  - " ++ BatchProcessor.filePath r ++ ": "
                      ++ BatchProcessor.errorMessage r ++ BatchQueue.nl)
                 failures)
     end.

(** The entries of an array of paths that are not null, in order, each
    read as a C string. *)
Definition present_paths (imagePaths : list (option string)) : list string :=
  flat_map (fun entry =>
              match entry with
              | Some path => [PureC.c_str path]
              | None => []
              end)
    imagePaths.

(** The requests for the entries of an array of paths that are not null,
    in order: the entry of index [j] is to be placed at the coordinates
    read at [2 j] and [2 j + 1] of [positions], with the size given. *)
Definition positioned_requests (imagePaths : list (option string))
    (positions : list float) (width height : float)
  : list CreoComBridge.BatchImageInfo :=
  flat_map (fun '(j, entry) =>
              match entry with
              | Some path =>
                  [CreoComBridge.mkBatchImageInfo (PureC.c_str path)
                     (nth (2 * j) positions 0%float)
                     (nth (2 * j + 1) positions 0%float)
                     width height]
              | None => []
              end)
    (combine (seq 0 (List.length imagePaths)) imagePaths).

(** ** The vocabulary of the specification

    The notions the specification words its claims in, each written from
    the specification and compared with the model in Part II. *)

Section Vocabulary.

Import Char.


(** The Code 39 alphabet in the words of the specification: an
    upper-case letter, a digit, or one of space - . $ / + %. *)
Definition code39_allowed (c : ascii) : bool :=
  isupper c || isdigit c
  || char_is 32 c || char_is 45 c || char_is 46 c || char_is 36 c
  || char_is 47 c || char_is 43 c || char_is 37 c.

(** The subset-B value of a character in the words of the
    specification, on the unsigned character code. *)
Definition value_spec (c : ascii) : Z :=
  if between 32 127 c then ord c - 32 else 0.

(** The weighted sum of the values of [s], the first character having
    position [i]. *)
Fixpoint weighted_sum (i : Z) (s : string) : Z :=
  match s with
  | EmptyString => 0
  | String c r => value_spec c * i + weighted_sum (i + 1) r
  end.

(** The modules of a pattern from left to right, bar ([true]) or space:
    run after run, each of as many modules as its digit says, starting
    with a bar when [bar] holds and alternating. *)
Fixpoint pattern_bars (pat : string) (bar : bool) : list bool :=
  match pat with
  | EmptyString => []
  | String c r =>
      (repeat bar (Z.to_nat (ord c - 48)) ++ pattern_bars r (negb bar))%list
  end.

(** The modules of a sequence of symbols. *)
Definition symbols_bars (symbols : list Z) : list bool :=
  flat_map (fun s =>
              pattern_bars
                (nth (Z.to_nat s) PureC.CODE128_PATTERNS EmptyString) true)
    symbols.

(** The byte at offset [o] of the pixel buffer belongs to a bar of
    [bars] laid out from the column [start]: it is one of the three bytes
    of a pixel (x, y) whose row lies between the top and bottom margins
    and whose column lies in module [j] of [bars], with module [j] a
    bar. *)
Definition painted_from (cv : PureC.Canvas) (start : Z) (bars : list bool)
    (o : Z) : Prop :=
  exists x y k j r,
    o = y * PureC.cv_rowSize cv + 3 * x + k /\ 0 <= k < 3
    /\ PureC.cv_margin cv <= y < PureC.cv_height cv - PureC.cv_margin cv
    /\ x = start + PureC.cv_moduleWidth cv * j + r
    /\ 0 <= r < PureC.cv_moduleWidth cv
    /\ 0 <= j /\ nth (Z.to_nat j) bars false = true.

(** The same with the modules counted from the left margin. *)
Definition painted (cv : PureC.Canvas) (bars : list bool) (o : Z) : Prop :=
  painted_from cv (PureC.cv_margin cv) bars o.

(** The Code 128 symbols of [data] in the words of the specification:
    START-B, the value of each character, the checksum under the start
    value 104, and STOP. *)
Definition code128_symbols (data : string) : list Z :=
  (104 :: map value_spec (list_ascii_of_string data)
       ++ [(104 + weighted_sum 1 data) mod 103; 106])%list.

End Vocabulary.

Section BatchVocabulary.

Import CreoComBridge BatchProcessor.

Definition call_failed (c : InsertCall) : bool := negb (call_ok c).

(** The summary a log of [insertImage] calls stands for: the successes
    and failures counted, and the path and error of every failure, in
    order. *)
Definition summary_of (total : Z) (calls : list InsertCall)
  : BatchInsertResult :=
  mkBatchInsertResult total
    (Z.of_nat (List.length (filter call_ok calls)))
    (Z.of_nat (List.length (filter call_failed calls)))
    (map call_path (filter call_failed calls))
    (map call_error (filter call_failed calls)).

(** The aggregation invariant of the specification for [n] inputs. *)
Definition aggregated (n : nat) (r : BatchInsertResult) : Prop :=
  totalCount r = Z.of_nat n
  /\ successCount r + failCount r = totalCount r
  /\ Z.of_nat (List.length (failedPaths r)) = failCount r
  /\ Z.of_nat (List.length (errorMessages r)) = failCount r.

(** The answers of a bridge to a list of requests made one after the
    other, each on the state the request before it left, whatever that
    one answered: the calls with their answers, and the state after the
    last. *)
Fixpoint answers {St} (b : Bridge St) (st : St) (requests : list BatchImageInfo)
  : list InsertCall * St :=
  match requests with
  | [] => ([], st)
  | r :: rest =>
      let '(ok, st1) :=
        insertImage b st (imagePath r) (img_x r) (img_y r)
          (img_width r) (img_height r) in
      let '(calls, st2) := answers b st1 rest in
      (mkInsertCall (imagePath r) (img_x r) (img_y r)
         (img_width r) (img_height r) ok (m_lastError b st1) :: calls,
       st2)
  end.

(** The requests of a grid batch: the path of index [k], from 0, at the
    cell of index [k], with the cell size of the layout. *)
Definition grid_requests (imagePaths : list string) (params : GridLayoutParams)
  : list BatchImageInfo :=
  map (fun '(k, path) =>
         let pos :=
           calculateGridPosition (Z.of_nat k) (columns params) (spacing params)
             (startX params) (startY params)
             (cell_width params) (cell_height params) in
         mkBatchImageInfo path (x pos) (y pos)
           (cell_width params) (cell_height params))
    (combine (seq 0 (List.length imagePaths)) imagePaths).

(** The progress reports expected for [n] items counted from [current]
    on: (current + 1, total), ..., (current + n, total). *)
Definition progress_reports (current total : Z) (n : nat) : list (Z * Z) :=
  map (fun k => (current + Z.of_nat k, total)) (seq 1 n).

(** A result is well formed when its message is empty on success and
    "File not found" on failure. *)
Definition result_shape (r : BatchResult) : Prop :=
  errorMessage r = if success r then EmptyString else "File not found".

(** The result for one file taken alone, in the world [w]. *)
Definition result_for {W} (fs : FileSystem W) (w : W) (path : string)
  : BatchResult :=
  if ifstream_good fs w path then mkBatchResult path true EmptyString
  else mkBatchResult path false "File not found".

(** The world after [k] invocations of the callback, made with current
    = c + 1, ..., c + k and the given total, from the world [w]. *)
Definition world_from {W} (cb : option (ProgressCallback W)) (total : Z)
    (c k : nat) (w : W) : W :=
  match cb with
  | Some f => fold_left (fun w j => f (Z.of_nat j) total w) (seq (S c) k) w
  | None => w
  end.

(** The world after the first [k] invocations of the callback, made
    with current = 1, ..., k and the given total, from the world [w]. *)
Definition world_after {W} (cb : option (ProgressCallback W)) (total : Z)
    (k : nat) (w : W) : W :=
  world_from cb total 0 k w.

(** A callback is quiet when it never changes which files open; no
    callback at all is quiet. *)
Definition quiet {W} (fs : FileSystem W)
    (cb : option (ProgressCallback W)) : Prop :=
  match cb with
  | Some f =>
      forall (c t : Z) (w : W) (path : string),
        ifstream_good fs (f c t w) path = ifstream_good fs w path
  | None => True
  end.

End BatchVocabulary.

(** ** Concrete worlds, for the examples of Part II *)

(** A concrete world for the generator: a writer that answers a 2 by 2
    checkerboard for any request, and a PNG writer that succeeds. *)
Definition checker_writer : BarcodeGenerator.Collaborators :=
  BarcodeGenerator.mkCollaborators
    (fun _ _ _ _ => inl (BarcodeGenerator.mkBitMatrix 2 2 (fun x y => Z.eqb x y)))
    (fun _ _ _ _ _ _ => true).

Definition no_error : ErrorInfo := mkErrorInfo SUCCESS EmptyString EmptyString.

(** A C runtime in which allocation and file creation succeed. *)
Definition runtime_ok : PureC.Runtime :=
  PureC.mkRuntime (fun _ => true) (fun _ => true).

Definition string_of_As (n : nat) : string :=
  string_of_list_ascii (repeat "A"%char n).

Definition png_4x3 : BarcodeConfig := mkConfig CODE_128 4 3 0 false 300.

(** A bridge whose host accepts a path unless it is empty; its state is
    the last error text. *)
Definition picky_bridge : CreoComBridge.Bridge string :=
  CreoComBridge.mkBridge string
    (fun st path _ _ _ _ =>
       if string_empty path then (false, "Image path cannot be empty")
       else (true, st))
    (fun st => st).

Definition grid_3 : CreoComBridge.GridLayoutParams :=
  CreoComBridge.mkGridLayoutParams 0 0 50 50 3 10.

(** A world that is the set of existing files; the callback of the
    example leaves it alone. *)
Definition listed_files : BatchProcessor.FileSystem (list string) :=
  BatchProcessor.mkFileSystem (list string)
    (fun files path => existsb (String.eqb path) files).

(** A callback that creates the file "late.drw" when it reports the
    second item. *)
Definition late_file : BatchProcessor.ProgressCallback (list string) :=
  fun current total files =>
    if current =? 2 then ("late.drw" :: files)%list else files.

(** ** Proof automation *)

(** Every property of one character is settled by running through the
    256 of them. *)
Ltac each_char c :=
  destruct c as [[] [] [] [] [] [] [] []].

(* ================================================================== *)
(** * Part II.  The properties                                         *)
(* ================================================================== *)

(** ** Machine integers *)

Lemma wrap_small (z : Z) :
  Int32.INT_MIN <= z <= Int32.INT_MAX -> Int32.wrap z = z.
Proof.
  unfold Int32.INT_MIN, Int32.INT_MAX, Int32.wrap; intros H.
  rewrite Z.mod_small; lia.
Qed.

Lemma of_size_small (n : nat) :
  Z.of_nat n <= Int32.INT_MAX -> Int32.of_size n = Z.of_nat n.
Proof.
  intros H; unfold Int32.of_size; apply wrap_small.
  unfold Int32.INT_MIN; lia.
Qed.

(** ** Characters and strings *)

Lemma string_forallb_app (p : ascii -> bool) (s t : string) :
  string_forallb p (s ++ t) = string_forallb p s && string_forallb p t.
Proof.
  induction s as [|c s IH]; simpl; [reflexivity|].
  now rewrite IH, andb_assoc.
Qed.

Lemma string_app_assoc (s t u : string) : ((s ++ t) ++ u = s ++ (t ++ u))%string.
Proof.
  induction s as [|c s IH]; simpl; [reflexivity | now rewrite IH].
Qed.

Lemma string_app_nil_r (s : string) : (s ++ EmptyString)%string = s.
Proof. induction s as [|c s IH]; simpl; [reflexivity | now rewrite IH]. Qed.

Lemma string_length_app (s t : string) :
  String.length (s ++ t) = (String.length s + String.length t)%nat.
Proof. induction s as [|c s IH]; simpl; [reflexivity | now rewrite IH]. Qed.

(** Reading at and after the end of a prefix. *)
Lemma char_at_app (pre : string) (k : nat) (s : string) :
  Codec.char_at (pre ++ s) (String.length pre + k) = Codec.char_at s k.
Proof.
  unfold Codec.char_at; induction pre as [|c pre IH]; simpl; [reflexivity | exact IH].
Qed.

Lemma char_at_app_0 (pre s : string) :
  Codec.char_at (pre ++ s) (String.length pre) = Codec.char_at s 0.
Proof. rewrite <- (char_at_app pre 0 s); now rewrite Nat.add_0_r. Qed.

Lemma substring_app (pre : string) (k m : nat) (s : string) :
  substring (String.length pre + k) m (pre ++ s) = substring k m s.
Proof. induction pre as [|c pre IH]; simpl; [reflexivity | exact IH]. Qed.

Lemma ord_range (c : ascii) : 0 <= Char.ord c <= 255.
Proof. each_char c; vm_compute; split; discriminate. Qed.

(** ** The special-character codec *)

Section CodecProofs.

Import Char Codec.


Lemma encode_char_printable (c : ascii) :
  string_forallb (between 32 126) (encode_char c) = true.
Proof. each_char c; reflexivity. Qed.

(** The loop computes the recursion on the unread text. *)
Lemma decode_loop_suffix (fuel : nat) :
  forall (pre s decoded : string),
    (String.length s <= fuel)%nat ->
    decode_loop fuel (pre ++ s) (String.length pre) decoded
    = (decoded ++ decode_suffix s)%string.
Proof.
  induction fuel as [|fuel IH]; intros pre s decoded Hfuel.
  - destruct s; [|simpl in Hfuel; lia].
    simpl; now rewrite string_app_nil_r.
  - cbn [decode_loop].
    rewrite string_length_app.
    destruct s as [|c rest].
    + simpl String.length; rewrite Nat.add_0_r, Nat.ltb_irrefl.
      simpl; now rewrite string_app_nil_r.
    + assert (Hadv : forall (used left acc : string),
                 (String c rest = used ++ left)%string ->
                 (String.length left <= fuel)%nat ->
                 decode_loop fuel (pre ++ String c rest)
                   (String.length pre + String.length used) acc
                 = (acc ++ decode_suffix left)%string).
      { intros used left acc E Hl.
        rewrite E, <- string_app_assoc, <- string_length_app.
        apply IH; exact Hl. }
      replace (String.length pre <? String.length pre + String.length (String c rest))%nat
        with true by (symmetry; apply Nat.ltb_lt; simpl; lia).
      rewrite !char_at_app_0, !char_at_app.
      change (char_at (String c rest) 0) with c.
      cbn [decode_suffix]; cbv zeta.
      assert (Hkeep : decode_loop fuel (pre ++ String c rest)
                        (String.length pre + 1) (decoded ++ String c EmptyString)
                      = (decoded ++ String c (decode_suffix rest))%string).
      { rewrite (Hadv (String c EmptyString) rest) by (simpl in *; reflexivity || lia).
        now rewrite string_app_assoc. }
      destruct (char_is 92 c); cbn [andb]; [|exact Hkeep].
      destruct rest as [|c1 rest1].
      { replace (String.length pre + 1 <? _)%nat with false
          by (symmetry; apply Nat.ltb_ge; simpl; lia).
        exact Hkeep. }
      replace (String.length pre + 1 <? _)%nat with true
        by (symmetry; apply Nat.ltb_lt; simpl; lia).
      change (char_at (String c (String c1 rest1)) 1) with c1.
      destruct (char_is 92 c1).
      { rewrite (Hadv (String c (String c1 EmptyString)) rest1)
          by (simpl in *; reflexivity || lia).
        now rewrite string_app_assoc. }
      destruct (char_is 120 c1); cbn [andb]; [|exact Hkeep].
      destruct rest1 as [|h1 [|h2 rest2]].
      { replace (String.length pre + 3 <? _)%nat with false
          by (symmetry; apply Nat.ltb_ge; simpl; lia).
        exact Hkeep. }
      { replace (String.length pre + 3 <? _)%nat with false
          by (symmetry; apply Nat.ltb_ge; simpl; lia).
        exact Hkeep. }
      replace (String.length pre + 3 <? _)%nat with true
        by (symmetry; apply Nat.ltb_lt; simpl; lia).
      rewrite substring_app.
      change (substring 2 2 (String c (String c1 (String h1 (String h2 rest2)))))
        with (substring 0 2 (String h1 (String h2 rest2))).
      change (substring 0 2 (String h1 (String h2 rest2)))
        with (String h1 (String h2 (substring 0 0 rest2))).
      replace (substring 0 0 rest2) with EmptyString by (now destruct rest2).
      destruct (stoi16 (String h1 (String h2 EmptyString))) as [value|];
        [|exact Hkeep].
      rewrite (Hadv (String c (String c1 (String h1 (String h2 EmptyString)))) rest2)
        by (simpl in *; reflexivity || lia).
      now rewrite string_app_assoc.
Qed.

Lemma decodeSpecialChars_unfold (input : string) :
  decodeSpecialChars input = decode_suffix input.
Proof.
  unfold decodeSpecialChars.
  apply (decode_loop_suffix (String.length input) EmptyString input EmptyString).
  apply Nat.le_refl.
Qed.

(** Decoding consumes exactly the encoding of one byte and yields it. *)
Lemma decode_encode_char (c : ascii) (rest : string) :
  decode_suffix (encode_char c ++ rest) = String c (decode_suffix rest).
Proof. each_char c; reflexivity. Qed.

Lemma decode_encode (x : string) :
  decodeSpecialChars (encodeSpecialChars x) = x.
Proof.
  rewrite decodeSpecialChars_unfold.
  induction x as [|c x IH]; [reflexivity|].
  cbn [encodeSpecialChars].
  now rewrite decode_encode_char, IH.
Qed.

Lemma encode_printable (x : string) :
  string_forallb (between 32 126) (encodeSpecialChars x) = true.
Proof.
  induction x as [|c x IH]; [reflexivity|].
  cbn [encodeSpecialChars].
  now rewrite string_forallb_app, encode_char_printable, IH.
Qed.


(** Printable text without a backslash is left as it is (the cases of
    the repository's unit tests). *)
Example encode_plain_text :
  encodeSpecialChars "TEST123" = "TEST123"
  /\ encodeSpecialChars "Hello World" = "Hello World".
Proof. split; reflexivity. Qed.

(** The scenario of the specification: A, the byte 1, B, a backslash, C. *)
Example encode_scenario :
  let s := String "A" (String (chr 1) (String "B" (String backslash "C"))) in
  encodeSpecialChars s
  = String "A" (String backslash
      (String "x" (String "0" (String "1" (String "B"
        (String backslash (String backslash "C")))))))
  /\ decodeSpecialChars (encodeSpecialChars s) = s.
Proof. split; reflexivity. Qed.

(** The lenient arms of the decoder that behave as documented: a
    trailing backslash, an escape that is neither a backslash nor an x, an
    x with fewer than two characters after it, and an x followed by two
    characters of which [std::stoi] reads nothing. *)

Lemma decode_trailing_backslash :
  decodeSpecialChars (String backslash EmptyString)
  = String backslash EmptyString.
Proof. reflexivity. Qed.

Lemma decode_unknown_escape (c1 : ascii) (rest : string) :
  char_is 92 c1 = false -> char_is 120 c1 = false ->
  decode_suffix (String backslash (String c1 rest))
  = String backslash (decode_suffix (String c1 rest)).
Proof.
  intros H1 H2.
  change (decode_suffix (String backslash (String c1 rest)))
    with (if char_is 92 c1 then String backslash (decode_suffix rest)
          else if char_is 120 c1 then
            match rest with
            | String h1 (String h2 rest2) =>
                match stoi16 (String h1 (String h2 EmptyString)) with
                | Some value => String (chr value) (decode_suffix rest2)
                | None => String backslash (decode_suffix (String c1 rest))
                end
            | _ => String backslash (decode_suffix (String c1 rest))
            end
          else String backslash (decode_suffix (String c1 rest))).
  now rewrite H1, H2.
Qed.

Lemma decode_short_hex_escape (rest : string) :
  (String.length rest < 2)%nat ->
  decode_suffix (String backslash (String letter_x rest))
  = String backslash (decode_suffix (String letter_x rest)).
Proof.
  destruct rest as [|h1 [|h2 rest]]; cbn [String.length]; intros H;
    try lia; reflexivity.
Qed.

Lemma decode_hex_escape (h1 h2 : ascii) (rest : string) :
  decode_suffix (String backslash (String letter_x (String h1 (String h2 rest))))
  = match stoi16 (String h1 (String h2 EmptyString)) with
    | Some value => String (chr value) (decode_suffix rest)
    | None =>
        String backslash
          (decode_suffix (String letter_x (String h1 (String h2 rest))))
    end.
Proof. reflexivity. Qed.

(** What [std::stoi] makes of the two characters after the x: both are
    read when both are digits, the first alone when only it is one, and
    nothing, with an exception, when neither is one. *)
Lemma hex_value_facts (c : ascii) (d : Z) :
  hex_value c = Some d ->
  isspace c = false /\ char_is 45 c = false /\ char_is 43 c = false
  /\ 0 <= d <= 15.
Proof.
  each_char c; try discriminate; intros E; injection E as <-;
    vm_compute; repeat split; discriminate.
Qed.

Lemma stoi16_in_range (v : Z) :
  0 <= v <= 255 ->
  (Int32.INT_MIN <=? v) && (v <=? Int32.INT_MAX) = true.
Proof.
  intros H; unfold Int32.INT_MIN, Int32.INT_MAX.
  apply andb_true_iff; split; apply Z.leb_le; lia.
Qed.

Lemma stoi16_two_digits (h1 h2 : ascii) (d1 d2 : Z) :
  hex_value h1 = Some d1 -> hex_value h2 = Some d2 ->
  stoi16 (String h1 (String h2 EmptyString)) = Some (16 * d1 + d2).
Proof.
  intros E1 E2.
  destruct (hex_value_facts _ _ E1) as (S1 & M1 & P1 & R1).
  destruct (hex_value_facts _ _ E2) as (_ & _ & _ & R2).
  unfold stoi16; cbn [skip_space]; rewrite S1.
  cbn [strip_sign]; rewrite M1, P1.
  cbn [strip_0x read_hex]; rewrite E1, E2.
  rewrite stoi16_in_range by lia.
  f_equal; lia.
Qed.

Lemma stoi16_one_digit (h1 h2 : ascii) (d1 : Z) :
  hex_value h1 = Some d1 -> hex_value h2 = None ->
  stoi16 (String h1 (String h2 EmptyString)) = Some d1.
Proof.
  intros E1 E2.
  destruct (hex_value_facts _ _ E1) as (S1 & M1 & P1 & R1).
  unfold stoi16; cbn [skip_space]; rewrite S1.
  cbn [strip_sign]; rewrite M1, P1.
  cbn [strip_0x read_hex]; rewrite E1, E2.
  rewrite stoi16_in_range by lia.
  f_equal; lia.
Qed.

Lemma stoi16_no_digit (h1 h2 : ascii) :
  hex_value h1 = None -> hex_value h2 = None ->
  stoi16 (String h1 (String h2 EmptyString)) = None.
Proof.
  intros E1 E2; unfold stoi16; cbn [skip_space].
  destruct (isspace h1); [destruct (isspace h2)|]; cbn [strip_sign].
  - reflexivity.
  - destruct (char_is 45 h2); [reflexivity|].
    destruct (char_is 43 h2); [reflexivity|].
    cbn [strip_0x read_hex]; now rewrite E2.
  - destruct (char_is 45 h1); [cbn [strip_0x read_hex]; now rewrite E2|].
    destruct (char_is 43 h1); [cbn [strip_0x read_hex]; now rewrite E2|].
    cbn [strip_0x read_hex]; now rewrite E1.
Qed.

(** With no hexadecimal digit after the x the sequence is kept. *)
Lemma decode_hex_escape_no_digit (h1 h2 : ascii) (rest : string) :
  hex_value h1 = None -> hex_value h2 = None ->
  decode_suffix (String backslash (String letter_x (String h1 (String h2 rest))))
  = String backslash
      (decode_suffix (String letter_x (String h1 (String h2 rest)))).
Proof.
  intros E1 E2; rewrite decode_hex_escape.
  now rewrite (stoi16_no_digit _ _ E1 E2).
Qed.

(** With a digit first and another character second, the digit is
    decoded alone and the other character is consumed with it. *)
Lemma decode_hex_escape_one_digit (h1 h2 : ascii) (d1 : Z) (rest : string) :
  hex_value h1 = Some d1 -> hex_value h2 = None ->
  decode_suffix (String backslash (String letter_x (String h1 (String h2 rest))))
  = String (chr d1) (decode_suffix rest).
Proof.
  intros E1 E2; rewrite decode_hex_escape.
  now rewrite (stoi16_one_digit _ _ _ E1 E2).
Qed.

(** C9.  The decoder on a malformed hexadecimal escape.  The
    specification has backslash, x and two characters that are not both
    hexadecimal digits kept unchanged.  On backslash, x, 1, g the decoder
    instead consumes all four characters and yields the single byte 1:
    [std::stoi] reads the leading digit and does not throw. *)
Theorem decode_malformed_hex_consumed :
  let input := String backslash (String letter_x "1g") in
  hex_value "g" = None
  /\ decodeSpecialChars input = String (chr 1) EmptyString
  /\ decodeSpecialChars input <> input.
Proof.
  cbv zeta; split; [reflexivity|]; split; [reflexivity|].
  vm_compute; discriminate.
Qed.

End CodecProofs.

(** ** The symbology validator *)

Section ValidatorProofs.

Import Char BarcodeGenerator.

Lemma code39_loop_step (c : ascii) (rest : string) :
  code39_loop (String c rest) = code39_allowed c && code39_loop rest.
Proof. each_char c; reflexivity. Qed.

Lemma code39_loop_forallb (data : string) :
  code39_loop data = string_forallb code39_allowed data.
Proof.
  induction data as [|c data IH]; [reflexivity|].
  rewrite code39_loop_step, IH; reflexivity.
Qed.

Lemma ean13_loop_forallb (data : string) :
  ean13_loop data = string_forallb isdigit data.
Proof.
  induction data as [|c data IH]; [reflexivity|].
  cbn [ean13_loop string_forallb]; rewrite IH.
  now destruct (isdigit c).
Qed.

Lemma string_forallb_false_at (p : ascii -> bool) (pre post : string) (c : ascii) :
  p c = false -> string_forallb p (pre ++ String c post) = false.
Proof.
  intros H; rewrite string_forallb_app; cbn [string_forallb].
  rewrite H; apply andb_false_r.
Qed.

Lemma islower_not_allowed (c : ascii) :
  islower c = true -> code39_allowed c = false.
Proof. each_char c; try discriminate; reflexivity. Qed.

Lemma validateData_code39 (data : string) :
  validateData data CODE_39
  = negb (string_empty data) && string_forallb code39_allowed data.
Proof.
  unfold validateData; rewrite code39_loop_forallb.
  now destruct (string_empty data).
Qed.

(** C5.  Validator rules: empty data is rejected for every type; EAN13
    accepts exactly the strings of 12 or 13 ASCII digits; Code39 accepts
    exactly the non-empty strings over upper-case letters, digits and
    space - . $ / + %, so a lower-case letter or an at-sign anywhere is
    rejected; Code128, QRCode and DataMatrix accept every non-empty
    string. *)
Theorem validateData_rules (data : string) :
  (forall t, validateData EmptyString t = false)
  /\ validateData data EAN_13
     = ((String.length data =? 12)%nat || (String.length data =? 13)%nat)
       && string_forallb isdigit data
  /\ validateData data CODE_39
     = negb (string_empty data) && string_forallb code39_allowed data
  /\ (forall pre post c, islower c = true ->
        validateData (pre ++ String c post) CODE_39 = false)
  /\ (forall pre post, validateData (pre ++ String "@" post) CODE_39 = false)
  /\ validateData data CODE_128 = negb (string_empty data)
  /\ validateData data QR_CODE = negb (string_empty data)
  /\ validateData data DATA_MATRIX = negb (string_empty data).
Proof.
  split; [intros t; reflexivity|].
  split.
  { unfold validateData; rewrite ean13_loop_forallb.
    destruct data as [|c data]; [reflexivity|].
    cbn [string_empty].
    now destruct (String.length (String c data) =? 12)%nat,
                 (String.length (String c data) =? 13)%nat. }
  split; [apply validateData_code39|].
  split.
  { intros pre post c Hc; rewrite validateData_code39.
    rewrite (string_forallb_false_at _ _ _ _ (islower_not_allowed _ Hc)).
    apply andb_false_r. }
  split.
  { intros pre post; rewrite validateData_code39.
    rewrite string_forallb_false_at by reflexivity.
    apply andb_false_r. }
  repeat split; unfold validateData; now destruct (string_empty data).
Qed.

(** The scenarios of the specification and the validation cases of the
    repository's unit tests (tests/test_barcode_generator.cpp). *)
Example validateData_scenarios :
  validateData "12345678901" EAN_13 = false
  /\ validateData "123456789012" EAN_13 = true
  /\ validateData "1234567890123" EAN_13 = true
  /\ validateData "12345678901234" EAN_13 = false
  /\ validateData "12345678901A" EAN_13 = false
  /\ validateData "TEST123" CODE_39 = true
  /\ validateData "HELLO-WORLD" CODE_39 = true
  /\ validateData "test123" CODE_39 = false
  /\ validateData "TEST@123" CODE_39 = false
  /\ validateData "TEST123" CODE_128 = true
  /\ validateData "Hello World!" CODE_128 = true
  /\ validateData EmptyString CODE_128 = false
  /\ validateData EmptyString QR_CODE = false.
Proof. repeat split; reflexivity. Qed.

End ValidatorProofs.

(** ** The generator *)

Section GenerateProofs.

Import BarcodeGenerator.

Variable env : Collaborators.
Variable lastError0 : ErrorInfo.

Lemma string_empty_iff (s : string) : string_empty s = true <-> s = EmptyString.
Proof. destruct s; simpl; split; congruence. Qed.

Lemma string_nonempty (s : string) : s <> EmptyString -> string_empty s = false.
Proof. destruct s; simpl; congruence. Qed.

(** C8.  Precondition order and error codes of [generate]: empty data
    fails with INVALID_DATA; otherwise a width or height that is not
    positive fails with INVALID_SIZE; otherwise data the validator
    rejects fails with INVALID_DATA.  Each of the three returns before
    any collaborator is called. *)
Theorem generate_precondition_order
    (data : string) (config : BarcodeConfig) (outputPath : string) :
  (data = EmptyString ->
     generate env lastError0 data config outputPath
     = mkOutcome false (mkErrorInfo INVALID_DATA "Empty data" EmptyString) [])
  /\ (data <> EmptyString ->
      width config <= 0 \/ height config <= 0 ->
      generate env lastError0 data config outputPath
      = mkOutcome false (mkErrorInfo INVALID_SIZE "Invalid dimensions" EmptyString) [])
  /\ (data <> EmptyString ->
      0 < width config -> 0 < height config ->
      validateData data (type config) = false ->
      generate env lastError0 data config outputPath
      = mkOutcome false
          (mkErrorInfo INVALID_DATA "Data not valid for barcode type" EmptyString) []).
Proof.
  unfold generate; repeat split.
  - intros ->; reflexivity.
  - intros Hne Hsz; rewrite (string_nonempty _ Hne).
    replace ((width config <=? 0) || (height config <=? 0)) with true;
      [reflexivity|].
    symmetry; apply orb_true_iff.
    destruct Hsz; [left | right]; now apply Z.leb_le.
  - intros Hne Hw Hh Hv; rewrite (string_nonempty _ Hne).
    replace ((width config <=? 0) || (height config <=? 0)) with false.
    + now rewrite Hv.
    + symmetry; apply orb_false_iff; split; apply Z.leb_gt; assumption.
Qed.

(** The size of the pixel vectors. *)

Lemma range_length (n : Z) : List.length (range n) = Z.to_nat n.
Proof. unfold range; now rewrite length_map, length_seq. Qed.

Lemma flat_map_rows_length {A B C} (f : A -> B -> C) (cols : list B) (rows : list A) :
  List.length (flat_map (fun r => map (f r) cols) rows)
  = (List.length rows * List.length cols)%nat.
Proof.
  induction rows as [|r rows IH]; [reflexivity|].
  cbn [flat_map List.length]; rewrite length_app, length_map, IH; lia.
Qed.

Lemma matrix_pixels_length (m : BitMatrix) :
  List.length (matrix_pixels m)
  = (Z.to_nat (bm_height m) * Z.to_nat (bm_width m))%nat.
Proof.
  unfold matrix_pixels.
  rewrite (flat_map_rows_length (fun y x => if bm_get m x y then 0 else 255)).
  now rewrite !range_length.
Qed.

Lemma scaleImage_length (src : list Z) (sw sh dw dh : Z) :
  List.length (scaleImage src sw sh dw dh) = (Z.to_nat dh * Z.to_nat dw)%nat.
Proof.
  unfold scaleImage.
  rewrite (flat_map_rows_length
             (fun y x =>
                nth (Z.to_nat
                       (Double.to_int
                          (Double.of_int y * (Double.of_int sh / Double.of_int dh))%float
                        * sw
                        + Double.to_int
                            (Double.of_int x * (Double.of_int sw / Double.of_int dw))%float))
                  src 0)).
  now rewrite !range_length.
Qed.

(** A successful [generate] has passed the three checks, obtained a
    matrix, and written one PNG with the configured width and height and
    one byte per pixel. *)
Lemma generate_success_dimensions
    (data : string) (config : BarcodeConfig) (outputPath : string) :
  returned (generate env lastError0 data config outputPath) = true ->
  exists (matrix : BitMatrix) (pixels : list Z),
    writer_encode env (toZXingFormat (type config)) data
      (width config) (height config) = inl matrix
    /\ events (generate env lastError0 data config outputPath)
       = [ EvEncode (toZXingFormat (type config)) data
             (width config) (height config);
           EvWritePng outputPath (width config) (height config) 1
             pixels (width config) ]
    /\ List.length pixels = Z.to_nat (width config * height config)
    /\ pixels
       = (if negb (bm_width matrix =? width config)
             || negb (bm_height matrix =? height config)
          then scaleImage (matrix_pixels matrix)
                 (bm_width matrix) (bm_height matrix)
                 (width config) (height config)
          else matrix_pixels matrix).
Proof.
  unfold generate.
  destruct (string_empty data); [discriminate|].
  destruct ((width config <=? 0) || (height config <=? 0)) eqn:Hsz;
    [discriminate|].
  apply orb_false_iff in Hsz; destruct Hsz as [Hw Hh].
  apply Z.leb_gt in Hw, Hh.
  destruct (negb (validateData data (type config))); [discriminate|].
  destruct (writer_encode env _ data _ _) as [matrix|what]; [|discriminate].
  cbv zeta.
  destruct (negb (stbi_write_png env _ _ _ _ _ _)); [discriminate|].
  intros _; exists matrix; eexists; cbn [events].
  split; [reflexivity|]; split; [reflexivity|]; split; [|reflexivity].
  destruct (negb (bm_width matrix =? width config)
            || negb (bm_height matrix =? height config)) eqn:Hd.
  - rewrite scaleImage_length, <- Z2Nat.inj_mul by lia; f_equal; lia.
  - apply orb_false_iff in Hd; destruct Hd as [Hdw Hdh].
    apply negb_false_iff in Hdw, Hdh; apply Z.eqb_eq in Hdw, Hdh.
    rewrite matrix_pixels_length, Hdw, Hdh, <- Z2Nat.inj_mul by lia.
    f_equal; lia.
Qed.

End GenerateProofs.

Lemma generate_precondition_order_witness :
  BarcodeGenerator.generate checker_writer no_error EmptyString
    (mkConfig CODE_128 0 0 10 true 300) "out.png"
  = BarcodeGenerator.mkOutcome false (mkErrorInfo INVALID_DATA "Empty data" EmptyString) []
  /\ BarcodeGenerator.generate checker_writer no_error "test123"
       (mkConfig CODE_39 (-100) 80 10 true 300) "out.png"
     = BarcodeGenerator.mkOutcome false
         (mkErrorInfo INVALID_SIZE "Invalid dimensions" EmptyString) []
  /\ BarcodeGenerator.generate checker_writer no_error "test123"
       (mkConfig CODE_39 200 80 10 true 300) "out.png"
     = BarcodeGenerator.mkOutcome false
         (mkErrorInfo INVALID_DATA "Data not valid for barcode type" EmptyString) [].
Proof.
  split; [|split].
  - apply (proj1 (generate_precondition_order checker_writer no_error
                    EmptyString (mkConfig CODE_128 0 0 10 true 300) "out.png")).
    reflexivity.
  - apply (proj1 (proj2 (generate_precondition_order checker_writer no_error
                    "test123" (mkConfig CODE_39 (-100) 80 10 true 300) "out.png"))).
    + discriminate.
    + left; simpl; lia.
  - apply (proj2 (proj2 (generate_precondition_order checker_writer no_error
                    "test123" (mkConfig CODE_39 200 80 10 true 300) "out.png"))).
    + discriminate.
    + simpl; lia.
    + simpl; lia.
    + reflexivity.
Defined.

(** ** The dependency-free encoder: checksum *)

Section ChecksumProofs.

Import Char PureC.

Lemma code128b_value_unsigned (c : ascii) : code128b_value c = value_spec c.
Proof. each_char c; reflexivity. Qed.

Lemma value_spec_range (c : ascii) : 0 <= value_spec c <= 95.
Proof. each_char c; vm_compute; split; discriminate. Qed.

Lemma weighted_sum_nonneg (s : string) (i : Z) :
  0 <= i -> 0 <= weighted_sum i s.
Proof.
  revert i; induction s as [|c s IH]; intros i Hi; cbn [weighted_sum]; [lia|].
  pose proof (value_spec_range c); pose proof (IH (i + 1)); nia.
Qed.

Lemma weighted_sum_bound (s : string) (i : Z) :
  0 <= i ->
  weighted_sum i s
  <= 95 * Z.of_nat (String.length s) * (i + Z.of_nat (String.length s)).
Proof.
  revert i; induction s as [|c s IH]; intros i Hi;
    cbn [weighted_sum String.length]; [lia|].
  pose proof (value_spec_range c); pose proof (IH (i + 1)).
  rewrite Nat2Z.inj_succ; nia.
Qed.

(** The loop adds the weighted sum as long as nothing leaves [int]. *)
Lemma checksum_loop_sum (rest : string) (i sum : Z) :
  0 <= i -> 0 <= sum ->
  i + Z.of_nat (String.length rest) <= Int32.INT_MAX ->
  sum + weighted_sum (i + 1) rest <= Int32.INT_MAX ->
  checksum_loop rest i sum = sum + weighted_sum (i + 1) rest.
Proof.
  revert i sum; induction rest as [|c rest IH]; intros i sum Hi Hs Hl Hb;
    cbn [checksum_loop weighted_sum String.length] in *; [lia|].
  rewrite Nat2Z.inj_succ in Hl.
  pose proof (value_spec_range c) as Hv.
  pose proof (weighted_sum_nonneg rest (i + 1 + 1)) as Hr.
  unfold Int32.add, Int32.mul; rewrite code128b_value_unsigned.
  rewrite (wrap_small (i + 1)) by (unfold Int32.INT_MIN; lia).
  rewrite (wrap_small (value_spec c * (i + 1)))
    by (unfold Int32.INT_MIN; nia).
  rewrite (wrap_small (sum + _)) by (unfold Int32.INT_MIN; nia).
  rewrite IH by nia; lia.
Qed.

Lemma substring_all (s : string) : substring 0 (String.length s) s = s.
Proof. induction s as [|c s IH]; cbn; [reflexivity | now rewrite IH]. Qed.

Lemma substring_length_le (n : nat) (s : string) :
  (String.length (substring 0 n s) <= n)%nat.
Proof.
  revert s; induction n as [|n IH]; intros [|c s]; cbn; try lia.
  specialize (IH s); lia.
Qed.

Lemma checksum_mod (a : Z) :
  0 <= a -> Int32.rem a 103 = a mod 103 /\ 0 <= a mod 103 <= 102.
Proof.
  intros Ha; unfold Int32.rem; rewrite Z.rem_mod_nonneg by lia.
  pose proof (Z.mod_pos_bound a 103); lia.
Qed.

Lemma calculate_checksum_sum (data : string) (startCode : Z) :
  0 <= startCode ->
  Z.of_nat (strlen data) <= Int32.INT_MAX ->
  startCode + weighted_sum 1 (c_str data) <= Int32.INT_MAX ->
  calculate_checksum data startCode
  = (startCode + weighted_sum 1 (c_str data)) mod 103.
Proof.
  intros Hs Hl Hb; unfold calculate_checksum.
  rewrite of_size_small, Nat2Z.id by assumption.
  unfold strlen in *; rewrite substring_all.
  rewrite checksum_loop_sum by (simpl; lia).
  apply checksum_mod.
  pose proof (weighted_sum_nonneg (c_str data) 1); lia.
Qed.

(** What is read when the length is at most 80: the checksum is in
    range whatever the bytes. *)
Lemma calculate_checksum_short (data : string) :
  Int32.of_size (strlen data) <= 80 ->
  0 <= calculate_checksum data 104 <= 102.
Proof.
  intros Hl; unfold calculate_checksum.
  set (read := substring 0 _ (c_str data)).
  assert (Hr : Z.of_nat (String.length read) <= 80).
  { pose proof (substring_length_le
                  (Z.to_nat (Int32.of_size (strlen data))) (c_str data)) as Hsub.
    fold read in Hsub; lia. }
  clearbody read.
  assert (Hb : 0 <= weighted_sum (0 + 1) read <= 615600).
  { pose proof (weighted_sum_bound read 1) as Hb.
    pose proof (weighted_sum_nonneg read 1) as Hn.
    change (0 + 1) with 1; nia. }
  rewrite checksum_loop_sum by (unfold Int32.INT_MAX; lia).
  destruct (checksum_mod (104 + weighted_sum (0 + 1) read)) as [-> ?]; lia.
Qed.

(** The symbols drawn by a successful run: START-B, one symbol per
    character read, the checksum of the data under 104, and STOP. *)
Lemma generated_symbols_exact (rt : Runtime) (d path : string) (w h m : Z)
    (written : Written) :
  barcode_generate_pure_c rt (Some d) (Some path) w h m = (0, Some written) ->
  Int32.of_size (strlen d) <= 80
  /\ 0 <= calculate_checksum d 104 <= 102
  /\ w_symbols written
     = (104 :: data_symbols
                 (substring 0 (Z.to_nat (Int32.of_size (strlen d))) (c_str d))
            ++ [calculate_checksum d 104; 106])%list.
Proof.
  unfold barcode_generate_pure_c.
  destruct (string_empty (c_str d)); [discriminate|].
  destruct (80 <? Int32.of_size (strlen d)) eqn:Hlen; [discriminate|].
  apply Z.ltb_ge in Hlen.
  cbv zeta.
  destruct (negb (malloc_ok rt _)); [discriminate|].
  destruct (negb (fopen_ok rt path)); [discriminate|].
  intros E; injection E as <-; cbn [w_symbols].
  pose proof (calculate_checksum_short d Hlen) as Hc.
  replace ((0 <=? calculate_checksum d 104) && (calculate_checksum d 104 <? 106))
    with true.
  2:{ symmetry; apply andb_true_iff; split;
      [apply Z.leb_le | apply Z.ltb_lt]; lia. }
  split; [assumption|]; split; [assumption|]; reflexivity.
Qed.

(** Every pattern below 106 is 11 modules wide and STOP is 13, so the
    bars of a successful run span the module count the width was
    computed from. *)
Lemma symbol_modules_11 (s : Z) : 0 <= s < 106 -> symbol_modules s = 11.
Proof.
  intros Hs; unfold symbol_modules.
  assert (H : forallb (fun p => pattern_modules p =? 11)
                (firstn 106 CODE128_PATTERNS) = true) by (vm_compute; reflexivity).
  rewrite forallb_forall in H.
  apply Z.eqb_eq, H.
  rewrite <- (firstn_skipn 106 CODE128_PATTERNS) at 1.
  rewrite app_nth1 by (rewrite length_firstn; cbn; lia).
  apply nth_In; rewrite length_firstn; cbn; lia.
Qed.

Lemma data_symbols_modules (s : string) :
  drawn_modules (data_symbols s) = 11 * Z.of_nat (String.length s).
Proof.
  induction s as [|c s IH]; [reflexivity|].
  cbn [data_symbols String.length].
  rewrite code128b_value_unsigned.
  pose proof (value_spec_range c) as Hv.
  replace ((0 <=? value_spec c) && (value_spec c <? 106)) with true.
  2:{ symmetry; apply andb_true_iff; split;
      [apply Z.leb_le | apply Z.ltb_lt]; lia. }
  cbn [drawn_modules fold_right]; fold (drawn_modules (data_symbols s)).
  rewrite IH, symbol_modules_11, Nat2Z.inj_succ by lia; lia.
Qed.

Lemma drawn_modules_app (l1 l2 : list Z) :
  drawn_modules (l1 ++ l2) = drawn_modules l1 + drawn_modules l2.
Proof.
  induction l1 as [|a l1 IH]; [reflexivity|].
  cbn [app drawn_modules fold_right]; fold (drawn_modules (l1 ++ l2)).
  fold (drawn_modules l1); rewrite IH; lia.
Qed.

Lemma generated_modules (rt : Runtime) (d path : string) (w h m : Z)
    (written : Written) :
  Z.of_nat (strlen d) <= Int32.INT_MAX ->
  barcode_generate_pure_c rt (Some d) (Some path) w h m = (0, Some written) ->
  drawn_modules (w_symbols written)
  = 11 + Z.of_nat (strlen d) * 11 + 11 + 13.
Proof.
  intros Hfit E.
  destruct (generated_symbols_exact _ _ _ _ _ _ _ E) as (_ & Hc & ->).
  rewrite of_size_small, Nat2Z.id by assumption.
  unfold strlen; rewrite substring_all.
  change (104 :: ?l)%list with ([104] ++ l)%list.
  rewrite !drawn_modules_app, data_symbols_modules.
  cbn [drawn_modules fold_right].
  rewrite (symbol_modules_11 104), (symbol_modules_11 (calculate_checksum d 104))
    by lia.
  change (symbol_modules 106) with 13; lia.
Qed.

End ChecksumProofs.

(** ** The dependency-free encoder: length cap and output size *)

Section PureCProofs.

Import PureC.

Variable rt : Runtime.

Lemma c_str_nonempty (d : string) :
  (0 < strlen d)%nat -> string_empty (c_str d) = false.
Proof. unfold strlen; destruct (c_str d); cbn; [lia | reflexivity]. Qed.

(** C10.  The length cap of the dependency-free path: data longer than
    80 characters makes [barcode_generate_pure_c] return -2 and
    [barcode_generate_c] return -2 with the message "Data too long (max
    80 characters)"; neither writes a file; and the same data passes the
    Code128 rule of the validator. *)
Theorem pure_c_length_cap
    (g_purec_error d path : string) (type width height margin : Z) :
  (80 < strlen d)%nat ->
  Z.of_nat (strlen d) <= Int32.INT_MAX ->
  barcode_generate_pure_c rt (Some d) (Some path) width height margin
  = (-2, None)
  /\ barcode_generate_c rt g_purec_error (Some d) type width height margin
       (Some path)
     = (-2, "Data too long (max 80 characters)", None)
  /\ BarcodeGenerator.validateData (c_str d) CODE_128 = true.
Proof.
  intros Hlen Hfit.
  assert (E : barcode_generate_pure_c rt (Some d) (Some path) width height margin
              = (-2, None)).
  { unfold barcode_generate_pure_c.
    rewrite c_str_nonempty by lia.
    rewrite of_size_small by assumption.
    replace (80 <? Z.of_nat (strlen d)) with true; [reflexivity|].
    symmetry; apply Z.ltb_lt; lia. }
  split; [exact E|]; split.
  - unfold barcode_generate_c; rewrite E; reflexivity.
  - unfold BarcodeGenerator.validateData.
    now rewrite c_str_nonempty by lia.
Qed.

(** Truncating division by a positive divisor. *)
Lemma quot_nonneg_bounds (a t : Z) :
  0 <= a -> 0 < t -> 0 <= Z.quot a t <= a /\ Z.quot a t * t <= a.
Proof.
  intros Ha Ht; rewrite Z.quot_div_nonneg by lia.
  pose proof (Z.div_pos a t Ha Ht).
  pose proof (Z.mul_div_le a t Ht).
  split; [split; [assumption|] | lia].
  apply Z.div_le_upper_bound; nia.
Qed.

Lemma quot_neg_bounds (a t : Z) :
  a <= 0 -> 0 < t -> a <= Z.quot a t <= 0.
Proof.
  intros Ha Ht.
  assert (E : Z.quot a t = - Z.quot (- a) t)
    by (rewrite Z.quot_opp_l by lia; lia).
  destruct (quot_nonneg_bounds (- a) t) as [[? ?] _]; lia.
Qed.

(** The size of the bitmap a successful run writes: the module width is
    the requested bar area divided by the module count, at least 2, and
    the width is rebuilt from it; the height is at least 60. *)
Lemma pure_c_written_size (d path : string) (width height margin : Z)
    (written : Written) :
  Z.of_nat (strlen d) <= Int32.INT_MAX ->
  Z.abs width <= 1000000000 ->
  Z.abs margin <= 500000000 ->
  barcode_generate_pure_c rt (Some d) (Some path) width height margin
  = (0, Some written) ->
  let totalModules := 11 + Z.of_nat (strlen d) * 11 + 11 + 13 in
  let moduleWidth := Z.max 2 (Z.quot (width - 2 * margin) totalModules) in
  w_path written = path
  /\ w_moduleWidth written = moduleWidth
  /\ biWidth (w_info written) = moduleWidth * totalModules + 2 * margin
  /\ biHeight (w_info written) = Z.max height 60.
Proof.
  intros Hfit Hw Hm; unfold barcode_generate_pure_c.
  destruct (string_empty (c_str d)); [discriminate|].
  rewrite of_size_small by assumption.
  destruct (80 <? Z.of_nat (strlen d)) eqn:Hlen; [discriminate|].
  apply Z.ltb_ge in Hlen.
  set (len := Z.of_nat (strlen d)) in *.
  assert (Hlen0 : 0 <= len) by (unfold len; lia).
  unfold Int32.add, Int32.sub, Int32.mul, Int32.div.
  rewrite (wrap_small (len * 11)) by (unfold Int32.INT_MIN, Int32.INT_MAX; lia).
  rewrite (wrap_small (11 + len * 11))
    by (unfold Int32.INT_MIN, Int32.INT_MAX; lia).
  rewrite (wrap_small (11 + len * 11 + 11))
    by (unfold Int32.INT_MIN, Int32.INT_MAX; lia).
  rewrite (wrap_small (11 + len * 11 + 11 + 13))
    by (unfold Int32.INT_MIN, Int32.INT_MAX; lia).
  set (T := 11 + len * 11 + 11 + 13).
  assert (HT : 35 <= T <= 915) by (unfold T; lia).
  rewrite (wrap_small (2 * margin))
    by (unfold Int32.INT_MIN, Int32.INT_MAX; lia).
  rewrite (wrap_small (width - 2 * margin))
    by (unfold Int32.INT_MIN, Int32.INT_MAX; lia).
  set (bw := width - 2 * margin).
  assert (Ebw : bw = width - 2 * margin) by reflexivity.
  clearbody bw.
  assert (Hbw : -2000000000 <= bw <= 2000000000) by lia.
  assert (Hq : Z.abs (Z.quot bw T) <= 2000000000
               /\ (2 <= Z.quot bw T -> Z.quot bw T * T <= bw)).
  { destruct (Z.le_gt_cases 0 bw) as [Hp|Hn].
    - destruct (quot_nonneg_bounds bw T) as [[? ?] ?]; lia.
    - destruct (quot_neg_bounds bw T); lia. }
  destruct Hq as [Hq1 Hq2].
  rewrite (wrap_small (Z.quot bw T))
    by (unfold Int32.INT_MIN, Int32.INT_MAX; lia).
  cbv zeta.
  set (mw := if Z.quot bw T <? 2 then 2 else Z.quot bw T).
  assert (Hmw : mw = Z.max 2 (Z.quot bw T)).
  { unfold mw; destruct (Z.ltb_spec (Z.quot bw T) 2); lia. }
  clearbody mw.
  assert (Hprod : 70 <= mw * T <= 2000000000).
  { destruct (Z.le_gt_cases 2 (Z.quot bw T)) as [Hge|Hlt].
    - replace mw with (Z.quot bw T) by lia; specialize (Hq2 Hge); nia.
    - replace mw with 2 by lia; lia. }
  rewrite (wrap_small (mw * T))
    by (unfold Int32.INT_MIN, Int32.INT_MAX; lia).
  assert (Hwidth : - 2147483648 <= mw * T + 2 * margin <= 2147483647).
  { destruct (Z.le_gt_cases 2 (Z.quot bw T)) as [Hge|Hlt].
    - replace mw with (Z.quot bw T) in * by lia; specialize (Hq2 Hge); lia.
    - replace mw with 2 in * by lia; lia. }
  rewrite (wrap_small (mw * T + 2 * margin))
    by (unfold Int32.INT_MIN, Int32.INT_MAX; lia).
  destruct (negb (malloc_ok rt _)); [discriminate|].
  destruct (negb (fopen_ok rt path)); [discriminate|].
  intros E; injection E as <-; cbn [w_path w_moduleWidth w_info biWidth biHeight].
  subst bw; repeat split; try assumption.
  - now rewrite Hmw.
  - destruct (Z.ltb_spec height 60); lia.
Qed.

End PureCProofs.

(** ** The dependency-free encoder: the pixels of the bitmap *)

Section BitmapProofs.

Import Char PureC.

Lemma mul_succ_le (a b c : Z) : 0 <= c -> a + 1 <= b -> a * c + c <= b * c.
Proof.
  intros Hc Hab; replace (a * c + c) with ((a + 1) * c) by ring.
  now apply Z.mul_le_mono_nonneg_r.
Qed.

(** A column of module [j] of [n] lies before the end of the modules. *)
Lemma module_column (mw j n r : Z) :
  0 < mw -> 0 <= j -> j + 1 <= n -> 0 <= r < mw ->
  0 <= mw * j + r < mw * n.
Proof.
  intros Hmw Hj Hn Hr.
  pose proof (Z.mul_nonneg_nonneg mw j ltac:(lia) Hj).
  pose proof (mul_succ_le j n mw ltac:(lia) Hn).
  rewrite (Z.mul_comm mw j), (Z.mul_comm mw n); lia.
Qed.

Lemma in_interval (lo hi x : Z) : In x (interval lo hi) <-> lo <= x < hi.
Proof.
  unfold interval; rewrite in_map_iff; split.
  - intros (k & <- & Hk); apply in_seq in Hk; lia.
  - intros Hx; exists (Z.to_nat (x - lo)); split; [lia | apply in_seq; lia].
Qed.

Lemma nth_repeat_bool (b : bool) (d j : nat) :
  nth j (repeat b d) false = b && (j <? d)%nat.
Proof.
  revert j; induction d as [|d IH]; intros [|j]; cbn [repeat nth];
    rewrite ?andb_false_r, ?andb_true_r; try reflexivity.
  rewrite IH; reflexivity.
Qed.

Lemma nth_true_lt (l : list bool) (j : nat) :
  nth j l false = true -> (j < List.length l)%nat.
Proof.
  intros H; destruct (Nat.lt_ge_cases j (List.length l)) as [|Hge];
    [assumption|].
  rewrite nth_overflow in H by assumption; discriminate.
Qed.

(** The bars of two runs of modules laid side by side. *)
Lemma painted_from_app (cv : Canvas) (start : Z) (l1 l2 : list bool) (o : Z) :
  painted_from cv start (l1 ++ l2) o
  <-> painted_from cv start l1 o
      \/ painted_from cv
           (start + cv_moduleWidth cv * Z.of_nat (List.length l1)) l2 o.
Proof.
  unfold painted_from; split.
  - intros (x & y & k & j & r & Ho & Hk & Hy & Hx & Hr & Hj & Hn).
    destruct (Nat.lt_ge_cases (Z.to_nat j) (List.length l1)) as [Hlt|Hge].
    + left; exists x, y, k, j, r; rewrite app_nth1 in Hn by assumption.
      repeat split; try assumption; lia.
    + right; rewrite app_nth2 in Hn by assumption.
      exists x, y, k, (j - Z.of_nat (List.length l1)), r.
      replace (Z.to_nat (j - Z.of_nat (List.length l1)))
        with (Z.to_nat j - List.length l1)%nat by lia.
      repeat split; try assumption; lia.
  - intros [(x & y & k & j & r & Ho & Hk & Hy & Hx & Hr & Hj & Hn)
           |(x & y & k & j & r & Ho & Hk & Hy & Hx & Hr & Hj & Hn)].
    + exists x, y, k, j, r.
      rewrite app_nth1 by (now apply nth_true_lt).
      repeat split; try assumption; lia.
    + exists x, y, k, (Z.of_nat (List.length l1) + j), r.
      rewrite app_nth2 by lia.
      replace (Z.to_nat (Z.of_nat (List.length l1) + j) - List.length l1)%nat
        with (Z.to_nat j) by lia.
      repeat split; try assumption; lia.
Qed.

(** A run of [d] equal modules: nothing when they are spaces, the
    columns of the run when they are bars. *)
Lemma painted_from_repeat (cv : Canvas) (start : Z) (b : bool) (d : nat)
    (o : Z) :
  0 < cv_moduleWidth cv ->
  painted_from cv start (repeat b d) o
  <-> b = true
      /\ exists x y k,
           o = y * cv_rowSize cv + 3 * x + k /\ 0 <= k < 3
           /\ cv_margin cv <= y < cv_height cv - cv_margin cv
           /\ start <= x < start + Z.of_nat d * cv_moduleWidth cv.
Proof.
  intros Hmw; unfold painted_from; split.
  - intros (x & y & k & j & r & Ho & Hk & Hy & Hx & Hr & Hj & Hn).
    rewrite nth_repeat_bool in Hn.
    apply andb_true_iff in Hn as [Hb Hlt]; apply Nat.ltb_lt in Hlt.
    split; [assumption|].
    exists x, y, k; repeat split; try assumption; try lia; nia.
  - intros (Hb & x & y & k & Ho & Hk & Hy & Hx).
    exists x, y, k, ((x - start) / cv_moduleWidth cv),
      ((x - start) mod cv_moduleWidth cv).
    pose proof (Z.div_mod (x - start) (cv_moduleWidth cv) ltac:(lia)) as Hdm.
    pose proof (Z.mod_pos_bound (x - start) (cv_moduleWidth cv) Hmw) as Hmod.
    assert (Hq : 0 <= (x - start) / cv_moduleWidth cv < Z.of_nat d).
    { split; [apply Z.div_pos; lia|].
      apply Z.div_lt_upper_bound; lia. }
    rewrite nth_repeat_bool, Hb.
    replace (Z.to_nat ((x - start) / cv_moduleWidth cv) <? d)%nat with true
      by (symmetry; apply Nat.ltb_lt; lia).
    repeat split; try assumption; lia.
Qed.

Section Geometry.

(** A canvas of the sizes the encoder builds when it is asked for at
    most 10000 pixels each way with a margin of at most 1000: rows wide
    enough for three bytes a pixel, and nothing near the end of [int]. *)
Variable cv : Canvas.
Hypothesis Hmargin : 0 <= cv_margin cv <= 1000.
Hypothesis Hmodule : 0 < cv_moduleWidth cv.
Hypothesis Hwidth : 0 <= cv_width cv <= 12000.
Hypothesis Hheight : 0 <= cv_height cv <= 10000.
Hypothesis Hrow : 3 * cv_width cv <= cv_rowSize cv <= 3 * cv_width cv + 3.

(** One bar that ends before the right margin: the guard on the offset
    never fails and the clip never cuts. *)
Lemma draw_bar_in (currentX barWidth o : Z) :
  cv_margin cv <= currentX -> 0 <= barWidth ->
  currentX + barWidth <= cv_width cv - cv_margin cv ->
  In o (draw_bar cv currentX barWidth)
  <-> exists x y k,
        o = y * cv_rowSize cv + 3 * x + k /\ 0 <= k < 3
        /\ cv_margin cv <= y < cv_height cv - cv_margin cv
        /\ currentX <= x < currentX + barWidth.
Proof using Hmargin Hmodule Hwidth Hheight Hrow.
  intros Hx Hb Hend; unfold draw_bar; cbv zeta.
  assert (E1 : Int32.sub (cv_height cv) (cv_margin cv)
               = cv_height cv - cv_margin cv)
    by (unfold Int32.sub; apply wrap_small;
        unfold Int32.INT_MIN, Int32.INT_MAX; lia).
  assert (E2 : Int32.add currentX barWidth = currentX + barWidth)
    by (unfold Int32.add; apply wrap_small;
        unfold Int32.INT_MIN, Int32.INT_MAX; lia).
  assert (E3 : Int32.sub (cv_width cv) (cv_margin cv)
               = cv_width cv - cv_margin cv)
    by (unfold Int32.sub; apply wrap_small;
        unfold Int32.INT_MIN, Int32.INT_MAX; lia).
  rewrite E1, E2, E3, Z.min_l by assumption.
  assert (Hpix : forall x y,
            cv_margin cv <= y < cv_height cv - cv_margin cv ->
            currentX <= x < currentX + barWidth ->
            (let offset :=
               Int32.add (Int32.mul y (cv_rowSize cv)) (Int32.mul x 3) in
             if Int32.add offset 2
                <? Int32.mul (cv_rowSize cv) (cv_height cv)
             then [offset; Int32.add offset 1; Int32.add offset 2]
             else [])
            = [y * cv_rowSize cv + 3 * x; y * cv_rowSize cv + 3 * x + 1;
               y * cv_rowSize cv + 3 * x + 2]).
  { intros x y Hy Hxx; cbv zeta.
    assert (Hrows : 0 <= y * cv_rowSize cv
                    /\ y * cv_rowSize cv + cv_rowSize cv
                       <= cv_rowSize cv * cv_height cv).
    { split; [apply Z.mul_nonneg_nonneg; lia|].
      rewrite (Z.mul_comm (cv_rowSize cv) (cv_height cv)).
      apply mul_succ_le; lia. }
    assert (Harea : cv_rowSize cv * cv_height cv <= 36003 * 10000)
      by (apply Z.mul_le_mono_nonneg; lia).
    unfold Int32.add, Int32.mul.
    rewrite (wrap_small (y * cv_rowSize cv))
      by (unfold Int32.INT_MIN, Int32.INT_MAX; lia).
    rewrite (wrap_small (x * 3))
      by (unfold Int32.INT_MIN, Int32.INT_MAX; lia).
    rewrite (wrap_small (y * cv_rowSize cv + x * 3))
      by (unfold Int32.INT_MIN, Int32.INT_MAX; lia).
    rewrite (wrap_small (y * cv_rowSize cv + x * 3 + 1))
      by (unfold Int32.INT_MIN, Int32.INT_MAX; lia).
    rewrite (wrap_small (y * cv_rowSize cv + x * 3 + 2))
      by (unfold Int32.INT_MIN, Int32.INT_MAX; lia).
    rewrite (wrap_small (cv_rowSize cv * cv_height cv))
      by (unfold Int32.INT_MIN, Int32.INT_MAX;
          pose proof (Z.mul_nonneg_nonneg (cv_rowSize cv) (cv_height cv));
          lia).
    destruct (Z.ltb_spec (y * cv_rowSize cv + x * 3 + 2)
                (cv_rowSize cv * cv_height cv)) as [_|Hout]; [|lia].
    rewrite (Z.mul_comm x 3); reflexivity. }
  cbv zeta in Hpix.
  rewrite in_flat_map; split.
  - intros (y & Hy & Hin); apply in_interval in Hy.
    apply in_flat_map in Hin as (x & Hxx & Hin); apply in_interval in Hxx.
    cbv beta in Hin; rewrite (Hpix x y Hy Hxx) in Hin.
    exists x, y.
    destruct Hin as [<-|[<-|[<-|[]]]];
      [exists 0 | exists 1 | exists 2]; repeat split; lia.
  - intros (x & y & k & Ho & Hk & Hy & Hxx).
    exists y; split; [now apply in_interval|].
    apply in_flat_map; exists x; split; [now apply in_interval|].
    cbv beta; rewrite (Hpix x y Hy Hxx).
    assert (Hcase : k = 0 \/ k = 1 \/ k = 2) by lia.
    destruct Hcase as [->|[->| ->]]; subst o; cbn [In];
      [left | right; left | right; right; left]; lia.
Qed.

Lemma pattern_modules_nonneg (pat : string) :
  string_forallb isdigit pat = true -> 0 <= pattern_modules pat.
Proof.
  induction pat as [|c r IH]; cbn [string_forallb pattern_modules]; [lia|].
  intros H; apply andb_true_iff in H as [Hc Hr].
  unfold isdigit, between in Hc; apply andb_true_iff in Hc as [Hlo _].
  apply Z.leb_le in Hlo; specialize (IH Hr); lia.
Qed.

Lemma pattern_bars_length (pat : string) (bar : bool) :
  string_forallb isdigit pat = true ->
  Z.of_nat (List.length (pattern_bars pat bar)) = pattern_modules pat.
Proof.
  revert bar; induction pat as [|c r IH]; intros bar;
    cbn [string_forallb pattern_modules pattern_bars]; [reflexivity|].
  intros H; apply andb_true_iff in H as [Hc Hr].
  unfold isdigit, between in Hc; apply andb_true_iff in Hc as [Hlo _].
  apply Z.leb_le in Hlo.
  rewrite length_app, repeat_length, Nat2Z.inj_add, IH by assumption; lia.
Qed.

(** One expansion of [DRAW_PATTERN] that ends before the right margin
    paints the bars of the pattern and advances by its width. *)
Lemma draw_pattern_spec (pat : string) :
  forall (patternIdx currentX : Z) (bar : bool),
    string_forallb isdigit pat = true ->
    0 <= patternIdx ->
    (Int32.rem patternIdx 2 =? 0) = bar ->
    cv_margin cv <= currentX ->
    currentX + cv_moduleWidth cv * pattern_modules pat
    <= cv_width cv - cv_margin cv ->
    snd (draw_pattern cv pat patternIdx currentX)
    = currentX + cv_moduleWidth cv * pattern_modules pat
    /\ forall o,
         In o (fst (draw_pattern cv pat patternIdx currentX))
         <-> painted_from cv currentX (pattern_bars pat bar) o.
Proof using Hmargin Hmodule Hwidth Hheight Hrow.
  induction pat as [|c r IH]; intros idx cx bar Hdig Hidx Hbar Hcx Hend.
  - cbn [draw_pattern pattern_modules pattern_bars fst snd].
    split; [lia|]; intros o; split; [intros []|].
    intros (x & y & k & j & r & _ & _ & _ & _ & _ & _ & Hn).
    now destruct (Z.to_nat j).
  - cbn [string_forallb] in Hdig; apply andb_true_iff in Hdig as [Hc Hr].
    pose proof (pattern_modules_nonneg r Hr) as Hrest.
    unfold isdigit, between in Hc; apply andb_true_iff in Hc as [Hlo Hhi].
    apply Z.leb_le in Hlo, Hhi.
    cbn [draw_pattern pattern_modules pattern_bars] in *.
    cbv zeta.
    unfold Int32.mul, Int32.add.
    rewrite (wrap_small ((ord c - 48) * cv_moduleWidth cv))
      by (unfold Int32.INT_MIN, Int32.INT_MAX; nia).
    rewrite (wrap_small (cx + (ord c - 48) * cv_moduleWidth cv))
      by (unfold Int32.INT_MIN, Int32.INT_MAX; nia).
    rewrite Hbar.
    destruct (IH (idx + 1) (cx + (ord c - 48) * cv_moduleWidth cv) (negb bar))
      as [Hsnd Hin]; try assumption; try lia; try nia.
    { rewrite <- Hbar; unfold Int32.rem.
      pose proof (Z.rem_bound_pos idx 2 ltac:(lia) ltac:(lia)) as B1.
      pose proof (Z.rem_bound_pos (idx + 1) 2 ltac:(lia) ltac:(lia)) as B2.
      pose proof (Z.quot_rem' idx 2) as Q1.
      pose proof (Z.quot_rem' (idx + 1) 2) as Q2.
      destruct (Z.eqb_spec (Z.rem (idx + 1) 2) 0);
        destruct (Z.eqb_spec (Z.rem idx 2) 0); cbn [negb]; try reflexivity;
        lia. }
    destruct (draw_pattern cv r (idx + 1)
                (cx + (ord c - 48) * cv_moduleWidth cv)) as [more cx'].
    cbn [fst snd] in *.
    split; [lia|].
    intros o; rewrite in_app_iff, painted_from_app, repeat_length, Hin.
    rewrite painted_from_repeat by assumption.
    rewrite Z2Nat.id by lia.
    replace (cx + cv_moduleWidth cv * (ord c - 48))
      with (cx + (ord c - 48) * cv_moduleWidth cv) by lia.
    destruct bar.
    + rewrite draw_bar_in by (try assumption; try lia; nia).
      split; [intros [H|H]; [left; split; [reflexivity | exact H] | now right]
             | intros [[_ H]|H]; [now left | now right]].
    + split; [intros [[]|H]; now right
             | intros [[H _]|H]; [discriminate | now right]].
Qed.

Lemma table_patterns_digits (s : Z) :
  string_forallb isdigit (nth (Z.to_nat s) CODE128_PATTERNS EmptyString) = true.
Proof.
  assert (H : forallb (string_forallb isdigit) CODE128_PATTERNS = true)
    by (vm_compute; reflexivity).
  rewrite forallb_forall in H.
  destruct (nth_in_or_default (Z.to_nat s) CODE128_PATTERNS EmptyString)
    as [Hin| ->]; [now apply H | reflexivity].
Qed.

Lemma symbol_modules_nonneg (s : Z) : 0 <= symbol_modules s.
Proof. apply pattern_modules_nonneg, table_patterns_digits. Qed.

Lemma drawn_modules_nonneg (symbols : list Z) : 0 <= drawn_modules symbols.
Proof.
  induction symbols as [|s rest IH]; cbn [drawn_modules fold_right]; [lia|].
  fold (drawn_modules rest); pose proof (symbol_modules_nonneg s); lia.
Qed.

Lemma symbols_bars_length (symbols : list Z) :
  Z.of_nat (List.length (symbols_bars symbols)) = drawn_modules symbols.
Proof.
  induction symbols as [|s rest IH]; [reflexivity|].
  unfold symbols_bars in *; cbn [flat_map drawn_modules fold_right].
  fold (drawn_modules rest).
  rewrite length_app, Nat2Z.inj_add, IH, pattern_bars_length
    by apply table_patterns_digits.
  reflexivity.
Qed.

(** The expansions on a sequence of symbols that ends before the right
    margin paint the modules of the symbols, one symbol after the other. *)
Lemma draw_symbols_spec (symbols : list Z) :
  forall currentX : Z,
    cv_margin cv <= currentX ->
    currentX + cv_moduleWidth cv * drawn_modules symbols
    <= cv_width cv - cv_margin cv ->
    snd (draw_symbols cv symbols currentX)
    = currentX + cv_moduleWidth cv * drawn_modules symbols
    /\ forall o,
         In o (fst (draw_symbols cv symbols currentX))
         <-> painted_from cv currentX (symbols_bars symbols) o.
Proof using Hmargin Hmodule Hwidth Hheight Hrow.
  induction symbols as [|s rest IH]; intros cx Hcx Hend.
  - cbn [draw_symbols drawn_modules fold_right symbols_bars flat_map fst snd].
    split; [lia|]; intros o; split; [intros []|].
    intros (x & y & k & j & r & _ & _ & _ & _ & _ & _ & Hn).
    now destruct (Z.to_nat j).
  - cbn [draw_symbols drawn_modules fold_right] in *.
    fold (drawn_modules rest) in *.
    pose proof (drawn_modules_nonneg rest) as Hrest.
    pose proof (symbol_modules_nonneg s) as Hs.
    unfold symbols_bars; cbn [flat_map]; fold (symbols_bars rest).
    unfold symbol_modules in *.
    set (pat := nth (Z.to_nat s) CODE128_PATTERNS EmptyString) in *.
    destruct (draw_pattern_spec pat 0 cx true) as [Hsnd Hin];
      [apply table_patterns_digits | lia | reflexivity | assumption | nia |].
    destruct (draw_pattern cv pat 0 cx) as [writes cx1].
    cbn [fst snd] in *; subst cx1.
    destruct (IH (cx + cv_moduleWidth cv * pattern_modules pat))
      as [Hsnd' Hin']; [nia | nia |].
    destruct (draw_symbols cv rest
                (cx + cv_moduleWidth cv * pattern_modules pat))
      as [more cx2].
    cbn [fst snd] in *.
    split; [lia|].
    intros o; rewrite in_app_iff, painted_from_app, Hin, Hin'.
    rewrite pattern_bars_length by apply table_patterns_digits.
    reflexivity.
Qed.

(** A byte of a bar lies in the buffer when the modules end at the
    right margin. *)
Lemma painted_in_buffer (bars : list bool) (o : Z) :
  cv_margin cv + cv_moduleWidth cv * Z.of_nat (List.length bars)
  <= cv_width cv - cv_margin cv ->
  painted cv bars o -> 0 <= o < cv_rowSize cv * cv_height cv.
Proof using Hmargin Hmodule Hwidth Hheight Hrow.
  intros Hend (x & y & k & j & r & Ho & Hk & Hy & Hx & Hr & Hj & Hn).
  apply nth_true_lt in Hn.
  pose proof (module_column (cv_moduleWidth cv) j
                (Z.of_nat (List.length bars)) r Hmodule Hj ltac:(lia) Hr)
    as Hcol.
  assert (Hxw : 0 <= x < cv_width cv) by lia.
  pose proof (Z.mul_nonneg_nonneg y (cv_rowSize cv) ltac:(lia) ltac:(lia)).
  pose proof (mul_succ_le y (cv_height cv) (cv_rowSize cv)
                ltac:(lia) ltac:(lia)).
  rewrite (Z.mul_comm (cv_rowSize cv) (cv_height cv)); lia.
Qed.

(** The pixel a byte of the buffer belongs to is determined by its
    offset, so a byte of the pixel (x, y) belongs to a bar exactly when
    the row lies between the margins and the column in a bar module. *)
Lemma painted_pixel (bars : list bool) (x y k : Z) :
  cv_margin cv + cv_moduleWidth cv * Z.of_nat (List.length bars)
  <= cv_width cv - cv_margin cv ->
  0 <= x < cv_width cv -> 0 <= k < 3 ->
  painted cv bars (y * cv_rowSize cv + 3 * x + k)
  <-> cv_margin cv <= y < cv_height cv - cv_margin cv
      /\ cv_margin cv <= x < cv_width cv - cv_margin cv
      /\ nth (Z.to_nat ((x - cv_margin cv) / cv_moduleWidth cv)) bars false
         = true.
Proof using Hmargin Hmodule Hwidth Hheight Hrow.
  intros Hend Hx Hk; unfold painted, painted_from; split.
  - intros (x' & y' & k' & j & r & Ho & Hk' & Hy & Hx' & Hr & Hj & Hn).
    pose proof (nth_true_lt _ _ Hn) as Hlt.
    pose proof (module_column (cv_moduleWidth cv) j
                  (Z.of_nat (List.length bars)) r Hmodule Hj ltac:(lia) Hr)
      as Hcol.
    assert (Hxw : 0 <= x' < cv_width cv) by lia.
    assert (Ey : y = y').
    { destruct (Z.lt_trichotomy y y') as [Hlt'|[E|Hgt]]; [|exact E|].
      - pose proof (mul_succ_le y y' (cv_rowSize cv) ltac:(lia) ltac:(lia)).
        lia.
      - pose proof (mul_succ_le y' y (cv_rowSize cv) ltac:(lia) ltac:(lia)).
        lia. }
    subst y'.
    assert (Ex : x = x') by lia.
    subst x'.
    assert (Ej : (x - cv_margin cv) / cv_moduleWidth cv = j).
    { symmetry; apply (Z.div_unique_pos _ _ j r); lia. }
    rewrite Ej.
    repeat split; try assumption; lia.
  - intros (Hy & Hxm & Hn).
    exists x, y, k, ((x - cv_margin cv) / cv_moduleWidth cv),
      ((x - cv_margin cv) mod cv_moduleWidth cv).
    pose proof (Z.div_mod (x - cv_margin cv) (cv_moduleWidth cv) ltac:(lia))
      as Hdm.
    pose proof (Z.mod_pos_bound (x - cv_margin cv) (cv_moduleWidth cv) Hmodule)
      as Hmod.
    repeat split; try assumption; try lia.
    apply Z.div_pos; lia.
Qed.

End Geometry.

Variable rt : Runtime.

(** The locals the drawing loops of a successful run read are the ones
    the header was written from. *)
Lemma pure_c_written_canvas (d path : string) (width height margin : Z)
    (written : Written) :
  barcode_generate_pure_c rt (Some d) (Some path) width height margin
  = (0, Some written) ->
  let rowSize :=
    Int32.mul
      (Int32.div (Int32.add (Int32.mul (biWidth (w_info written)) 3) 3) 4) 4 in
  w_canvas written
  = mkCanvas rowSize (biWidth (w_info written)) (biHeight (w_info written))
      margin (w_moduleWidth written)
  /\ biSizeImage (w_info written)
     = Int32.mul rowSize (biHeight (w_info written)).
Proof.
  unfold barcode_generate_pure_c.
  destruct (string_empty (c_str d)); [discriminate|].
  destruct (80 <? Int32.of_size (strlen d)); [discriminate|].
  cbv zeta.
  destruct (negb (malloc_ok rt _)); [discriminate|].
  destruct (negb (fopen_ok rt path)); [discriminate|].
  intros E; injection E as <-.
  cbn [w_canvas w_info w_moduleWidth biWidth biHeight biSizeImage].
  split; reflexivity.
Qed.

(** What a successful run on a request of at most 10000 pixels each way
    and a margin of at most 1000 draws on: the canvas of the header, with
    rows padded to 4 bytes, and modules that end on the right margin. *)
Lemma pure_c_canvas_sizes (d path : string) (width height margin : Z)
    (written : Written) :
  Z.of_nat (strlen d) <= Int32.INT_MAX ->
  Z.abs width <= 10000 ->
  0 <= margin <= 1000 ->
  height <= 10000 ->
  barcode_generate_pure_c rt (Some d) (Some path) width height margin
  = (0, Some written) ->
  let cv := w_canvas written in
  cv_width cv = biWidth (w_info written)
  /\ cv_height cv = biHeight (w_info written)
  /\ cv_margin cv = margin
  /\ cv_moduleWidth cv = w_moduleWidth written
  /\ biSizeImage (w_info written) = cv_rowSize cv * cv_height cv
  /\ 2 <= cv_moduleWidth cv
  /\ 70 <= cv_width cv <= 12000
  /\ 60 <= cv_height cv <= 10000
  /\ 3 * cv_width cv <= cv_rowSize cv <= 3 * cv_width cv + 3
  /\ cv_rowSize cv mod 4 = 0
  /\ cv_margin cv + cv_moduleWidth cv * drawn_modules (w_symbols written)
     = cv_width cv - cv_margin cv.
Proof.
  intros Hfit Hw Hm Hh E; cbv zeta.
  destruct (pure_c_written_canvas _ _ _ _ _ _ E) as [Hcv Hsize].
  cbv zeta in Hcv, Hsize.
  destruct (pure_c_written_size rt d path width height margin written
              Hfit ltac:(lia) ltac:(lia) E) as (_ & Emw & EW & EH).
  pose proof (generated_modules rt _ _ _ _ _ _ Hfit E) as Emod.
  assert (Hlen : Z.of_nat (strlen d) <= 80).
  { destruct (generated_symbols_exact rt _ _ _ _ _ _ E) as (Hl & _).
    now rewrite of_size_small in Hl. }
  cbv zeta in EW, Emw.
  set (T := 11 + Z.of_nat (strlen d) * 11 + 11 + 13) in *.
  assert (HT : 35 <= T <= 915) by (unfold T; lia).
  clearbody T.
  assert (Hmw : 2 <= w_moduleWidth written) by lia.
  assert (HW : 70 <= biWidth (w_info written) <= 12000).
  { rewrite EW.
    destruct (Z.le_gt_cases 2 (Z.quot (width - 2 * margin) T)) as [Hge|Hlt].
    - rewrite Z.max_r by lia.
      destruct (quot_nonneg_bounds (width - 2 * margin) T) as [_ Hq].
      + destruct (Z.le_gt_cases 0 (width - 2 * margin)) as [Hp|Hn]; [lia|].
        destruct (quot_neg_bounds (width - 2 * margin) T); lia.
      + lia.
      + nia.
    - rewrite Z.max_l by lia; lia. }
  assert (HH : 60 <= biHeight (w_info written) <= 10000) by lia.
  rewrite Hcv, Hsize.
  cbn [cv_width cv_height cv_margin cv_moduleWidth cv_rowSize].
  rewrite Emod.
  set (W := biWidth (w_info written)) in *.
  set (H := biHeight (w_info written)) in *.
  set (mw := w_moduleWidth written) in *.
  clearbody W H mw.
  unfold Int32.mul, Int32.add, Int32.div.
  rewrite (wrap_small (W * 3))
    by (unfold Int32.INT_MIN, Int32.INT_MAX; lia).
  rewrite (wrap_small (W * 3 + 3))
    by (unfold Int32.INT_MIN, Int32.INT_MAX; lia).
  rewrite Z.quot_div_nonneg by lia.
  pose proof (Z.div_mod (W * 3 + 3) 4 ltac:(lia)) as Hdm.
  pose proof (Z.mod_pos_bound (W * 3 + 3) 4 ltac:(lia)) as Hmod.
  set (q := (W * 3 + 3) / 4) in *.
  assert (Hq : 0 <= q <= 9001) by lia.
  clearbody q.
  rewrite (wrap_small q)
    by (unfold Int32.INT_MIN, Int32.INT_MAX; lia).
  rewrite (wrap_small (q * 4))
    by (unfold Int32.INT_MIN, Int32.INT_MAX; lia).
  rewrite (wrap_small (q * 4 * H))
    by (unfold Int32.INT_MIN, Int32.INT_MAX; nia).
  repeat split; try reflexivity; try lia.
  now rewrite Z.mod_mul by lia.
Qed.

Lemma data_symbols_values (s : string) :
  data_symbols s = map value_spec (list_ascii_of_string s).
Proof.
  induction s as [|c s IH]; [reflexivity|].
  cbn [data_symbols list_ascii_of_string map].
  rewrite code128b_value_unsigned.
  pose proof (value_spec_range c) as Hv.
  replace ((0 <=? value_spec c) && (value_spec c <? 106)) with true.
  2:{ symmetry; apply andb_true_iff; split;
      [apply Z.leb_le | apply Z.ltb_lt]; lia. }
  now rewrite IH.
Qed.

(** The checksum of data the encoder accepts, under the start value it
    passes. *)
Lemma calculate_checksum_encoder (d : string) :
  Z.of_nat (strlen d) <= 80 ->
  calculate_checksum d 104 = (104 + weighted_sum 1 (c_str d)) mod 103.
Proof.
  intros Hlen.
  pose proof (weighted_sum_bound (c_str d) 1 ltac:(lia)) as Hb.
  apply calculate_checksum_sum;
    [lia | unfold Int32.INT_MAX; lia |].
  unfold strlen in Hlen; unfold Int32.INT_MAX; nia.
Qed.

(** The patterns a successful run expands [DRAW_PATTERN] on are the
    Code 128 symbols of the data. *)
Lemma generated_code128_symbols (d path : string) (w h m : Z)
    (written : Written) :
  Z.of_nat (strlen d) <= Int32.INT_MAX ->
  barcode_generate_pure_c rt (Some d) (Some path) w h m = (0, Some written) ->
  w_symbols written = code128_symbols (c_str d).
Proof.
  intros Hfit E.
  destruct (generated_symbols_exact rt _ _ _ _ _ _ E) as (Hl & _ & ->).
  rewrite of_size_small in * by assumption.
  rewrite Nat2Z.id; unfold strlen at 1; rewrite substring_all.
  rewrite data_symbols_values, calculate_checksum_encoder by assumption.
  reflexivity.
Qed.

(** The bytes a successful run sets to 0 are the bars of the Code 128
    symbols of the data, and they all lie in the buffer. *)
Lemma pure_c_writes_painted (d path : string) (width height margin : Z)
    (written : Written) :
  Z.of_nat (strlen d) <= Int32.INT_MAX ->
  Z.abs width <= 10000 ->
  0 <= margin <= 1000 ->
  height <= 10000 ->
  barcode_generate_pure_c rt (Some d) (Some path) width height margin
  = (0, Some written) ->
  forall o,
    (In o (w_writes written)
     <-> painted (w_canvas written)
           (symbols_bars (code128_symbols (c_str d))) o)
    /\ (In o (w_writes written) -> 0 <= o < biSizeImage (w_info written)).
Proof.
  intros Hfit Hw Hm Hh E o.
  destruct (pure_c_canvas_sizes d path width height margin written
              Hfit Hw Hm Hh E)
    as (_ & _ & Emargin & _ & Esize & Hmw & HW & HH & HR & _ & Hend).
  cbv zeta in *.
  rewrite <- (generated_code128_symbols d path width height margin written
                Hfit E).
  destruct (draw_symbols_spec (w_canvas written)
              ltac:(lia) ltac:(lia) ltac:(lia) ltac:(lia) HR
              (w_symbols written) (cv_margin (w_canvas written)))
    as [_ Hin]; [lia | lia |].
  assert (Hiff : In o (w_writes written)
                 <-> painted (w_canvas written)
                       (symbols_bars (w_symbols written)) o)
    by apply Hin.
  split; [exact Hiff|].
  intros Ho; apply Hiff in Ho.
  rewrite Esize.
  apply (painted_in_buffer (w_canvas written)
           ltac:(lia) ltac:(lia) ltac:(lia) ltac:(lia) HR
           (symbols_bars (w_symbols written)));
    [rewrite symbols_bars_length; lia | exact Ho].
Qed.

End BitmapProofs.

(** With a negative margin the loops start before the first row and the
    first column, and the guard on the offset only looks at the end of
    the buffer: the first write of a run with margin -1 lands 827 bytes
    before it, where the behaviour of the C program is undefined.  The
    properties of the pixels are stated for margins that are not
    negative. *)
Example negative_margin_leaves_buffer :
  exists written,
    PureC.barcode_generate_pure_c runtime_ok (Some "A") (Some "out.bmp")
      300 60 (-1)
    = (0, Some written)
    /\ hd_error (PureC.w_writes written) = Some (-827).
Proof.
  eexists; split; [vm_compute; reflexivity|].
  lazy; reflexivity.
Qed.

(** ** The dependency-free encoder: the checksum claim *)

Section ChecksumClaim.

Import Char PureC.

(** C4.  Code 128 checksum: the checksum of [data] under a start value
    is (start + the sum over the 1-indexed positions i of value(data[i])
    * i) mod 103 and lies in [0,102], for every start value that is not
    negative and data whose sum stays within [int]; value(c) is ord(c) -
    32 for c in [32,127] and 0 for any other character.  The encoder is
    the only caller: it passes the START-B value 104 and data of at most
    80 characters, for which the formula and the range hold whatever the
    characters; and, for a request of at most 10000 pixels each way and a
    margin from 0 to 1000, the bytes it sets to 0 in the bitmap are the
    bars of START-B, the value of each character, this checksum and STOP,
    in the rows between the top and bottom margins. *)
Theorem checksum_formula (data : string) (startCode : Z) :
  0 <= startCode ->
  Z.of_nat (strlen data) <= Int32.INT_MAX ->
  startCode + weighted_sum 1 (c_str data) <= Int32.INT_MAX ->
  calculate_checksum data startCode
  = (startCode + weighted_sum 1 (c_str data)) mod 103
  /\ 0 <= calculate_checksum data startCode <= 102
  /\ (forall c, code128b_value c = value_spec c)
  /\ (forall d,
        Z.of_nat (strlen d) <= 80 ->
        calculate_checksum d 104 = (104 + weighted_sum 1 (c_str d)) mod 103
        /\ 0 <= calculate_checksum d 104 <= 102)
  /\ (forall rt d path w h m written,
        Z.of_nat (strlen d) <= Int32.INT_MAX ->
        Z.abs w <= 10000 -> 0 <= m <= 1000 -> h <= 10000 ->
        barcode_generate_pure_c rt (Some d) (Some path) w h m
        = (0, Some written) ->
        Z.of_nat (strlen d) <= 80
        /\ forall o,
             In o (w_writes written)
             <-> painted (w_canvas written)
                   (symbols_bars
                      (104 :: map value_spec (list_ascii_of_string (c_str d))
                           ++ [calculate_checksum d 104; 106])%list) o).
Proof.
  intros Hs Hl Hb.
  rewrite (calculate_checksum_sum data startCode Hs Hl Hb).
  split; [reflexivity|]; split.
  { pose proof (Z.mod_pos_bound (startCode + weighted_sum 1 (c_str data)) 103).
    lia. }
  split; [apply code128b_value_unsigned|]; split.
  - intros d Hd; rewrite (calculate_checksum_encoder d Hd).
    split; [reflexivity|].
    pose proof (Z.mod_pos_bound (104 + weighted_sum 1 (c_str d)) 103); lia.
  - intros rt d path w h m written Hfit Hw Hm Hh E.
    assert (Hlen : Z.of_nat (strlen d) <= 80).
    { destruct (generated_symbols_exact rt _ _ _ _ _ _ E) as (Hlen & _).
      now rewrite of_size_small in Hlen. }
    split; [assumption|]; intros o.
    rewrite (calculate_checksum_encoder d Hlen).
    apply (pure_c_writes_painted rt d path w h m written Hfit Hw Hm Hh E o).
Qed.

End ChecksumClaim.

Lemma checksum_formula_witness :
  PureC.calculate_checksum "PART12345" 104 = 15
  /\ 0 <= PureC.calculate_checksum "PART12345" 104 <= 102.
Proof.
  pose proof (checksum_formula "PART12345" 104) as H.
  destruct H as (H1 & H2 & _).
  - lia.
  - vm_compute; discriminate.
  - vm_compute; discriminate.
  - split; [rewrite H1; reflexivity | exact H2].
Defined.


Lemma pure_c_length_cap_witness :
  PureC.barcode_generate_pure_c runtime_ok (Some (string_of_As 81))
    (Some "out.bmp") 300 100 10 = (-2, None)
  /\ PureC.barcode_generate_c runtime_ok EmptyString (Some (string_of_As 81)) 0 300 100 10
       (Some "out.bmp")
     = (-2, "Data too long (max 80 characters)", None)
  /\ BarcodeGenerator.validateData (PureC.c_str (string_of_As 81)) CODE_128 = true.
Proof.
  apply (pure_c_length_cap runtime_ok EmptyString (string_of_As 81) "out.bmp" 0 300 100 10).
  - vm_compute; lia.
  - vm_compute; discriminate.
Defined.

(** 80 characters still pass. *)
Example pure_c_length_80 :
  fst (PureC.barcode_generate_pure_c runtime_ok (Some (string_of_As 80))
         (Some "out.bmp") 300 100 10) = 0.
Proof. vm_compute; reflexivity. Qed.

(** ** Dimension fidelity, path by path *)

(** The dependency-free path does not write the requested size: asked
    for 300 by 100 with margin 10 it writes 296 by 100 (46 modules of 6
    pixels and two margins), and asked for 300 by 50 it writes 296 by 60. *)
Lemma pure_c_dimension_counterexample :
  exists written1 written2,
    PureC.barcode_generate_pure_c runtime_ok (Some "A") (Some "out.bmp") 300 100 10
    = (0, Some written1)
    /\ PureC.biWidth (PureC.w_info written1) = 296
    /\ PureC.biHeight (PureC.w_info written1) = 100
    /\ PureC.barcode_generate_pure_c runtime_ok (Some "A") (Some "out.bmp") 300 50 10
       = (0, Some written2)
    /\ PureC.biWidth (PureC.w_info written2) = 296
    /\ PureC.biHeight (PureC.w_info written2) = 60
    /\ PureC.biWidth (PureC.w_info written1) <> 300
    /\ PureC.biHeight (PureC.w_info written2) <> 50.
Proof.
  do 2 eexists.
  split; [vm_compute; reflexivity|].
  split; [reflexivity|]; split; [reflexivity|].
  split; [vm_compute; reflexivity|].
  split; [reflexivity|]; split; [reflexivity|].
  split; vm_compute; discriminate.
Qed.

(** C2 (amended).  Dimension fidelity holds on the PNG path and not on
    the dependency-free path.  A successful [generate] writes exactly one
    image, of [config.width] by [config.height] pixels, rescaled
    nearest-neighbour when the matrix of the writer has another size.  A
    successful [barcode_generate_pure_c] writes a bitmap whose width is
    the module width times the module count plus both margins, with the
    module count 35 + 11 * length and the module width the larger of 2 and
    (width - 2 * margin) / module count, and whose height is the larger
    of the requested height and 60. *)
Theorem dimension_fidelity_by_path :
  (forall (env : BarcodeGenerator.Collaborators) (lastError0 : ErrorInfo)
          (data : string) (config : BarcodeConfig) (outputPath : string),
      BarcodeGenerator.returned
        (BarcodeGenerator.generate env lastError0 data config outputPath) = true ->
      exists (matrix : BarcodeGenerator.BitMatrix) (pixels : list Z),
        BarcodeGenerator.writer_encode env
          (BarcodeGenerator.toZXingFormat (type config)) data
          (width config) (height config) = inl matrix
        /\ BarcodeGenerator.events
             (BarcodeGenerator.generate env lastError0 data config outputPath)
           = [ BarcodeGenerator.EvEncode
                 (BarcodeGenerator.toZXingFormat (type config)) data
                 (width config) (height config);
               BarcodeGenerator.EvWritePng outputPath
                 (width config) (height config) 1 pixels (width config) ]
        /\ List.length pixels = Z.to_nat (width config * height config)
        /\ pixels
           = (if negb (BarcodeGenerator.bm_width matrix =? width config)
                 || negb (BarcodeGenerator.bm_height matrix =? height config)
              then BarcodeGenerator.scaleImage
                     (BarcodeGenerator.matrix_pixels matrix)
                     (BarcodeGenerator.bm_width matrix)
                     (BarcodeGenerator.bm_height matrix)
                     (width config) (height config)
              else BarcodeGenerator.matrix_pixels matrix))
  /\ (forall (rt : PureC.Runtime) (d path : string) (width height margin : Z)
             (written : PureC.Written),
        Z.of_nat (PureC.strlen d) <= Int32.INT_MAX ->
        Z.abs width <= 1000000000 ->
        Z.abs margin <= 500000000 ->
        PureC.barcode_generate_pure_c rt (Some d) (Some path) width height margin
        = (0, Some written) ->
        let totalModules := 11 + Z.of_nat (PureC.strlen d) * 11 + 11 + 13 in
        let moduleWidth := Z.max 2 (Z.quot (width - 2 * margin) totalModules) in
        PureC.w_path written = path
        /\ PureC.w_moduleWidth written = moduleWidth
        /\ PureC.biWidth (PureC.w_info written)
           = moduleWidth * totalModules + 2 * margin
        /\ PureC.biHeight (PureC.w_info written) = Z.max height 60).
Proof.
  split.
  - intros env e0 data config outputPath.
    apply generate_success_dimensions.
  - intros rt d path width height margin written.
    apply pure_c_written_size.
Qed.

Lemma dimension_fidelity_by_path_witness :
  (exists pixels,
     BarcodeGenerator.events
       (BarcodeGenerator.generate checker_writer no_error "A" png_4x3 "out.png")
     = [ BarcodeGenerator.EvEncode BarcodeGenerator.ZX_Code128 "A" 4 3;
         BarcodeGenerator.EvWritePng "out.png" 4 3 1 pixels 4 ]
     /\ List.length pixels = 12%nat)
  /\ (exists written,
        PureC.barcode_generate_pure_c runtime_ok (Some "A") (Some "out.bmp")
          300 100 10 = (0, Some written)
        /\ PureC.biWidth (PureC.w_info written) = 6 * 46 + 2 * 10
        /\ PureC.biHeight (PureC.w_info written) = 100).
Proof.
  split.
  - destruct (proj1 dimension_fidelity_by_path checker_writer no_error
                "A" png_4x3 "out.png") as (matrix & pixels & _ & Hev & Hlen & _).
    + vm_compute; reflexivity.
    + exists pixels; split; [exact Hev | exact Hlen].
  - eexists; split; [vm_compute; reflexivity|].
    match goal with
    | |- PureC.biWidth (PureC.w_info ?written) = _ /\ _ =>
        destruct (proj2 dimension_fidelity_by_path runtime_ok "A" "out.bmp"
                    300 100 10 written) as (_ & _ & Hw & Hh)
    end.
    + vm_compute; discriminate.
    + vm_compute; discriminate.
    + vm_compute; discriminate.
    + vm_compute; reflexivity.
    + split; [exact Hw | exact Hh].
Defined.

(** ** The grid layout *)

Section GridProofs.

Import CreoComBridge.
Local Open Scope float_scope.

Lemma of_int_zero : Double.of_int 0 = 0.
Proof. reflexivity. Qed.

(** Zero times a finite double is a zero. *)
Lemma mul_zero_finite (c : float) :
  Double.is_finite c = true -> exists s, Prim2SF (0 * c) = S754_zero s.
Proof.
  unfold Double.is_finite; intros Hc.
  rewrite mul_spec.
  change (Prim2SF 0) with (S754_zero false).
  destruct (Prim2SF c) as [s|s| |s m e]; try discriminate;
    eexists; reflexivity.
Qed.

(** Adding a zero, or subtracting one, leaves a double as it is, unless
    the double is the negative zero. *)
Lemma add_zero (a z : float) (s : bool) :
  Prim2SF z = S754_zero s -> Double.is_neg_zero a = false -> a + z = a.
Proof.
  unfold Double.is_neg_zero; intros Hz Ha.
  apply Prim2SF_inj; rewrite add_spec, Hz.
  destruct (Prim2SF a) as [[]|sa| |sa m e]; try discriminate;
    destruct s; reflexivity.
Qed.

Lemma sub_zero (a z : float) (s : bool) :
  Prim2SF z = S754_zero s -> Double.is_neg_zero a = false -> a - z = a.
Proof.
  unfold Double.is_neg_zero; intros Hz Ha.
  apply Prim2SF_inj; rewrite sub_spec, Hz.
  destruct (Prim2SF a) as [[]|sa| |sa m e]; try discriminate;
    destruct s; reflexivity.
Qed.

Lemma clamp_columns (columns : Z) :
  (if (columns <? 1)%Z then 1%Z else columns) = Z.max columns 1.
Proof. destruct (Z.ltb_spec columns 1); lia. Qed.

Lemma grid_position_formula_eq
    (index columns : Z) (spacing startX startY width height : float) :
  (0 <= index <= Int32.INT_MAX)%Z ->
  calculateGridPosition index columns spacing startX startY width height
  = {| x := startX
            + Double.of_int (index mod Z.max columns 1) * (width + spacing);
       y := startY
            - Double.of_int (index / Z.max columns 1) * (height + spacing) |}.
Proof.
  intros [H0 H1]; unfold calculateGridPosition.
  rewrite clamp_columns.
  set (c := Z.max columns 1).
  assert (Hc : (1 <= c)%Z) by (unfold c; lia).
  unfold Int32.rem, Int32.div.
  rewrite Z.rem_mod_nonneg, Z.quot_div_nonneg by lia.
  rewrite wrap_small; [reflexivity|].
  unfold Int32.INT_MIN; split.
  - pose proof (Z.div_pos index c); lia.
  - apply Z.le_trans with index; [|assumption].
    apply Z.div_le_upper_bound; nia.
Qed.

Lemma grid_position_index_zero
    (columns : Z) (spacing startX startY width height : float) :
  Double.is_finite (width + spacing) = true ->
  Double.is_finite (height + spacing) = true ->
  Double.is_neg_zero startX = false ->
  Double.is_neg_zero startY = false ->
  calculateGridPosition 0 columns spacing startX startY width height
  = {| x := startX; y := startY |}.
Proof.
  intros Hw Hh Hx Hy.
  rewrite grid_position_formula_eq by (unfold Int32.INT_MAX; lia).
  rewrite Z.mod_0_l, Z.div_0_l by lia.
  rewrite of_int_zero.
  destruct (mul_zero_finite _ Hw) as [sx Ex].
  destruct (mul_zero_finite _ Hh) as [sy Ey].
  now rewrite (add_zero _ _ _ Ex Hx), (sub_zero _ _ _ Ey Hy).
Qed.

(** C3 (amended).  Grid layout formula: for every index from 0 to
    INT_MAX the position is x = startX + (index mod max(columns,1)) *
    (width + spacing) and y = startY - (index div max(columns,1)) *
    (height + spacing), computed in double precision; index 0 yields
    (startX, startY) whenever width + spacing and height + spacing are
    finite and neither start coordinate is the negative zero; and the
    position of index 5 in 3 columns of 50 by 50 cells spaced by 10 from
    the origin is (120, -60). *)
Theorem grid_position_formula
    (index columns : Z) (spacing startX startY width height : float) :
  (0 <= index <= Int32.INT_MAX)%Z ->
  calculateGridPosition index columns spacing startX startY width height
  = {| x := startX
            + Double.of_int (index mod Z.max columns 1) * (width + spacing);
       y := startY
            - Double.of_int (index / Z.max columns 1) * (height + spacing) |}
  /\ (Double.is_finite (width + spacing) = true ->
      Double.is_finite (height + spacing) = true ->
      Double.is_neg_zero startX = false ->
      Double.is_neg_zero startY = false ->
      calculateGridPosition 0 columns spacing startX startY width height
      = {| x := startX; y := startY |})
  /\ calculateGridPosition 5 3 10 0 0 50 50 = {| x := 120; y := -60 |}.
Proof.
  intros Hi; split; [now apply grid_position_formula_eq|].
  split; [apply grid_position_index_zero | reflexivity].
Qed.

End GridProofs.

(** Index 0 does not always land on the start: with a cell width and a
    spacing of 2^1023 each, both finite, their sum overflows to infinity,
    zero times infinity is NaN, and the position is (NaN, NaN), not (1, 1). *)
Lemma grid_index_zero_counterexample :
  CreoComBridge.calculateGridPosition 0 1 0x1p1023 1 1 0x1p1023 0x1p1023
  = {| CreoComBridge.x := nan; CreoComBridge.y := nan |}
  /\ CreoComBridge.calculateGridPosition 0 1 0x1p1023 1 1 0x1p1023 0x1p1023
     <> {| CreoComBridge.x := 1; CreoComBridge.y := 1 |}.
Proof.
  split; [reflexivity|].
  intros E; apply (f_equal CreoComBridge.x) in E.
  apply (f_equal PrimFloat.is_nan) in E.
  vm_compute in E; discriminate.
Qed.

Lemma grid_position_formula_witness :
  CreoComBridge.calculateGridPosition 7 3 10 100 200 50 40
  = {| CreoComBridge.x := 160; CreoComBridge.y := 100 |}
  /\ CreoComBridge.calculateGridPosition 0 3 10 100 200 50 40
     = {| CreoComBridge.x := 100; CreoComBridge.y := 200 |}.
Proof.
  destruct (grid_position_formula 7 3 10 100 200 50 40) as (H1 & H2 & _).
  - unfold Int32.INT_MAX; lia.
  - split.
    + rewrite H1; reflexivity.
    + apply H2; reflexivity.
Defined.

(** ** Batch insertion *)

Section BatchInsertProofs.

Import CreoComBridge.

Context {St : Type}.
Variable b : Bridge St.

Lemma filter_count_le {A} (p : A -> bool) (l : list A) :
  (List.length (filter p l) <= List.length l)%nat.
Proof.
  induction l as [|a l IH]; cbn; [lia|].
  destruct (p a); cbn; lia.
Qed.

Lemma filter_count_split (l : list InsertCall) :
  (List.length (filter call_ok l) + List.length (filter call_failed l)
   = List.length l)%nat.
Proof.
  induction l as [|c l IH]; cbn; [reflexivity|].
  unfold call_failed at 1; destruct (call_ok c); cbn; lia.
Qed.

(** One turn of either loop extends the log by the call just made and
    keeps the result equal to the summary of the log. *)
Lemma tally_step (total : Z) (calls : list InsertCall) (ok : bool)
    (path : string) (px py pw ph : float) (st : St) :
  Z.of_nat (List.length calls) + 1 <= Int32.INT_MAX ->
  tally b (summary_of total calls) ok path st
  = summary_of total
      (calls ++ [mkInsertCall path px py pw ph ok (m_lastError b st)]).
Proof.
  intros Hk.
  pose proof (filter_count_le call_ok calls) as Hs.
  pose proof (filter_count_le call_failed calls) as Hf.
  unfold tally, summary_of, Int32.add.
  cbn [totalCount successCount failCount failedPaths errorMessages].
  rewrite !filter_app; cbn [filter].
  change (call_failed (mkInsertCall path px py pw ph ok (m_lastError b st)))
    with (negb ok).
  change (call_ok (mkInsertCall path px py pw ph ok (m_lastError b st)))
    with ok.
  destruct ok; cbn [negb];
    rewrite wrap_small by (unfold Int32.INT_MIN; lia);
    rewrite ?app_nil_r, ?map_app, ?length_app;
    cbn [map List.length call_path call_error];
    f_equal; lia.
Qed.

Lemma images_loop_summary (images : list BatchImageInfo) :
  forall (total : Z) (st : St) (calls : list InsertCall),
    Z.of_nat (List.length calls) + Z.of_nat (List.length images)
    <= Int32.INT_MAX ->
    let out := images_loop b images st (summary_of total calls) calls in
    fst (fst out) = summary_of total (snd out)
    /\ map call_path (snd out)
       = (map call_path calls ++ map imagePath images)%list.
Proof.
  induction images as [|img rest IH]; intros total st calls Hk.
  - cbn; rewrite app_nil_r; auto.
  - cbn [images_loop List.length] in *.
    rewrite Nat2Z.inj_succ in Hk.
    destruct (insertImage b st (imagePath img) (img_x img) (img_y img)
                (img_width img) (img_height img)) as [ok st'].
    rewrite (tally_step total calls ok (imagePath img) (img_x img) (img_y img)
               (img_width img) (img_height img) st') by lia.
    destruct (IH total st'
                (calls ++ [mkInsertCall (imagePath img) (img_x img) (img_y img)
                             (img_width img) (img_height img)
                             ok (m_lastError b st')])%list) as (I1 & I2).
    { rewrite length_app; cbn [List.length]; lia. }
    cbv zeta in *; split; [exact I1|].
    rewrite I2, map_app, <- app_assoc; reflexivity.
Qed.

Lemma grid_loop_summary (paths : list string) :
  forall (i : nat) (columns : Z) (params : GridLayoutParams)
         (total : Z) (st : St) (calls : list InsertCall),
    Z.of_nat (List.length calls) + Z.of_nat (List.length paths)
    <= Int32.INT_MAX ->
    let out :=
      grid_loop b paths i columns params st (summary_of total calls) calls in
    fst (fst out) = summary_of total (snd out)
    /\ map call_path (snd out) = (map call_path calls ++ paths)%list.
Proof.
  induction paths as [|path rest IH]; intros i columns params total st calls Hk.
  - cbn; rewrite app_nil_r; auto.
  - cbn [grid_loop List.length] in *.
    rewrite Nat2Z.inj_succ in Hk.
    cbv zeta.
    set (pos := calculateGridPosition _ _ _ _ _ _ _).
    destruct (insertImage b st path (x pos) (y pos)
                (cell_width params) (cell_height params)) as [ok st'].
    rewrite (tally_step total calls ok path (x pos) (y pos)
               (cell_width params) (cell_height params) st') by lia.
    destruct (IH (S i) columns params total st'
                (calls ++ [mkInsertCall path (x pos) (y pos)
                             (cell_width params) (cell_height params)
                             ok (m_lastError b st')])%list) as (I1 & I2).
    { rewrite length_app; cbn [List.length]; lia. }
    cbv zeta in *; split; [exact I1|].
    rewrite I2, map_app, <- app_assoc; reflexivity.
Qed.

Lemma summary_aggregated (calls : list InsertCall) :
  aggregated (List.length calls)
    (summary_of (Z.of_nat (List.length calls)) calls).
Proof.
  pose proof (filter_count_split calls) as Hsplit.
  unfold aggregated, summary_of.
  cbn [totalCount successCount failCount failedPaths errorMessages].
  rewrite !length_map; repeat split; lia.
Qed.

(** The outcome of a batch in full: the result is the summary of the
    log, and the log has one call for each input, in order. *)
Lemma batch_outcome (inputs : list string)
    (out : BatchInsertResult * St * list InsertCall) :
  fst (fst out) = summary_of (Z.of_nat (List.length inputs)) (snd out) ->
  map call_path (snd out) = inputs ->
  aggregated (List.length inputs) (fst (fst out)).
Proof.
  intros Hsum Hlog; rewrite Hsum.
  assert (Hlen : List.length (snd out) = List.length inputs)
    by (rewrite <- Hlog; now rewrite length_map).
  rewrite <- Hlen; apply summary_aggregated.
Qed.

Lemma batchInsertImagesGrid_summary (st : St)
    (imagePaths : list string) (params : GridLayoutParams) :
  Z.of_nat (List.length imagePaths) <= Int32.INT_MAX ->
  let out := batchInsertImagesGrid b st imagePaths params in
  fst (fst out) = summary_of (Z.of_nat (List.length imagePaths)) (snd out)
  /\ map call_path (snd out) = imagePaths.
Proof.
  intros Hp; cbv zeta; unfold batchInsertImagesGrid.
  rewrite of_size_small by assumption.
  destruct imagePaths as [|p0 rest] eqn:E; [split; reflexivity|].
  rewrite <- E in *.
  apply (grid_loop_summary imagePaths 0 _ params _ st []).
  cbn [List.length]; lia.
Qed.

Lemma batchInsertImages_summary (st : St) (images : list BatchImageInfo) :
  Z.of_nat (List.length images) <= Int32.INT_MAX ->
  let out := batchInsertImages b st images in
  fst (fst out) = summary_of (Z.of_nat (List.length images)) (snd out)
  /\ map call_path (snd out) = map imagePath images.
Proof.
  intros Hp; cbv zeta; unfold batchInsertImages.
  rewrite of_size_small by assumption.
  destruct images as [|i0 rest] eqn:E; [split; reflexivity|].
  rewrite <- E in *.
  apply (images_loop_summary images _ st []).
  cbn [List.length]; lia.
Qed.

(** Both loops make the requests one after the other: what they
    return is the summary, the state and the log of the bridge's answers. *)
Lemma images_loop_answers (images : list BatchImageInfo) :
  forall (total : Z) (st : St) (calls : list InsertCall),
    Z.of_nat (List.length calls) + Z.of_nat (List.length images)
    <= Int32.INT_MAX ->
    images_loop b images st (summary_of total calls) calls
    = (summary_of total (calls ++ fst (answers b st images)),
       snd (answers b st images),
       (calls ++ fst (answers b st images))%list).
Proof.
  induction images as [|img rest IH]; intros total st calls Hk.
  - cbn; now rewrite app_nil_r.
  - cbn [images_loop answers List.length] in *.
    rewrite Nat2Z.inj_succ in Hk.
    destruct (insertImage b st (imagePath img) (img_x img) (img_y img)
                (img_width img) (img_height img)) as [ok st1].
    rewrite (tally_step total calls ok (imagePath img) (img_x img) (img_y img)
               (img_width img) (img_height img) st1) by lia.
    rewrite IH by (rewrite length_app; cbn [List.length]; lia).
    destruct (answers b st1 rest) as [more st2]; cbn [fst snd].
    now rewrite <- app_assoc.
Qed.

Lemma grid_loop_answers (paths : list string) :
  forall (i : nat) (cols : Z) (params : GridLayoutParams)
         (total : Z) (st : St) (calls : list InsertCall),
    Z.of_nat (List.length calls) + Z.of_nat (List.length paths)
    <= Int32.INT_MAX ->
    Z.of_nat i + Z.of_nat (List.length paths) <= Int32.INT_MAX ->
    let run :=
      answers b st
        (map (fun '(k, path) =>
                let pos :=
                  calculateGridPosition (Z.of_nat k) cols (spacing params)
                    (startX params) (startY params)
                    (cell_width params) (cell_height params) in
                mkBatchImageInfo path (x pos) (y pos)
                  (cell_width params) (cell_height params))
           (combine (seq i (List.length paths)) paths)) in
    grid_loop b paths i cols params st (summary_of total calls) calls
    = (summary_of total (calls ++ fst run), snd run, (calls ++ fst run)%list).
Proof.
  induction paths as [|path rest IH];
    intros i cols params total st calls Hk Hi.
  - cbn; now rewrite app_nil_r.
  - cbn [grid_loop List.length seq combine map answers] in *.
    rewrite Nat2Z.inj_succ in Hk, Hi.
    cbv zeta.
    rewrite of_size_small by lia.
    cbn [imagePath img_x img_y img_width img_height].
    set (pos := calculateGridPosition _ _ _ _ _ _ _).
    destruct (insertImage b st path (x pos) (y pos)
                (cell_width params) (cell_height params)) as [ok st1].
    rewrite (tally_step total calls ok path (x pos) (y pos)
               (cell_width params) (cell_height params) st1) by lia.
    specialize (IH (S i) cols params total st1
                  (calls ++ [mkInsertCall path (x pos) (y pos)
                               (cell_width params) (cell_height params)
                               ok (m_lastError b st1)])%list).
    cbv zeta in IH; rewrite IH
      by (rewrite ?length_app; cbn [List.length]; lia).
    match goal with
    | |- context [answers b st1 ?reqs] =>
        destruct (answers b st1 reqs) as [more st2]
    end.
    cbn [fst snd]; now rewrite <- app_assoc.
Qed.

Lemma answers_paths (requests : list BatchImageInfo) :
  forall st, map call_path (fst (answers b st requests)) = map imagePath requests.
Proof.
  induction requests as [|r rest IH]; intros st; [reflexivity|].
  cbn [answers].
  destruct (insertImage b st _ _ _ _ _) as [ok st1].
  specialize (IH st1).
  destruct (answers b st1 rest) as [more st2]; cbn in *; now rewrite IH.
Qed.

Lemma grid_requests_paths (imagePaths : list string) (params : GridLayoutParams) :
  map imagePath (grid_requests imagePaths params) = imagePaths.
Proof.
  unfold grid_requests; generalize 0%nat.
  induction imagePaths as [|p l IH]; intros i; [reflexivity|].
  cbn; now rewrite IH.
Qed.

Lemma calculateGridPosition_clamped
    (index cols : Z) (sp sx sy cw ch : float) :
  calculateGridPosition index (if cols <? 1 then 1 else cols) sp sx sy cw ch
  = calculateGridPosition index cols sp sx sy cw ch.
Proof.
  unfold calculateGridPosition.
  destruct (Z.ltb_spec cols 1); [reflexivity|].
  destruct (Z.ltb_spec cols 1); [lia | reflexivity].
Qed.

Lemma batchInsertImagesGrid_answers (st : St)
    (imagePaths : list string) (params : GridLayoutParams) :
  Z.of_nat (List.length imagePaths) <= Int32.INT_MAX ->
  let run := answers b st (grid_requests imagePaths params) in
  batchInsertImagesGrid b st imagePaths params
  = (summary_of (Z.of_nat (List.length imagePaths)) (fst run), snd run, fst run).
Proof.
  intros Hp; cbv zeta; unfold batchInsertImagesGrid.
  rewrite of_size_small by assumption.
  destruct imagePaths as [|p0 rest] eqn:E; [reflexivity|].
  rewrite <- E in *.
  change (mkBatchInsertResult (Z.of_nat (List.length imagePaths)) 0 0 [] [])
    with (summary_of (Z.of_nat (List.length imagePaths)) []).
  pose proof (grid_loop_answers imagePaths 0
                (if columns params <? 1 then 1 else columns params) params
                (Z.of_nat (List.length imagePaths)) st []) as H.
  cbv zeta in H; rewrite H by (cbn [List.length]; lia).
  cbn [app].
  replace (map _ (combine (seq 0 (List.length imagePaths)) imagePaths))
    with (grid_requests imagePaths params); [reflexivity|].
  unfold grid_requests; apply map_ext; intros [k path].
  now rewrite calculateGridPosition_clamped.
Qed.

Lemma batchInsertImages_answers (st : St) (images : list BatchImageInfo) :
  Z.of_nat (List.length images) <= Int32.INT_MAX ->
  let run := answers b st images in
  batchInsertImages b st images
  = (summary_of (Z.of_nat (List.length images)) (fst run), snd run, fst run).
Proof.
  intros Hp; cbv zeta; unfold batchInsertImages.
  rewrite of_size_small by assumption.
  destruct images as [|i0 rest] eqn:E; [reflexivity|].
  rewrite <- E in *.
  change (mkBatchInsertResult (Z.of_nat (List.length images)) 0 0 [] [])
    with (summary_of (Z.of_nat (List.length images)) []).
  rewrite images_loop_answers by (cbn [List.length]; lia).
  reflexivity.
Qed.

(** C6.  Batch aggregation invariant: for every list of N image paths,
    N = 0 included, the result of [batchInsertImagesGrid], and of
    [batchInsertImages], has totalCount = N, successCount + failCount =
    totalCount, and failedPaths and errorMessages both of length
    failCount.  No failure stops the batch: the calls made are the
    answers of [insertImage] to all N requests, made in order, each on
    the bridge as the call before it left it, whatever that call
    answered; the bridge ends in the state the last call left; and the
    result counts the successes among these answers and lists the path
    and the error of each failure. *)
Theorem batch_insert_invariant (st : St)
    (imagePaths : list string) (params : GridLayoutParams)
    (images : list BatchImageInfo) :
  Z.of_nat (List.length imagePaths) <= Int32.INT_MAX ->
  Z.of_nat (List.length images) <= Int32.INT_MAX ->
  (let out := batchInsertImagesGrid b st imagePaths params in
   let run := answers b st (grid_requests imagePaths params) in
   aggregated (List.length imagePaths) (fst (fst out))
   /\ map call_path (snd out) = imagePaths
   /\ fst (fst out) = summary_of (Z.of_nat (List.length imagePaths)) (snd out)
   /\ snd out = fst run
   /\ snd (fst out) = snd run
   /\ fst (fst out) = summary_of (Z.of_nat (List.length imagePaths)) (fst run))
  /\ (let out := batchInsertImages b st images in
      let run := answers b st images in
      aggregated (List.length images) (fst (fst out))
      /\ map call_path (snd out) = map imagePath images
      /\ fst (fst out) = summary_of (Z.of_nat (List.length images)) (snd out)
      /\ snd out = fst run
      /\ snd (fst out) = snd run
      /\ fst (fst out) = summary_of (Z.of_nat (List.length images)) (fst run)).
Proof.
  intros Hp Hi; cbv zeta; split.
  - rewrite (batchInsertImagesGrid_answers st imagePaths params Hp).
    cbn [fst snd].
    assert (Hpaths : map call_path
                       (fst (answers b st (grid_requests imagePaths params)))
                     = imagePaths)
      by (now rewrite answers_paths, grid_requests_paths).
    split; [|repeat split; assumption].
    apply (batch_outcome imagePaths
             (summary_of (Z.of_nat (List.length imagePaths))
                (fst (answers b st (grid_requests imagePaths params))),
              snd (answers b st (grid_requests imagePaths params)),
              fst (answers b st (grid_requests imagePaths params))));
      [reflexivity | exact Hpaths].
  - rewrite (batchInsertImages_answers st images Hi).
    cbn [fst snd].
    assert (Hpaths : map call_path (fst (answers b st images))
                     = map imagePath images) by apply answers_paths.
    split; [|repeat split; assumption].
    pose proof (batch_outcome (map imagePath images)
                  (summary_of (Z.of_nat (List.length images))
                     (fst (answers b st images)),
                   snd (answers b st images),
                   fst (answers b st images))) as H.
    rewrite length_map in H; apply H; [reflexivity | exact Hpaths].
Qed.

End BatchInsertProofs.

Lemma batch_insert_invariant_witness :
  CreoComBridge.batchInsertImagesGrid picky_bridge EmptyString
    ["a.png"; EmptyString; "c.png"] grid_3
  = (CreoComBridge.mkBatchInsertResult 3 2 1 [EmptyString]
       ["Image path cannot be empty"],
     "Image path cannot be empty",
     fst (answers picky_bridge EmptyString
            (grid_requests ["a.png"; EmptyString; "c.png"] grid_3)))
  /\ map CreoComBridge.call_ok
       (snd (CreoComBridge.batchInsertImagesGrid picky_bridge EmptyString
               ["a.png"; EmptyString; "c.png"] grid_3))
     = [true; false; true]
  /\ aggregated 3
       (fst (fst (CreoComBridge.batchInsertImagesGrid picky_bridge EmptyString
                    ["a.png"; EmptyString; "c.png"] grid_3)))
  /\ aggregated 0 (fst (fst (CreoComBridge.batchInsertImages picky_bridge EmptyString []))).
Proof.
  destruct (batch_insert_invariant picky_bridge EmptyString ["a.png"; EmptyString; "c.png"] grid_3 [])
    as ((H1 & _ & _ & H4 & _) & (H3 & _)).
  - vm_compute; discriminate.
  - vm_compute; discriminate.
  - split; [reflexivity|].
    split; [rewrite H4; reflexivity|].
    split; [exact H1 | exact H3].
Defined.

(** ** The batch processor *)

Section BatchProcessorProofs.

Import BatchProcessor.

Context {W : Type}.
Variable fs : FileSystem W.

Lemma progress_reports_cons (current total : Z) (n : nat) :
  progress_reports current total (S n)
  = (current + 1, total) :: progress_reports (current + 1) total n.
Proof.
  unfold progress_reports; cbn [seq map]; f_equal.
  rewrite <- seq_shift, map_map.
  apply map_ext; intros k; f_equal; lia.
Qed.

Lemma process_loop_spec (queue : list string) :
  forall (cb : option (ProgressCallback W)) (total current : Z) (w : W)
         (results : list BatchResult) (calls : list (Z * Z)),
    0 <= current ->
    current + Z.of_nat (List.length queue) <= Int32.INT_MAX ->
    Forall result_shape results ->
    let out := process_loop fs queue cb total current w results calls in
    map filePath (fst (fst out)) = (map filePath results ++ queue)%list
    /\ Forall result_shape (fst (fst out))
    /\ snd out
       = (calls ++ match cb with
                   | Some _ => progress_reports current total (List.length queue)
                   | None => []
                   end)%list.
Proof.
  induction queue as [|path rest IH];
    intros cb total current w results calls Hc Hn Hres.
  - cbn; rewrite !app_nil_r; destruct cb; cbn; rewrite ?app_nil_r; auto.
  - cbn [process_loop List.length] in *.
    rewrite Nat2Z.inj_succ in Hn.
    unfold Int32.add.
    rewrite wrap_small by (unfold Int32.INT_MIN; lia).
    cbv zeta.
    set (w' := match cb with Some f => f (current + 1) total w | None => w end).
    set (calls' := match cb with
                   | Some _ => (calls ++ [(current + 1, total)])%list
                   | None => calls
                   end).
    replace (match cb with
             | Some f => (f (current + 1) total w,
                          (calls ++ [(current + 1, total)])%list)
             | None => (w, calls)
             end) with (w', calls') by (unfold w', calls'; now destruct cb).
    assert (Hcalls : forall tail,
              (calls' ++ match cb with
                         | Some _ => progress_reports (current + 1) total
                                       (List.length rest)
                         | None => []
                         end)%list = tail ->
              tail = (calls ++ match cb with
                               | Some _ => progress_reports current total
                                             (S (List.length rest))
                               | None => []
                               end)%list).
    { intros tail <-; unfold calls'; destruct cb; [|reflexivity].
      rewrite progress_reports_cons, <- app_assoc; reflexivity. }
    destruct (negb (ifstream_good fs w' path)).
    + destruct (IH cb total (current + 1) w'
                  (results ++ [mkBatchResult path false "File not found"])%list
                  calls') as (I1 & I2 & I3); [lia | lia | |].
      { apply Forall_app; split; [assumption|].
        constructor; [reflexivity | constructor]. }
      cbv zeta in *; split; [|split; [exact I2|]].
      * rewrite I1, map_app, <- app_assoc; reflexivity.
      * apply Hcalls; symmetry; exact I3.
    + destruct (IH cb total (current + 1) w'
                  (results ++ [mkBatchResult path true EmptyString])%list
                  calls') as (I1 & I2 & I3); [lia | lia | |].
      { apply Forall_app; split; [assumption|].
        constructor; [reflexivity | constructor]. }
      cbv zeta in *; split; [|split; [exact I2|]].
      * rewrite I1, map_app, <- app_assoc; reflexivity.
      * apply Hcalls; symmetry; exact I3.
Qed.

(** Under a quiet callback every file gets the result it would get taken
    alone: no outcome depends on another file's. *)
Lemma process_loop_independent (queue : list string) :
  forall (cb : option (ProgressCallback W)) (total current : Z) (w : W)
         (results : list BatchResult) (calls : list (Z * Z)),
    quiet fs cb ->
    fst (fst (process_loop fs queue cb total current w results calls))
    = (results ++ map (result_for fs w) queue)%list.
Proof.
  induction queue as [|path rest IH];
    intros cb total current w results calls Hq.
  - cbn; now rewrite app_nil_r.
  - cbn [process_loop map].
    set (w' := match cb with
               | Some f => f (Int32.add current 1) total w
               | None => w
               end).
    set (calls' := match cb with
                   | Some _ => (calls ++ [(Int32.add current 1, total)])%list
                   | None => calls
                   end).
    replace (match cb with
             | Some f => (f (Int32.add current 1) total w,
                          (calls ++ [(Int32.add current 1, total)])%list)
             | None => (w, calls)
             end) with (w', calls') by (unfold w', calls'; now destruct cb).
    assert (Hw : forall p, ifstream_good fs w' p = ifstream_good fs w p).
    { intros p; unfold w'; destruct cb; [apply Hq | reflexivity]. }
    assert (Hmap : map (result_for fs w') rest = map (result_for fs w) rest).
    { apply map_ext; intros p; unfold result_for; now rewrite Hw. }
    unfold result_for at 1; rewrite <- (Hw path).
    destruct (ifstream_good fs w' path); cbn [negb];
      rewrite IH, Hmap, <- app_assoc by assumption; reflexivity.
Qed.

Lemma combine_seq_shift {A : Type} (l : list A) :
  forall i : nat,
    combine (seq (S i) (List.length l)) l
    = map (fun '(k, p) => (S k, p)) (combine (seq i (List.length l)) l).
Proof.
  induction l as [|a l IH]; intros i; [reflexivity|].
  cbn [List.length seq combine map]; now rewrite IH.
Qed.

Lemma world_from_step (cb : option (ProgressCallback W)) (total : Z)
    (c k : nat) (w : W) :
  world_from cb total c (S k) w
  = world_from cb total (S c) k (world_from cb total c 1 w).
Proof. unfold world_from; now destruct cb. Qed.

(** Each file is opened in the world as the callback invocations made so
    far have left it, and the loop ends in the world after the last. *)
Lemma process_loop_worlds (queue : list string) :
  forall (cb : option (ProgressCallback W)) (total : Z) (c : nat) (w : W)
         (results : list BatchResult) (calls : list (Z * Z)),
    Z.of_nat c + Z.of_nat (List.length queue) <= Int32.INT_MAX ->
    fst (process_loop fs queue cb total (Z.of_nat c) w results calls)
    = ((results
        ++ map (fun '(k, path) => result_for fs (world_from cb total c k w) path)
             (combine (seq 1 (List.length queue)) queue))%list,
       world_from cb total c (List.length queue) w).
Proof.
  induction queue as [|path rest IH];
    intros cb total c w results calls Hn.
  - cbn [process_loop List.length seq combine map fst].
    rewrite app_nil_r; unfold world_from; now destruct cb.
  - cbn [process_loop List.length] in *.
    rewrite Nat2Z.inj_succ in Hn.
    unfold Int32.add.
    rewrite wrap_small by (unfold Int32.INT_MIN; lia).
    cbv zeta.
    replace (Z.of_nat c + 1) with (Z.of_nat (S c)) by lia.
    set (w' := world_from cb total c 1 w).
    set (calls' := match cb with
                   | Some _ => (calls ++ [(Z.of_nat (S c), total)])%list
                   | None => calls
                   end).
    replace (match cb with
             | Some f => (f (Z.of_nat (S c)) total w,
                          (calls ++ [(Z.of_nat (S c), total)])%list)
             | None => (w, calls)
             end) with (w', calls')
      by (unfold w', calls', world_from; now destruct cb).
    cbn [seq combine map].
    rewrite combine_seq_shift, map_map.
    fold w'; rewrite world_from_step; fold w'.
    assert (Hmap : map (fun kp : nat * string =>
                          let '(k, path) := let '(k, p) := kp in (S k, p) in
                          result_for fs (world_from cb total c k w) path)
                     (combine (seq 1 (List.length rest)) rest)
                   = map (fun '(k, path) =>
                            result_for fs (world_from cb total (S c) k w') path)
                       (combine (seq 1 (List.length rest)) rest)).
    { apply map_ext; intros [k p]; now rewrite world_from_step. }
    rewrite Hmap.
    unfold result_for at 1.
    destruct (ifstream_good fs w' path); cbn [negb];
      rewrite IH by lia; now rewrite <- app_assoc.
Qed.

(** C7.  Batch processing order and progress: for every queue of N
    files, [process] returns N results, in the order of the queue, one
    for each file whatever happened to the files before it; and a
    progress callback, when given, is invoked once per file with current
    = 1, 2, ..., N and total = N.  The invocations are really made: the
    k-th file is opened in the world as the first k invocations have left
    it, its result is the one it gets there taken alone, and [process]
    ends in the world after all N invocations.  When the callback leaves
    the files alone, each result is the one its file gets in the world
    [process] started in. *)
Theorem process_order_and_progress
    (fileQueue_ : list string) (config : BarcodeConfig)
    (progressCallback : option (ProgressCallback W)) (w : W) :
  Z.of_nat (List.length fileQueue_) <= Int32.INT_MAX ->
  let out := process fs fileQueue_ config progressCallback w in
  let N := List.length fileQueue_ in
  List.length (fst (fst out)) = N
  /\ map filePath (fst (fst out)) = fileQueue_
  /\ Forall result_shape (fst (fst out))
  /\ snd out
     = match progressCallback with
       | Some _ => map (fun k => (Z.of_nat k, Z.of_nat N)) (seq 1 N)
       | None => []
       end
  /\ (quiet fs progressCallback ->
      fst (fst out) = map (result_for fs w) fileQueue_)
  /\ fst (fst out)
     = map (fun '(k, path) =>
              result_for fs (world_after progressCallback (Z.of_nat N) k w) path)
         (combine (seq 1 N) fileQueue_)
  /\ snd (fst out) = world_after progressCallback (Z.of_nat N) N w.
Proof.
  intros Hn; cbv zeta; unfold process.
  rewrite of_size_small by assumption.
  destruct (process_loop_spec fileQueue_ progressCallback
              (Z.of_nat (List.length fileQueue_)) 0 w [] [])
    as (I1 & I2 & I3); [lia | lia | constructor |].
  cbv zeta in *; cbn [map app] in I1, I3.
  pose proof (process_loop_worlds fileQueue_ progressCallback
                (Z.of_nat (List.length fileQueue_)) 0 w [] []) as Hw.
  cbn [Z.of_nat app] in Hw; specialize (Hw ltac:(lia)).
  split; [|split; [exact I1 | split; [exact I2 | split; [exact I3|split; [|split]]]]].
  - pose proof (f_equal (@List.length string) I1) as Hl.
    now rewrite length_map in Hl.
  - intros Hq; now rewrite process_loop_independent.
  - now rewrite Hw.
  - now rewrite Hw.
Qed.

End BatchProcessorProofs.

Lemma process_order_and_progress_witness :
  BatchProcessor.process listed_files ["a.drw"; "missing.drw"; "late.drw"]
    (mkConfig CODE_128 200 80 10 true 300)
    (Some late_file) ["a.drw"; "c.drw"]
  = ([ BatchProcessor.mkBatchResult "a.drw" true EmptyString;
       BatchProcessor.mkBatchResult "missing.drw" false "File not found";
       BatchProcessor.mkBatchResult "late.drw" true EmptyString ],
     ["late.drw"; "a.drw"; "c.drw"],
     [(1, 3); (2, 3); (3, 3)])
  /\ map BatchProcessor.filePath
       (fst (fst (BatchProcessor.process listed_files
                    ["a.drw"; "missing.drw"; "late.drw"]
                    (mkConfig CODE_128 200 80 10 true 300)
                    (Some late_file) ["a.drw"; "c.drw"])))
     = ["a.drw"; "missing.drw"; "late.drw"]
  /\ snd (BatchProcessor.process listed_files
            ["a.drw"; "missing.drw"; "late.drw"]
            (mkConfig CODE_128 200 80 10 true 300)
            (Some late_file) ["a.drw"; "c.drw"])
     = [(1, 3); (2, 3); (3, 3)]
  /\ snd (fst (BatchProcessor.process listed_files
                 ["a.drw"; "missing.drw"; "late.drw"]
                 (mkConfig CODE_128 200 80 10 true 300)
                 (Some late_file) ["a.drw"; "c.drw"]))
     = ["late.drw"; "a.drw"; "c.drw"].
Proof.
  destruct (process_order_and_progress listed_files
              ["a.drw"; "missing.drw"; "late.drw"]
              (mkConfig CODE_128 200 80 10 true 300)
              (Some late_file) ["a.drw"; "c.drw"])
    as (_ & H2 & _ & H4 & _ & _ & H7).
  - vm_compute; discriminate.
  - split; [reflexivity|]; split; [exact H2 | split; [exact H4 | exact H7]].
Defined.

(* ================================================================== *)
(** * Part II, continued.  Properties of the code around the core      *)
(* ================================================================== *)

(** ** Type names *)

Section TypeNameProofs.

Import GeneratorUtil.

(** X1.  The type names are an exact code: [stringToBarcodeType] reads
    back every name [barcodeTypeToString] writes, and accepts no other
    string. *)
Theorem barcode_type_names_inverse :
  (forall t, stringToBarcodeType (barcodeTypeToString t) = Some t)
  /\ (forall s t, stringToBarcodeType s = Some t -> s = barcodeTypeToString t)
  /\ stringToBarcodeType EmptyString = None
  /\ stringToBarcodeType "UNKNOWN" = None
  /\ stringToBarcodeType "code_128" = None.
Proof.
  split; [intros []; reflexivity|].
  split; [|repeat split; reflexivity].
  intros s t; unfold stringToBarcodeType.
  repeat match goal with
         | |- context [String.eqb s ?k] => destruct (String.eqb_spec s k)
         end; intros E; inversion E; subst; reflexivity.
Qed.

End TypeNameProofs.

(** ** The data synchronisation checker *)

Section DataSyncProofs.

Import Codec GeneratorUtil DataSyncChecker.

Lemma encode_nonempty (s : string) :
  string_empty (encodeSpecialChars s) = string_empty s.
Proof.
  destruct s as [|c s]; [reflexivity|].
  cbn [encodeSpecialChars string_empty].
  assert (H : string_empty (encode_char c) = false) by (each_char c; reflexivity).
  destruct (encode_char c); [discriminate | reflexivity].
Qed.

Lemma compareData_encoded (p : string) :
  compareData p (encodeSpecialChars p) = negb (string_empty p).
Proof.
  unfold compareData.
  rewrite encode_nonempty, orb_diag.
  destruct (string_empty p); [reflexivity|]; cbn [negb].
  destruct (String.eqb p (encodeSpecialChars p)); [reflexivity|].
  now rewrite String.eqb_refl.
Qed.

(** X2.  [compareData] accepts a pair exactly when both strings are
    non-empty and the part name equals the barcode data, raw or with its
    escapes decoded; the comparison with the escaped part name adds
    nothing to these two.  In particular a non-empty part name always
    matches its own escaped form, and itself. *)
Theorem compareData_rules (partName barcodeData : string) :
  compareData partName barcodeData
  = negb (string_empty partName) && negb (string_empty barcodeData)
    && (String.eqb partName barcodeData
        || String.eqb partName (decodeSpecialChars barcodeData))
  /\ compareData partName (encodeSpecialChars partName)
     = negb (string_empty partName)
  /\ compareData partName partName = negb (string_empty partName).
Proof.
  split; [|split; [apply compareData_encoded|]].
  - unfold compareData.
    destruct (string_empty partName); [reflexivity|].
    destruct (string_empty barcodeData); [reflexivity|]; cbn [orb negb andb].
    destruct (String.eqb partName barcodeData); [reflexivity|]; cbn [orb].
    destruct (String.eqb_spec (encodeSpecialChars partName) barcodeData)
      as [<-|_]; [|now destruct (String.eqb partName _)].
    now rewrite decode_encode, String.eqb_refl.
  - unfold compareData; rewrite orb_diag.
    destruct (string_empty partName); [reflexivity|].
    now rewrite String.eqb_refl.
Qed.

(** X3.  [checkSync] echoes its inputs; it reports IN_SYNC exactly when
    the decoded data is non-empty and equal to the part name (an empty
    part name is then excluded too); it raises the warning flag exactly
    when it reports OUT_OF_SYNC; and empty barcode data gives
    BARCODE_NOT_FOUND whatever the part name. *)
Theorem checkSync_status (partName : string) (instance : BarcodeInstance) :
  let r := checkSync partName instance in
  currentPartName r = partName
  /\ barcodeData r = decodedData instance
  /\ isInSync r
     = negb (string_empty (decodedData instance))
       && String.eqb (decodedData instance) partName
  /\ needsUpdate r
     = negb (string_empty (decodedData instance))
       && negb (string_empty partName)
       && negb (String.eqb (decodedData instance) partName)
  /\ warningDisplayed r = needsUpdate r
  /\ (string_empty (decodedData instance) = true ->
      status r = BARCODE_NOT_FOUND)
  /\ (status r <> UNKNOWN -> message r = getStatusMessage (status r)).
Proof.
  cbv zeta; unfold checkSync, isInSync, needsUpdate.
  destruct (decodedData instance) as [|c d] eqn:Ed; cbn [string_empty negb andb].
  { repeat split; try reflexivity; try discriminate. }
  destruct partName as [|c' p]; cbn [string_empty negb andb].
  { cbn [status currentPartName barcodeData warningDisplayed message].
    repeat split; try reflexivity; try discriminate.
    intros H; now elim H. }
  destruct (String.eqb (String c d) (String c' p));
    cbn [status currentPartName barcodeData warningDisplayed message negb];
    repeat split; try reflexivity; discriminate.
Qed.

(** X4.  [checkSyncFromImage]: when the image cannot be decoded the
    result is DECODE_ERROR with no data and no warning, and the checker's
    last error is DECODE_FAILED with the image path as details; when the
    reader finds text, the result is IN_SYNC exactly when the text with
    its escapes decoded equals the part name; so an image that carries
    the escaped form of the part name is always IN_SYNC, an empty part
    name included. *)
Theorem checkSyncFromImage_outcomes (rd : Reader)
    (checkerError generatorError : ErrorInfo) (partName barcodePath : string) :
  let out := checkSyncFromImage rd checkerError generatorError
               partName barcodePath in
  let r := fst (fst out) in
  (fst (decode rd generatorError barcodePath) = None ->
     status r = DECODE_ERROR /\ barcodeData r = EmptyString
     /\ warningDisplayed r = false
     /\ snd (fst out)
        = mkErrorInfo DECODE_FAILED "Failed to decode barcode from image"
            barcodePath)
  /\ (forall data,
        fst (decode rd generatorError barcodePath) = Some data ->
        barcodeData r = data
        /\ isInSync r = String.eqb (decodeSpecialChars data) partName
        /\ needsUpdate r = negb (String.eqb (decodeSpecialChars data) partName)
        /\ warningDisplayed r = needsUpdate r
        /\ snd (fst out) = checkerError)
  /\ (fst (decode rd generatorError barcodePath)
      = Some (encodeSpecialChars partName) ->
      status r = IN_SYNC).
Proof.
  cbv zeta; unfold checkSyncFromImage, isInSync, needsUpdate.
  destruct (decode rd generatorError barcodePath) as [[data|] ge]; cbn [fst snd].
  - split; [discriminate|]; split.
    + intros data' E; injection E as <-.
      destruct (String.eqb (decodeSpecialChars data) partName);
        cbn; repeat split; reflexivity.
    + intros E; injection E as ->.
      now rewrite decode_encode, String.eqb_refl.
  - split; [intros _; cbn; repeat split; reflexivity|].
    split; [intros data' E; discriminate | discriminate].
Qed.

Lemma checkSyncFromImage_outcomes_witness :
  DataSyncChecker.status
    (fst (fst (checkSyncFromImage escaped_reader no_error no_error
                 escaped_name "drawing.png")))
  = IN_SYNC.
Proof.
  apply (proj2 (proj2 (checkSyncFromImage_outcomes escaped_reader
                         no_error no_error escaped_name "drawing.png"))).
  reflexivity.
Defined.

(** X5.  [promptUpdate] asks the user only about a result that is
    OUT_OF_SYNC, and then once, with the old data and the new name; the
    callback passed in is preferred to the default one.  After [checkSync]
    the user is therefore never prompted, and no update is ever confirmed,
    when the barcode already carries the part name. *)
Theorem promptUpdate_only_when_out_of_sync
    (defaultCallback confirmCallback : option UpdateConfirmCallback)
    (result : SyncCheckResult)
    (partName : string) (instance : BarcodeInstance) :
  (status result <> OUT_OF_SYNC ->
     promptUpdate defaultCallback result confirmCallback = (false, []))
  /\ (forall f, status result = OUT_OF_SYNC ->
        promptUpdate defaultCallback result (Some f)
        = (f (barcodeData result) (currentPartName result),
           [(barcodeData result, currentPartName result)]))
  /\ (decodedData instance = partName ->
      promptUpdate defaultCallback (checkSync partName instance) confirmCallback
      = (false, []))
  /\ (fst (promptUpdate defaultCallback (checkSync partName instance)
             confirmCallback) = true ->
      decodedData instance <> partName
      /\ snd (promptUpdate defaultCallback (checkSync partName instance)
                confirmCallback)
         = [(decodedData instance, partName)]).
Proof.
  assert (Hno : forall r, status r <> OUT_OF_SYNC ->
                  promptUpdate defaultCallback r confirmCallback = (false, [])).
  { intros r H; unfold promptUpdate; destruct (status r); try reflexivity.
    now elim H. }
  split; [apply Hno|]; split; [|split].
  - intros f H; unfold promptUpdate; now rewrite H.
  - intros <-; apply Hno; unfold checkSync.
    destruct (string_empty (decodedData instance)); [discriminate|].
    rewrite String.eqb_refl; discriminate.
  - unfold promptUpdate, checkSync.
    destruct (string_empty (decodedData instance)); [discriminate|].
    destruct (string_empty partName); [discriminate|].
    destruct (String.eqb_spec (decodedData instance) partName) as [E|N];
      [discriminate|].
    cbn [status barcodeData currentPartName].
    destruct confirmCallback as [f|]; [|destruct defaultCallback as [g|]];
      cbn [fst snd]; intros H; try discriminate; split; auto.
Qed.

End DataSyncProofs.

(** ** The batch queue and the summary *)

Section BatchQueueProofs.

Import BatchProcessor BatchQueue.

Lemma filter_count_le_results (p : BatchResult -> bool) (l : list BatchResult) :
  (List.length (filter p l) <= List.length l)%nat.
Proof.
  induction l as [|a l IH]; cbn; [lia|].
  destruct (p a); cbn; lia.
Qed.

Lemma summary_loop_counts (results : list BatchResult) :
  forall (seen : list BatchResult),
    Z.of_nat (List.length seen) + Z.of_nat (List.length results)
    <= Int32.INT_MAX ->
    summary_loop results
      (Z.of_nat (List.length (filter success seen)))
      (Z.of_nat (List.length (filter failed seen)))
      (map failure_of (filter failed seen))
    = (Z.of_nat (List.length (filter success (seen ++ results))),
       Z.of_nat (List.length (filter failed (seen ++ results))),
       map failure_of (filter failed (seen ++ results))).
Proof.
  induction results as [|r rest IH]; intros seen Hn.
  - cbn; now rewrite app_nil_r.
  - cbn [summary_loop List.length] in *.
    rewrite Nat2Z.inj_succ in Hn.
    pose proof (filter_count_le_results success seen) as Hs.
    pose proof (filter_count_le_results failed seen) as Hf.
    replace (seen ++ r :: rest)%list with ((seen ++ [r]) ++ rest)%list
      by (now rewrite <- app_assoc).
    rewrite <- IH by (rewrite length_app; cbn [List.length]; lia).
    rewrite !filter_app; cbn [filter].
    assert (Ef : failed r = negb (success r)) by reflexivity.
    rewrite Ef; unfold Int32.add.
    destruct (success r); cbn [negb];
      rewrite wrap_small by (unfold Int32.INT_MIN; lia);
      rewrite ?app_nil_r, ?map_app, ?length_app; cbn [map List.length];
      repeat f_equal; lia.
Qed.

Lemma filter_split_results (l : list BatchResult) :
  (List.length (filter success l) + List.length (filter failed l)
   = List.length l)%nat.
Proof.
  induction l as [|r l IH]; cbn; [reflexivity|].
  unfold failed at 1; destruct (success r); cbn; lia.
Qed.

Lemma failure_lines_text (l : list BatchResult) :
  failure_lines (map failure_of l)
  = fold_right append EmptyString
      (map (fun r => "  - " ++ filePath r ++ ": " ++ errorMessage r ++ nl) l).
Proof.
  induction l as [|r l IH]; [reflexivity|].
  cbn [map failure_lines fold_right]; rewrite IH; unfold failure_of.
  rewrite <- !string_app_assoc; reflexivity.
Qed.

(** The text [getSummary] returns is the summary of the results. *)
Lemma getSummary_text (results : list BatchResult) :
  Z.of_nat (List.length results) <= Int32.INT_MAX ->
  getSummary results = summary_text results.
Proof.
  intros Hn.
  pose proof (summary_loop_counts results [] Hn) as H.
  cbn [filter map List.length app] in H.
  change (Z.of_nat 0) with 0 in H.
  unfold getSummary, summary_text; rewrite H; cbv zeta.
  change (fun r : BatchResult => negb (success r)) with failed.
  rewrite <- failure_lines_text.
  destruct (filter failed results); reflexivity.
Qed.

(** X6.  The text [getSummary] returns, for every list of results: the
    title and its rule, then "Total files: ", "Successful: " and "Failed:
    " with the number of results, of successful results and of failed
    results, each on its line; the two counts add up to the total; and,
    exactly when some result failed, an empty line, "Failure details:"
    and one line "  - path: message" per failed result, in the order of
    the results.  When no result failed the text ends after "Failed:
    0". *)
Theorem getSummary_counts (results : list BatchResult) :
  Z.of_nat (List.length results) <= Int32.INT_MAX ->
  getSummary results = summary_text results
  /\ (List.length (filter success results)
      + List.length (filter (fun r => negb (success r)) results)
      = List.length results)%nat
  /\ (forallb success results = true ->
      getSummary results
      = "Batch Processing Summary" ++ nl
        ++ "========================" ++ nl
        ++ "Total files: " ++ dec (Z.of_nat (List.length results)) ++ nl
        ++ "Successful: " ++ dec (Z.of_nat (List.length results)) ++ nl
        ++ "Failed: 0" ++ nl)
  /\ (forallb success results = false ->
      exists header,
        getSummary results
        = header ++ nl ++ "Failure details:" ++ nl
          ++ fold_right append EmptyString
               (map (fun r =>
                       "  - " ++ filePath r ++ ": " ++ errorMessage r ++ nl)
                  (filter (fun r => negb (success r)) results))).
Proof.
  intros Hn.
  pose proof (filter_split_results results) as Hsplit.
  rewrite (getSummary_text results Hn).
  split; [reflexivity|]; split; [exact Hsplit|]; split.
  - intros Hall.
    assert (Hnone : filter failed results = []).
    { clear -Hall; induction results as [|r l IH]; [reflexivity|].
      cbn in *; apply andb_true_iff in Hall; destruct Hall as [Hr Hl].
      unfold failed at 1; rewrite Hr; cbn; auto. }
    unfold summary_text; cbv zeta.
    change (fun r : BatchResult => negb (success r)) with failed.
    rewrite Hnone in *; cbn [map List.length] in *.
    replace (List.length (filter success results)) with (List.length results)
      by lia.
    rewrite string_app_nil_r; reflexivity.
  - intros Hsome.
    unfold summary_text; cbv zeta.
    change (fun r : BatchResult => negb (success r)) with failed.
    destruct (filter failed results) as [|r l] eqn:E.
    + exfalso; clear -Hsome E.
      induction results as [|r l IH]; [discriminate|].
      cbn in *; unfold failed at 1 in E.
      destruct (success r); cbn in *; [auto | discriminate].
    + eexists
        ("Batch Processing Summary" ++ nl
         ++ "========================" ++ nl
         ++ "Total files: " ++ dec (Z.of_nat (List.length results)) ++ nl
         ++ "Successful: "
         ++ dec (Z.of_nat (List.length (filter success results))) ++ nl
         ++ "Failed: " ++ dec (Z.of_nat (List.length (r :: l))) ++ nl).
      rewrite <- !string_app_assoc; reflexivity.
Qed.

Lemma getSummary_counts_witness :
  getSummary [ mkBatchResult "a.drw" true EmptyString;
               mkBatchResult "b.drw" false "File not found" ]
  = "Batch Processing Summary" ++ nl
    ++ "========================" ++ nl
    ++ "Total files: 2" ++ nl ++ "Successful: 1" ++ nl ++ "Failed: 1" ++ nl
    ++ nl ++ "Failure details:" ++ nl ++ "  - b.drw: File not found" ++ nl.
Proof.
  destruct (getSummary_counts [ mkBatchResult "a.drw" true EmptyString;
                                mkBatchResult "b.drw" false "File not found" ])
    as (H & _).
  - vm_compute; discriminate.
  - rewrite H; reflexivity.
Defined.

Section WithFileSystem.

Context {W : Type}.
Variable fs : FileSystem W.

Lemma results_alone_failed (w : W) (queue : list string) :
  filter (fun r => negb (success r)) (map (result_for fs w) queue)
  = map (fun path => mkBatchResult path false "File not found")
      (filter (fun path => negb (ifstream_good fs w path)) queue).
Proof.
  induction queue as [|p l IH]; [reflexivity|].
  cbn [map filter].
  assert (Es : success (result_for fs w p) = ifstream_good fs w p)
    by (unfold result_for; now destruct (ifstream_good fs w p)).
  rewrite Es.
  destruct (ifstream_good fs w p) eqn:Eg; cbn [negb map]; rewrite IH;
    [reflexivity|].
  f_equal; unfold result_for; now rewrite Eg.
Qed.

Lemma results_alone_succeeded (w : W) (queue : list string) :
  List.length (filter success (map (result_for fs w) queue))
  = List.length (filter (ifstream_good fs w) queue).
Proof.
  induction queue as [|p l IH]; [reflexivity|].
  cbn [map filter].
  assert (Es : success (result_for fs w p) = ifstream_good fs w p)
    by (unfold result_for; now destruct (ifstream_good fs w p)).
  rewrite Es.
  destruct (ifstream_good fs w p); cbn [List.length]; now rewrite IH.
Qed.

(** X7.  Files are processed in the order they were added, whether one
    at a time or in bulk; after [clear] the queue is empty, and [process]
    then returns no result and reports no progress.  The text
    [getSummary] returns for a run without callback counts the queued
    files, those that open and those that do not, and, when some file
    does not open, lists exactly the files that do not, in the order of
    the queue, each as "  - path: File not found". *)
Theorem queue_order_and_summary
    (fileQueue_ filePaths : list string) (filePath1 : string)
    (config : BarcodeConfig) (cb : option (ProgressCallback W)) (w : W) :
  Z.of_nat (List.length fileQueue_) + 1 + Z.of_nat (List.length filePaths)
  <= Int32.INT_MAX ->
  map filePath
    (fst (fst (process fs (addFiles (addFile fileQueue_ filePath1) filePaths)
                 config cb w)))
  = (fileQueue_ ++ filePath1 :: filePaths)%list
  /\ getQueueSize (addFiles (addFile fileQueue_ filePath1) filePaths)
     = (getQueueSize fileQueue_ + 1 + List.length filePaths)%nat
  /\ process fs (clear fileQueue_) config cb w = ([], w, [])
  /\ (let missing :=
        filter (fun path => negb (ifstream_good fs w path)) fileQueue_ in
      getSummary (fst (fst (process fs fileQueue_ config None w)))
      = "Batch Processing Summary" ++ nl
        ++ "========================" ++ nl
        ++ "Total files: " ++ dec (Z.of_nat (List.length fileQueue_)) ++ nl
        ++ "Successful: "
        ++ dec (Z.of_nat
                  (List.length (filter (ifstream_good fs w) fileQueue_)))
        ++ nl
        ++ "Failed: " ++ dec (Z.of_nat (List.length missing)) ++ nl
        ++ match missing with
           | [] => EmptyString
           | _ =>
               nl ++ "Failure details:" ++ nl
               ++ fold_right append EmptyString
                    (map (fun path =>
                            "  - " ++ path ++ ": File not found" ++ nl)
                       missing)
           end).
Proof.
  intros Hn; unfold addFiles, addFile, getQueueSize, clear.
  split; [|split; [|split]].
  - unfold process.
    destruct (process_loop_spec fs ((fileQueue_ ++ [filePath1]) ++ filePaths)
                cb (Int32.of_size
                      (List.length ((fileQueue_ ++ [filePath1]) ++ filePaths)))
                0 w [] []) as (H & _).
    + lia.
    + rewrite !length_app; cbn [List.length]; lia.
    + constructor.
    + cbv zeta in H; rewrite H; cbn [map app].
      now rewrite <- app_assoc.
  - rewrite !length_app; cbn [List.length]; lia.
  - reflexivity.
  - cbv zeta; unfold process.
    rewrite process_loop_independent by exact I.
    cbn [app].
    rewrite getSummary_text by (rewrite length_map; lia).
    unfold summary_text; cbv zeta.
    rewrite results_alone_failed, results_alone_succeeded, !length_map.
    destruct (filter (fun path => negb (ifstream_good fs w path)) fileQueue_)
      as [|p l]; [reflexivity|].
    rewrite map_map; reflexivity.
Qed.

End WithFileSystem.

End BatchQueueProofs.

Lemma queue_order_and_summary_witness :
  map BatchProcessor.filePath
    (fst (fst (BatchProcessor.process listed_files
                 (BatchQueue.addFiles (BatchQueue.addFile ["a.drw"] "b.drw")
                    ["c.drw"; "d.drw"])
                 (mkConfig CODE_128 200 80 10 true 300) None ["a.drw"])))
  = ["a.drw"; "b.drw"; "c.drw"; "d.drw"]
  /\ BatchQueue.getSummary
       (fst (fst (BatchProcessor.process listed_files ["a.drw"; "x.drw"]
                    (mkConfig CODE_128 200 80 10 true 300) None ["a.drw"])))
     = "Batch Processing Summary" ++ BatchQueue.nl
       ++ "========================" ++ BatchQueue.nl
       ++ "Total files: 2" ++ BatchQueue.nl
       ++ "Successful: 1" ++ BatchQueue.nl
       ++ "Failed: 1" ++ BatchQueue.nl
       ++ BatchQueue.nl ++ "Failure details:" ++ BatchQueue.nl
       ++ "  - x.drw: File not found" ++ BatchQueue.nl.
Proof.
  split.
  - apply (proj1 (queue_order_and_summary listed_files ["a.drw"] ["c.drw"; "d.drw"]
                    "b.drw" (mkConfig CODE_128 200 80 10 true 300) None ["a.drw"]
                    ltac:(vm_compute; discriminate))).
  - rewrite (proj2 (proj2 (proj2
               (queue_order_and_summary listed_files ["a.drw"; "x.drw"] []
                  "b.drw" (mkConfig CODE_128 200 80 10 true 300) None ["a.drw"]
                  ltac:(vm_compute; discriminate))))).
    reflexivity.
Defined.

(** ** The dependency-free encoder: return codes, geometry, checksum *)

Section PureCMoreProofs.

Import Char PureC.

(** X8.  [barcode_generate_c] returns one of five codes, each with its
    own message in [g_purec_error]: success with the empty message, or -1
    to -4; the "Unknown error" arm is never taken.  A file is written
    exactly when the code is 0, and a null pointer or empty data gives -1
    before anything else is looked at. *)
Theorem pure_c_return_codes (rt : Runtime) (g_purec_error : string)
    (data outputPath : option string) (type width height margin : Z) :
  let out := barcode_generate_c rt g_purec_error data type width height margin
               outputPath in
  In (fst (fst out), snd (fst out))
    [ (0, EmptyString); (-1, "Invalid parameters");
      (-2, "Data too long (max 80 characters)");
      (-3, "Memory allocation failed"); (-4, "Cannot create output file") ]
  /\ (fst (fst out) = 0 <-> snd out <> None)
  /\ fst (fst out)
     = fst (barcode_generate_pure_c rt data outputPath width height margin)
  /\ (data = None \/ outputPath = None
      \/ (exists d, data = Some d /\ c_str d = EmptyString) ->
      fst (fst out) = -1).
Proof.
  cbv zeta; unfold barcode_generate_c, barcode_generate_pure_c.
  destruct data as [d|], outputPath as [path|];
    try (cbn; repeat split; auto; try discriminate;
         try (intros H; now elim H); fail).
  destruct (string_empty (c_str d)) eqn:Ee.
  { cbn; repeat split; auto; try discriminate. intros H; now elim H. }
  assert (Hne : c_str d <> EmptyString) by (destruct (c_str d); discriminate).
  destruct (80 <? Int32.of_size (strlen d));
    [|cbv zeta; destruct (negb (malloc_ok rt _));
      [|destruct (negb (fopen_ok rt path))]];
    (cbn; repeat split; auto 6; try discriminate; try (intros H; now elim H);
     intros [H|[H|(d0 & H1 & H2)]]; try discriminate;
     injection H1 as <-; contradiction).
Qed.

(** What a successful run leaves behind, read off the last lines of
    [barcode_generate_pure_c]: a 24-bit header whose image size is the
    product the buffer was allocated with. *)
Lemma pure_c_written_rows (rt : Runtime) (d path : string)
    (width height margin : Z) (written : Written) :
  barcode_generate_pure_c rt (Some d) (Some path) width height margin
  = (0, Some written) ->
  biBitCount (w_info written) = 24
  /\ biSizeImage (w_info written)
     = Int32.mul
         (Int32.mul
            (Int32.div (Int32.add (Int32.mul (biWidth (w_info written)) 3) 3) 4)
            4)
         (biHeight (w_info written))
  /\ malloc_ok rt (biSizeImage (w_info written)) = true
  /\ fopen_ok rt (w_path written) = true.
Proof.
  unfold barcode_generate_pure_c.
  destruct (string_empty (c_str d)); [discriminate|].
  destruct (80 <? Int32.of_size (strlen d)); [discriminate|].
  cbv zeta.
  destruct (malloc_ok rt _) eqn:Em; [|discriminate].
  destruct (fopen_ok rt path) eqn:Ef; [|discriminate].
  cbn [negb]; intros E; injection E as <-.
  cbn [w_info w_path biBitCount biSizeImage biWidth biHeight].
  auto.
Qed.

Lemma symbols_bars_app (l1 l2 : list Z) :
  symbols_bars (l1 ++ l2) = (symbols_bars l1 ++ symbols_bars l2)%list.
Proof. unfold symbols_bars; apply flat_map_app. Qed.

(** The modules of a Code 128 sequence start and end with a bar. *)
Lemma code128_symbols_ends (data : string) :
  let bars := symbols_bars (code128_symbols data) in
  nth 0 bars false = true
  /\ nth (List.length bars - 1) bars false = true.
Proof.
  cbv zeta; split; [reflexivity|].
  unfold code128_symbols.
  set (values := map value_spec (list_ascii_of_string data)).
  set (c := (104 + weighted_sum 1 data) mod 103).
  replace (104 :: values ++ [c; 106])%list
    with ((104 :: values ++ [c]) ++ [106])%list
    by (cbn [app]; now rewrite <- app_assoc).
  rewrite symbols_bars_app, length_app.
  set (l := symbols_bars _).
  change (List.length (symbols_bars [106])) with 13%nat.
  rewrite app_nth2 by lia.
  replace (List.length l + 13 - 1 - List.length l)%nat with 12%nat by lia.
  reflexivity.
Qed.

(** X9.  The pixels of a written bitmap, for a request of at most 10000
    pixels each way and a margin from 0 to 1000.  The bytes the drawing
    loops set to 0 all lie in the buffer the header describes, and a byte
    of the pixel (x, y) is set exactly when the row y lies between the top
    and bottom margins and the column x lies, counted from the left
    margin in modules of the module width, in a bar of the Code 128
    symbols of the data: START-B, the value of each character, the
    checksum and STOP.  The modules are at least 2 pixels wide and fill
    the columns from the left margin to the right one exactly, the first
    and the last of them being bars, so the clip of the drawing loop
    never cuts a bar.  When the two margins leave no row between them,
    that is when the height is at most twice the margin, no pixel is set
    and the bitmap is blank.  The bitmap is never wider than asked when
    the request leaves two pixels for each module, and loses less than
    one pixel per module; a narrower request is widened to two pixels per
    module. *)
Theorem pure_c_bitmap_bars (rt : Runtime) (d path : string)
    (width height margin : Z) (written : Written) :
  Z.of_nat (strlen d) <= Int32.INT_MAX ->
  Z.abs width <= 10000 ->
  0 <= margin <= 1000 ->
  height <= 10000 ->
  barcode_generate_pure_c rt (Some d) (Some path) width height margin
  = (0, Some written) ->
  let cv := w_canvas written in
  let bars := symbols_bars (code128_symbols (c_str d)) in
  let modules := Z.of_nat (List.length bars) in
  let W := biWidth (w_info written) in
  let H := biHeight (w_info written) in
  (cv_width cv = W /\ cv_height cv = H /\ cv_margin cv = margin
   /\ cv_moduleWidth cv = w_moduleWidth written
   /\ biSizeImage (w_info written) = cv_rowSize cv * H
   /\ 3 * W <= cv_rowSize cv <= 3 * W + 3)
  /\ (forall o, In o (w_writes written) -> 0 <= o < biSizeImage (w_info written))
  /\ (forall x y k,
        0 <= x < W -> 0 <= y < H -> 0 <= k < 3 ->
        In (y * cv_rowSize cv + 3 * x + k) (w_writes written)
        <-> margin <= y < H - margin
            /\ margin <= x < W - margin
            /\ nth (Z.to_nat ((x - margin) / w_moduleWidth written)) bars false
               = true)
  /\ 2 <= w_moduleWidth written
  /\ modules = 11 + Z.of_nat (strlen d) * 11 + 11 + 13
  /\ margin + w_moduleWidth written * modules = W - margin
  /\ nth 0 bars false = true
  /\ nth (List.length bars - 1) bars false = true
  /\ (H <= 2 * margin -> w_writes written = [])
  /\ (2 * modules <= width - 2 * margin -> W <= width < W + modules)
  /\ (width - 2 * margin < 2 * modules -> W = 2 * modules + 2 * margin).
Proof.
  intros Hfit Hw Hm Hh E; cbv zeta.
  destruct (pure_c_canvas_sizes rt d path width height margin written
              Hfit Hw Hm Hh E)
    as (EcW & EcH & Ecm & Ecmw & Esize & Hmw & HW & HH & HR & _ & Hend).
  cbv zeta in *.
  pose proof (generated_code128_symbols rt d path width height margin written
                Hfit E) as Esym.
  pose proof (generated_modules rt _ _ _ _ _ _ Hfit E) as Emod.
  rewrite Esym in Hend, Emod.
  rewrite <- symbols_bars_length in Hend, Emod.
  set (bars := symbols_bars (code128_symbols (c_str d))) in *.
  assert (Hpaint : forall o,
            In o (w_writes written) <-> painted (w_canvas written) bars o).
  { intros o.
    apply (pure_c_writes_painted rt d path width height margin written
             Hfit Hw Hm Hh E o). }
  destruct (pure_c_written_size rt d path width height margin written
              Hfit ltac:(lia) ltac:(lia) E) as (_ & Emw & EW & _).
  cbv zeta in Emw, EW.
  rewrite <- Emod in Emw, EW.
  rewrite EcW, EcH, Ecm, Ecmw in *.
  split; [repeat split; try reflexivity; try assumption; lia|].
  split.
  { intros o Ho.
    apply (pure_c_writes_painted rt d path width height margin written
             Hfit Hw Hm Hh E o); exact Ho. }
  split.
  { intros x y k Hx Hy Hk.
    rewrite Hpaint.
    rewrite (painted_pixel (w_canvas written)
               ltac:(lia) ltac:(lia) ltac:(lia) ltac:(lia) ltac:(lia)
               bars x y k)
      by (rewrite ?EcW, ?Ecm, ?Ecmw; lia).
    rewrite EcW, EcH, Ecm, Ecmw; reflexivity. }
  split; [lia|].
  split; [exact Emod|].
  split; [lia|].
  split; [apply code128_symbols_ends|].
  split; [apply code128_symbols_ends|].
  split.
  { intros Hblank.
    destruct (w_writes written) as [|o l] eqn:Ew; [reflexivity|].
    assert (Ho : In o (o :: l)) by now left.
    apply Hpaint in Ho.
    destruct Ho as (x & y & k & j & r & _ & _ & Hy & _).
    rewrite EcH, Ecm in Hy; lia. }
  set (T := Z.of_nat (List.length bars)) in *.
  assert (HT : 35 <= T) by lia.
  clearbody T.
  set (bw := width - 2 * margin) in *.
  assert (Ebw : width = bw + 2 * margin) by (unfold bw; lia).
  clearbody bw.
  split.
  - intros Hroom.
    destruct (quot_nonneg_bounds bw T) as [[Hq0 _] Hq1]; [lia|lia|].
    assert (Hq2 : 2 <= Z.quot bw T).
    { rewrite Z.quot_div_nonneg by lia.
      apply Z.div_le_lower_bound; lia. }
    assert (Hq3 : bw < (Z.quot bw T + 1) * T).
    { rewrite Z.quot_div_nonneg by lia.
      pose proof (Z.mod_pos_bound bw T ltac:(lia)) as Hmod.
      pose proof (Z.div_mod bw T ltac:(lia)) as Hdm.
      nia. }
    rewrite Z.max_r in EW by lia; lia.
  - intros Hnarrow.
    assert (Hq : Z.quot bw T < 2).
    { destruct (Z.le_gt_cases 0 bw) as [Hp|Hn].
      - rewrite Z.quot_div_nonneg by lia.
        apply Z.div_lt_upper_bound; lia.
      - destruct (quot_neg_bounds bw T); lia. }
    rewrite Z.max_l in EW by lia; lia.
Qed.

(** X10.  The rows of a written bitmap are padded to whole 32-bit
    words: the row size is the least multiple of 4 that holds three bytes
    for each pixel of the width, the image size in the header is that row
    size times the height, the bitmap has 24 bits per pixel, and the
    buffer that was allocated has exactly the size the header names. *)
Theorem pure_c_rows_padded (rt : Runtime) (d path : string)
    (width height margin : Z) (written : Written) :
  Z.of_nat (strlen d) <= Int32.INT_MAX ->
  Z.abs width <= 10000 ->
  0 <= margin <= 1000 ->
  height <= 10000 ->
  barcode_generate_pure_c rt (Some d) (Some path) width height margin
  = (0, Some written) ->
  exists rowSize,
    biSizeImage (w_info written) = rowSize * biHeight (w_info written)
    /\ rowSize mod 4 = 0
    /\ 3 * biWidth (w_info written) <= rowSize
       < 3 * biWidth (w_info written) + 4
    /\ biBitCount (w_info written) = 24
    /\ malloc_ok rt (rowSize * biHeight (w_info written)) = true.
Proof.
  intros Hfit Hw Hm Hh E.
  destruct (pure_c_written_rows _ _ _ _ _ _ _ E) as (Hbits & Hsize & Hmalloc & _).
  destruct (pure_c_written_size rt d path width height margin written
              Hfit ltac:(lia) ltac:(lia) E) as (_ & _ & EW & EH).
  assert (Hlen : Z.of_nat (strlen d) <= 80).
  { unfold barcode_generate_pure_c in E.
    destruct (string_empty (c_str d)); [discriminate|].
    rewrite of_size_small in E by assumption.
    destruct (Z.ltb_spec 80 (Z.of_nat (strlen d))); [discriminate | lia]. }
  cbv zeta in EW.
  set (T := 11 + Z.of_nat (strlen d) * 11 + 11 + 13) in EW.
  assert (HT : 35 <= T <= 915) by (unfold T; lia).
  clearbody T.
  assert (HW : 70 <= biWidth (w_info written) <= 12000).
  { rewrite EW.
    destruct (Z.le_gt_cases 2 (Z.quot (width - 2 * margin) T)) as [Hge|Hlt].
    - rewrite Z.max_r by lia.
      destruct (quot_nonneg_bounds (width - 2 * margin) T) as [_ Hq].
      + destruct (Z.le_gt_cases 0 (width - 2 * margin)) as [Hp|Hn]; [lia|].
        destruct (quot_neg_bounds (width - 2 * margin) T); lia.
      + lia.
      + nia.
    - rewrite Z.max_l by lia; lia. }
  assert (HH : 60 <= biHeight (w_info written) <= 10000) by lia.
  set (W := biWidth (w_info written)) in *.
  set (H := biHeight (w_info written)) in *.
  clearbody W H.
  unfold Int32.mul, Int32.add, Int32.div in Hsize.
  rewrite (wrap_small (W * 3)) in Hsize
    by (unfold Int32.INT_MIN, Int32.INT_MAX; lia).
  rewrite (wrap_small (W * 3 + 3)) in Hsize
    by (unfold Int32.INT_MIN, Int32.INT_MAX; lia).
  rewrite Z.quot_div_nonneg in Hsize by lia.
  pose proof (Z.div_mod (W * 3 + 3) 4 ltac:(lia)) as Hdm.
  pose proof (Z.mod_pos_bound (W * 3 + 3) 4 ltac:(lia)) as Hmod.
  set (q := (W * 3 + 3) / 4) in *.
  assert (Hq : 0 <= q <= 9001) by lia.
  clearbody q.
  rewrite (wrap_small q) in Hsize
    by (unfold Int32.INT_MIN, Int32.INT_MAX; lia).
  rewrite (wrap_small (q * 4)) in Hsize
    by (unfold Int32.INT_MIN, Int32.INT_MAX; lia).
  rewrite (wrap_small (q * 4 * H)) in Hsize
    by (unfold Int32.INT_MIN, Int32.INT_MAX; nia).
  exists (q * 4); repeat split; try assumption; try lia.
  - now rewrite Z.mod_mul by lia.
  - now rewrite <- Hsize.
Qed.

(** Positions 1 to 80 and value differences 1 to 95 never multiply to a
    multiple of 103. *)
Lemma products_mod_103 :
  forallb (fun dv => forallb (fun k => negb ((Z.of_nat dv * Z.of_nat k) mod 103 =? 0))
                       (seq 1 80))
    (seq 1 95) = true.
Proof. vm_compute; reflexivity. Qed.

Lemma no_multiple_of_103 (dv k : Z) :
  1 <= Z.abs dv <= 95 -> 1 <= k <= 80 -> (dv * k) mod 103 <> 0.
Proof.
  intros Hd Hk.
  assert (Habs : (Z.abs dv * k) mod 103 <> 0).
  { pose proof products_mod_103 as Hall.
    rewrite forallb_forall in Hall.
    specialize (Hall (Z.to_nat (Z.abs dv))
                  ltac:(apply in_seq; lia)).
    rewrite forallb_forall in Hall.
    specialize (Hall (Z.to_nat k) ltac:(apply in_seq; lia)).
    rewrite !Z2Nat.id in Hall by lia.
    destruct (Z.eqb_spec ((Z.abs dv * k) mod 103) 0); [discriminate | assumption]. }
  intros Hz; apply Habs.
  destruct (Z.abs_eq_or_opp dv) as [->| ->]; [assumption|].
  rewrite Z.mul_opp_l.
  apply Z.mod_divide in Hz; [|lia].
  apply Z.mod_divide; [lia|].
  now apply Z.divide_opp_r.
Qed.

Lemma weighted_sum_app (a b : string) (i : Z) :
  weighted_sum i (a ++ b)
  = weighted_sum i a + weighted_sum (i + Z.of_nat (String.length a)) b.
Proof.
  revert i; induction a as [|c a IH]; intros i.
  - cbn; now rewrite Z.add_0_r.
  - cbn [append weighted_sum String.length]; rewrite IH.
    replace (i + 1 + Z.of_nat (String.length a))
      with (i + Z.of_nat (S (String.length a))) by lia.
    lia.
Qed.

(** The checksum of a C string of at most 80 characters in closed form. *)
Lemma calculate_checksum_closed (s : string) (startCode : Z) :
  c_str s = s ->
  (String.length s <= 80)%nat ->
  0 <= startCode <= 1000 ->
  calculate_checksum s startCode = (startCode + weighted_sum 1 s) mod 103.
Proof.
  intros Hc Hlen Hs.
  assert (Hl : strlen s = String.length s) by (unfold strlen; now rewrite Hc).
  pose proof (weighted_sum_bound s 1 ltac:(lia)) as Hb.
  rewrite calculate_checksum_sum.
  - now rewrite Hc.
  - lia.
  - rewrite Hl; unfold Int32.INT_MAX; lia.
  - rewrite Hc; unfold Int32.INT_MAX; nia.
Qed.

Lemma mod_103_differ (x y : Z) :
  (x - y) mod 103 <> 0 -> x mod 103 <> y mod 103.
Proof.
  intros Hd E; apply Hd.
  rewrite Zminus_mod, E, Z.sub_diag; reflexivity.
Qed.

(** X11.  The check symbol detects every substitution of one character
    that changes its subset-B value: two C strings of at most 80
    characters that differ in one position, by characters of different
    values, have different checksums. *)
Theorem checksum_detects_substitution (a b : string) (c c' : ascii)
    (startCode : Z) :
  c_str (a ++ String c b) = a ++ String c b ->
  c_str (a ++ String c' b) = a ++ String c' b ->
  (String.length (a ++ String c b) <= 80)%nat ->
  0 <= startCode <= 1000 ->
  code128b_value c <> code128b_value c' ->
  calculate_checksum (a ++ String c b) startCode
  <> calculate_checksum (a ++ String c' b) startCode.
Proof.
  intros Hc Hc' Hlen Hs Hv.
  assert (Hlen' : (String.length (a ++ String c' b) <= 80)%nat).
  { rewrite string_length_app in *; cbn [String.length] in *; lia. }
  rewrite !calculate_checksum_closed by assumption.
  apply mod_103_differ.
  rewrite !weighted_sum_app; cbn [weighted_sum].
  rewrite !code128b_value_unsigned in Hv.
  pose proof (value_spec_range c) as Hr.
  pose proof (value_spec_range c') as Hr'.
  rewrite string_length_app in Hlen; cbn [String.length] in Hlen.
  replace (startCode
           + (weighted_sum 1 a
              + (value_spec c * (1 + Z.of_nat (String.length a))
                 + weighted_sum (1 + Z.of_nat (String.length a) + 1) b))
           - (startCode
              + (weighted_sum 1 a
                 + (value_spec c' * (1 + Z.of_nat (String.length a))
                    + weighted_sum (1 + Z.of_nat (String.length a) + 1) b))))
    with ((value_spec c - value_spec c') * (1 + Z.of_nat (String.length a)))
    by lia.
  apply no_multiple_of_103; lia.
Qed.

(** X12.  The check symbol detects the exchange of two neighbouring
    characters of different values. *)
Theorem checksum_detects_transposition (a b : string) (c1 c2 : ascii)
    (startCode : Z) :
  c_str (a ++ String c1 (String c2 b)) = a ++ String c1 (String c2 b) ->
  c_str (a ++ String c2 (String c1 b)) = a ++ String c2 (String c1 b) ->
  (String.length (a ++ String c1 (String c2 b)) <= 80)%nat ->
  0 <= startCode <= 1000 ->
  code128b_value c1 <> code128b_value c2 ->
  calculate_checksum (a ++ String c1 (String c2 b)) startCode
  <> calculate_checksum (a ++ String c2 (String c1 b)) startCode.
Proof.
  intros Hc Hc' Hlen Hs Hv.
  assert (Hlen' : (String.length (a ++ String c2 (String c1 b)) <= 80)%nat).
  { rewrite string_length_app in *; cbn [String.length] in *; lia. }
  rewrite !calculate_checksum_closed by assumption.
  apply mod_103_differ.
  rewrite !weighted_sum_app; cbn [weighted_sum].
  rewrite !code128b_value_unsigned in Hv.
  pose proof (value_spec_range c1) as Hr.
  pose proof (value_spec_range c2) as Hr'.
  set (k := 1 + Z.of_nat (String.length a)).
  set (B := weighted_sum (k + 1 + 1) b).
  set (A := weighted_sum 1 a).
  replace (startCode
           + (A + (value_spec c1 * k + (value_spec c2 * (k + 1) + B)))
           - (startCode
              + (A + (value_spec c2 * k + (value_spec c1 * (k + 1) + B)))))
    with ((value_spec c2 - value_spec c1) * 1) by lia.
  apply no_multiple_of_103; lia.
Qed.

End PureCMoreProofs.

Lemma pure_c_bitmap_bars_witness :
  (exists written,
     PureC.barcode_generate_pure_c runtime_ok (Some "A") (Some "out.bmp") 300 100 10
     = (0, Some written)
     /\ PureC.w_moduleWidth written = 6
     /\ PureC.biWidth (PureC.w_info written) = 296
     /\ (In (10 * PureC.cv_rowSize (PureC.w_canvas written) + 3 * 10 + 0)
           (PureC.w_writes written)
         <-> 10 <= 10 < 100 - 10 /\ 10 <= 10 < 296 - 10
             /\ nth (Z.to_nat ((10 - 10) / 6))
                  (symbols_bars (code128_symbols (PureC.c_str "A"))) false
                = true)
     /\ (forall o, In o (PureC.w_writes written) -> 0 <= o < 888 * 100))
  /\ (exists written,
        PureC.barcode_generate_pure_c runtime_ok (Some "A") (Some "out.bmp") 300 60 30
        = (0, Some written)
        /\ PureC.w_writes written = []).
Proof.
  split.
  - eexists; split; [vm_compute; reflexivity|].
    pose proof (pure_c_bitmap_bars runtime_ok "A" "out.bmp" 300 100 10 _
                  ltac:(vm_compute; discriminate) ltac:(cbn; lia) ltac:(lia)
                  ltac:(lia) eq_refl) as H.
    cbv zeta in H.
    destruct H as (_ & Hbuf & Hpix & _).
    split; [reflexivity|]; split; [reflexivity|]; split.
    + apply (Hpix 10 10 0); cbn; lia.
    + exact Hbuf.
  - eexists; split; [vm_compute; reflexivity|].
    apply (pure_c_bitmap_bars runtime_ok "A" "out.bmp" 300 60 30 _
             ltac:(vm_compute; discriminate) ltac:(cbn; lia) ltac:(lia)
             ltac:(lia) eq_refl).
    cbn; lia.
Defined.

Lemma pure_c_rows_padded_witness :
  exists written rowSize,
    PureC.barcode_generate_pure_c runtime_ok (Some "A") (Some "out.bmp") 300 100 10
    = (0, Some written)
    /\ PureC.biSizeImage (PureC.w_info written)
       = rowSize * PureC.biHeight (PureC.w_info written)
    /\ rowSize mod 4 = 0.
Proof.
  eexists.
  destruct (pure_c_rows_padded runtime_ok "A" "out.bmp" 300 100 10 _
              ltac:(vm_compute; discriminate) ltac:(cbn; lia) ltac:(lia)
              ltac:(lia) eq_refl) as (rowSize & H1 & H2 & _).
  exists rowSize; split; [vm_compute; reflexivity|]; split; assumption.
Defined.

Lemma checksum_detects_substitution_witness :
  PureC.calculate_checksum "PART-1" 104 <> PureC.calculate_checksum "PART-7" 104.
Proof.
  apply (checksum_detects_substitution "PART-" EmptyString "1" "7" 104);
    try reflexivity; try (cbn; lia); vm_compute; discriminate.
Defined.

Lemma checksum_detects_transposition_witness :
  PureC.calculate_checksum "AB-12" 104 <> PureC.calculate_checksum "AB-21" 104.
Proof.
  apply (checksum_detects_transposition "AB-" EmptyString "1" "2" 104);
    try reflexivity; try (cbn; lia); vm_compute; discriminate.
Defined.

(** ** The version check *)

Section VersionProofs.

Import VersionCheck.

Ltac version_cases :=
  unfold checkCreoVersion, getMinimumVersion, lt, ge,
    MIN_CREO_MAJOR_VERSION, MIN_CREO_MINOR_VERSION;
  cbn [major minor patch];
  repeat match goal with
         | |- context [?a =? ?b] => destruct (Z.eqb_spec a b)
         | H : context [?a =? ?b] |- _ => destruct (Z.eqb_spec a b)
         end;
  cbn [negb] in *;
  repeat match goal with
         | |- context [?a <? ?b] => destruct (Z.ltb_spec a b)
         | H : context [?a <? ?b] |- _ => destruct (Z.ltb_spec a b)
         | |- context [?a <=? ?b] => destruct (Z.leb_spec a b)
         | H : context [?a <=? ?b] |- _ => destruct (Z.leb_spec a b)
         end.

(** X13.  [operator>=] on versions is a total order, the lexicographic
    one on (major, minor, patch); [operator<] is its strict part; and
    [checkCreoVersion] accepts exactly the versions from 8.0.0 on, so a
    negative minor or patch number under major 8 is refused. *)
Theorem creo_version_order :
  (forall a, ge a a = true)
  /\ (forall a b, ge a b = true \/ ge b a = true)
  /\ (forall a b c, ge a b = true -> ge b c = true -> ge a c = true)
  /\ (forall a b, ge a b = true -> ge b a = true -> a = b)
  /\ (forall a b, lt a b = true -> ge b a = true /\ a <> b)
  /\ (forall v,
        checkCreoVersion v = true
        <-> 8 < major v
            \/ (major v = 8 /\ (0 < minor v \/ (minor v = 0 /\ 0 <= patch v)))).
Proof.
  repeat split.
  - intros [a1 a2 a3]; version_cases; congruence || lia.
  - intros [a1 a2 a3] [b1 b2 b3]; version_cases; (left; reflexivity)
      || (right; reflexivity) || lia.
  - intros [a1 a2 a3] [b1 b2 b3] [c1 c2 c3]; version_cases;
      intros; try reflexivity; try discriminate; lia.
  - intros [a1 a2 a3] [b1 b2 b3]; version_cases;
      intros; try discriminate; try lia; f_equal; lia.
  - revert H; destruct a as [a1 a2 a3], b as [b1 b2 b3]; version_cases;
      intros; try reflexivity; try discriminate; lia.
  - revert H; destruct a as [a1 a2 a3], b as [b1 b2 b3]; version_cases;
      intros; try discriminate; intros E; injection E; lia.
  - destruct v as [v1 v2 v3]; version_cases; intros; try discriminate; lia.
  - destruct v as [v1 v2 v3]; version_cases; intros; try reflexivity; lia.
Qed.

End VersionProofs.

(** ** Validation of the settings *)

Section SettingsProofs.

Import SettingsDialog.

Ltac settings_cases :=
  unfold validateConfig, validateConfig_fields, validateWidth,
    validateHeight, validateMargin,
    validateDpi, MIN_WIDTH, MAX_WIDTH, MIN_HEIGHT, MAX_HEIGHT, MIN_MARGIN,
    MAX_MARGIN, MIN_DPI, MAX_DPI;
  cbn [width height margin dpi type];
  repeat match goal with
         | |- context [?a <? ?b] =>
             lazymatch a with
             | type_value _ => fail
             | _ => lazymatch b with
                    | type_value _ => fail
                    | _ => destruct (Z.ltb_spec a b)
                    end
             end
         end;
  cbn [failure success valid negb fieldName errorMessage].

Lemma type_value_range (t : BarcodeType) :
  (type_value t <? 0) || (type_value EAN_13 <? type_value t) = false.
Proof. destruct t; reflexivity. Qed.

Lemma validateConfig_valid (cfg : BarcodeConfig) :
  valid (validateConfig cfg) = true
  <-> 50 <= width cfg <= 1000 /\ 20 <= height cfg <= 500
      /\ 0 <= margin cfg <= 50 /\ 72 <= dpi cfg <= 600.
Proof.
  destruct cfg as [t w h m s d].
  split.
  - settings_cases; rewrite ?type_value_range; cbn; intros; try discriminate; lia.
  - settings_cases; rewrite ?type_value_range; cbn; intros; try reflexivity; lia.
Qed.

(** X14.  [validateConfig] checks the width, the height, the margin,
    the resolution and the type, in that order, and answers for the first
    that fails.  It accepts exactly a width in 50..1000, a height in
    20..500, a margin in 0..50, a resolution in 72..600 and a type value
    in 0..4, with no message; a refusal names the first field that is out
    of range, with the message of the bound that is broken; a type value
    outside the enumeration is refused as "Invalid barcode type", field
    "type", when the four sizes pass.  A configuration whose type is one
    of the five enumerators is never refused for its type. *)
Theorem validateConfig_rules (typeValue w h m d : Z) :
  let r := validateConfig_fields typeValue w h m d in
  let w_ok := 50 <= w <= 1000 in
  let h_ok := 20 <= h <= 500 in
  let m_ok := 0 <= m <= 50 in
  let d_ok := 72 <= d <= 600 in
  let t_ok := 0 <= typeValue <= 4 in
  (valid r = true <-> w_ok /\ h_ok /\ m_ok /\ d_ok /\ t_ok)
  /\ (valid r = true -> r = success)
  /\ (fieldName r = "width" <-> ~ w_ok)
  /\ (fieldName r = "height" <-> w_ok /\ ~ h_ok)
  /\ (fieldName r = "margin" <-> w_ok /\ h_ok /\ ~ m_ok)
  /\ (fieldName r = "dpi" <-> w_ok /\ h_ok /\ m_ok /\ ~ d_ok)
  /\ (fieldName r = "type" <-> w_ok /\ h_ok /\ m_ok /\ d_ok /\ ~ t_ok)
  /\ (w < 50 -> r = failure "Width must be at least 50 pixels" "width")
  /\ (1000 < w -> r = failure "Width must not exceed 1000 pixels" "width")
  /\ (w_ok -> h < 20 ->
      r = failure "Height must be at least 20 pixels" "height")
  /\ (w_ok -> 500 < h ->
      r = failure "Height must not exceed 500 pixels" "height")
  /\ (w_ok -> h_ok -> m < 0 ->
      r = failure "Margin must be at least 0 pixels" "margin")
  /\ (w_ok -> h_ok -> 50 < m ->
      r = failure "Margin must not exceed 50 pixels" "margin")
  /\ (w_ok -> h_ok -> m_ok -> d < 72 ->
      r = failure "DPI must be at least 72" "dpi")
  /\ (w_ok -> h_ok -> m_ok -> 600 < d ->
      r = failure "DPI must not exceed 600" "dpi")
  /\ (w_ok -> h_ok -> m_ok -> d_ok -> ~ t_ok ->
      r = failure "Invalid barcode type" "type")
  /\ (forall cfg : BarcodeConfig,
        validateConfig cfg
        = validateConfig_fields (type_value (type cfg))
            (width cfg) (height cfg) (margin cfg) (dpi cfg)
        /\ 0 <= type_value (type cfg) <= 4
        /\ fieldName (validateConfig cfg) <> "type").
Proof.
  cbv zeta.
  assert (Htype : forall cfg : BarcodeConfig,
            validateConfig cfg
            = validateConfig_fields (type_value (type cfg))
                (width cfg) (height cfg) (margin cfg) (dpi cfg)
            /\ 0 <= type_value (type cfg) <= 4
            /\ fieldName (validateConfig cfg) <> "type").
  { intros [t cw ch cm cs cd]; split; [reflexivity|]; split.
    - destruct t; cbn; lia.
    - settings_cases; rewrite ?type_value_range; cbn; discriminate. }
  unfold validateConfig_fields, validateWidth, validateHeight, validateMargin,
    validateDpi, MIN_WIDTH, MAX_WIDTH, MIN_HEIGHT, MAX_HEIGHT, MIN_MARGIN,
    MAX_MARGIN, MIN_DPI, MAX_DPI.
  change (type_value EAN_13) with 4.
  repeat match goal with
         | |- context [?a <? ?b] =>
             destruct (Z.ltb_spec a b);
             cbn [failure success valid negb fieldName errorMessage orb]
         end;
    (repeat split; try exact Htype; intros;
     try reflexivity; try discriminate; try lia;
     try (exfalso; lia);
     try match goal with
         | H : ~ _ |- _ => exfalso; apply H; lia
         | cfg : BarcodeConfig |- _ =>
             destruct (Htype cfg) as (_ & ? & ?); first [assumption | lia]
         end).
Qed.

(** X15.  A configuration that passes [validateConfig] goes through the
    stand-alone [show] unchanged, unaccepted and without an error being
    recorded, and never makes [generate] fail on its dimensions: with it
    [generate] fails only on the data or in the writer. *)
Theorem validated_config_generates (cfg : BarcodeConfig)
    (env : BarcodeGenerator.Collaborators) (lastError0 : ErrorInfo)
    (data outputPath : string) :
  valid (validateConfig cfg) = true ->
  show lastError0 cfg = (mkDialogResult false cfg, lastError0)
  /\ (let out := BarcodeGenerator.generate env lastError0 data cfg outputPath in
      BarcodeGenerator.returned out = false ->
      code (BarcodeGenerator.lastError_ out) = INVALID_DATA
      \/ (code (BarcodeGenerator.lastError_ out) = BARCODE_GENERATION_FAILED
          /\ BarcodeGenerator.events out <> [])).
Proof.
  intros Hv; split.
  - unfold show; now rewrite Hv.
  - apply validateConfig_valid in Hv.
    cbv zeta; unfold BarcodeGenerator.generate.
    destruct (string_empty data); [now left|].
    destruct (Z.leb_spec (width cfg) 0); [lia|].
    destruct (Z.leb_spec (height cfg) 0); [lia|].
    cbn [orb].
    destruct (BarcodeGenerator.validateData data (type cfg)); [|now left].
    cbn [negb].
    destruct (BarcodeGenerator.writer_encode env _ data _ _).
    + destruct (BarcodeGenerator.stbi_write_png env _ _ _ _ _ _);
        cbn; [discriminate|].
      intros _; right; split; [reflexivity | discriminate].
    + cbn; intros _; right; split; [reflexivity | discriminate].
Qed.

End SettingsProofs.

Lemma validated_config_generates_witness :
  SettingsDialog.show no_error (mkConfig CODE_128 200 80 10 true 300)
  = (SettingsDialog.mkDialogResult false (mkConfig CODE_128 200 80 10 true 300),
     no_error).
Proof.
  apply (validated_config_generates (mkConfig CODE_128 200 80 10 true 300)
           checker_writer no_error "A" "out.png" eq_refl).
Defined.

(** ** The members of the COM bridge *)

Section BridgeCoreProofs.

Import Char CreoComBridgeCore.

Lemma tolower_idempotent (c : ascii) : tolower (tolower c) = tolower c.
Proof. each_char c; reflexivity. Qed.

Lemma tolower_dot (c : ascii) : char_is 46 (tolower c) = char_is 46 c.
Proof. each_char c; reflexivity. Qed.

Lemma transform_tolower_idempotent (s : string) :
  transform_tolower (transform_tolower s) = transform_tolower s.
Proof.
  induction s as [|c s IH]; cbn; [reflexivity|].
  now rewrite tolower_idempotent, IH.
Qed.

Lemma char_is_46 (c : ascii) : char_is 46 c = true <-> c = "."%char.
Proof.
  split; [|intros ->; reflexivity].
  each_char c; cbn; intros E; try discriminate; reflexivity.
Qed.

Lemma existsb_eqb_In (e : string) (l : list string) :
  existsb (String.eqb e) l = true <-> In e l.
Proof.
  rewrite existsb_exists; split.
  - intros (x & Hin & Heq); apply String.eqb_eq in Heq; now subst.
  - intros Hin; exists e; split; [assumption | apply String.eqb_refl].
Qed.

(** The answer of [isFormatSupported] in terms of the lower-cased
    argument. *)
Lemma isFormatSupported_lower (s : string) :
  isFormatSupported s = true
  <-> In (transform_tolower s)
        [".png"; ".jpg"; ".jpeg"; ".bmp"; "png"; "jpg"; "jpeg"; "bmp"].
Proof.
  unfold isFormatSupported, getSupportedFormats.
  rewrite existsb_eqb_In.
  destruct s as [|c r]; [cbn; intuition discriminate|].
  pose proof (tolower_dot c) as Hdot.
  destruct (char_is 46 c) eqn:Ec; cbn [negb].
  - apply char_is_46 in Ec; subst c.
    cbn; intuition (try discriminate; auto).
  - assert (Hne : tolower c <> "."%char).
    { intros E; apply char_is_46 in E; congruence. }
    cbn [append transform_tolower].
    change (tolower ".") with "."%char.
    cbn [In]; split.
    + intros [E|[E|[E|[E|[]]]]]; injection E as E1 E2;
        rewrite <- E1, <- E2; cbn; auto 10.
    + intros [E|[E|[E|[E|[E|[E|[E|[E|[]]]]]]]]];
        try (injection E as E1 E2; congruence);
        rewrite <- E; cbn; auto.
Qed.

(** X16.  [isFormatSupported] accepts exactly png, jpg, jpeg and bmp,
    with or without one leading dot and in any mix of upper and lower
    case: the answer depends on the argument through its lower-cased
    form only, a leading dot may be added to an argument that has none,
    and the empty string and a name with two dots are refused. *)
Theorem isFormatSupported_rules :
  (forall s,
      isFormatSupported s = true
      <-> In (transform_tolower s)
            [".png"; ".jpg"; ".jpeg"; ".bmp"; "png"; "jpg"; "jpeg"; "bmp"])
  /\ (forall s t,
        transform_tolower s = transform_tolower t ->
        isFormatSupported s = isFormatSupported t)
  /\ (forall c r,
        char_is 46 c = false ->
        isFormatSupported ("." ++ String c r) = isFormatSupported (String c r))
  /\ isFormatSupported EmptyString = false
  /\ (forall s, isFormatSupported ("." ++ "." ++ s) = false).
Proof.
  split; [exact isFormatSupported_lower|].
  assert (Hcase : forall s t, transform_tolower s = transform_tolower t ->
                              isFormatSupported s = isFormatSupported t).
  { intros s t E.
    destruct (isFormatSupported s) eqn:Es, (isFormatSupported t) eqn:Et;
      try reflexivity.
    - apply isFormatSupported_lower in Es; rewrite E in Es.
      apply isFormatSupported_lower in Es; congruence.
    - apply isFormatSupported_lower in Et; rewrite <- E in Et.
      apply isFormatSupported_lower in Et; congruence. }
  split; [exact Hcase|]; split; [|split; [reflexivity|]].
  - intros c r Hc.
    unfold isFormatSupported at 2; rewrite Hc; cbn [negb].
    unfold isFormatSupported; reflexivity.
  - intros s.
    destruct (isFormatSupported ("." ++ "." ++ s)) eqn:E; [|reflexivity].
    apply isFormatSupported_lower in E; cbn in E.
    intuition discriminate.
Qed.

Lemma hex8_E_FAIL : hex8 E_FAIL = "80004005".
Proof. vm_compute; reflexivity. Qed.

Lemma hex8_E_NOTIMPL : hex8 E_NOTIMPL = "80004001".
Proof. vm_compute; reflexivity. Qed.

Lemma setError_failed_with (st : BridgeState) (message : string) :
  failed_with st (setError st message).
Proof.
  unfold failed_with, setError.
  cbn [m_lastHResult m_lastError m_initialized m_comInitialized
       m_pConnection m_pSession].
  rewrite hex8_E_FAIL.
  repeat split; exists message; reflexivity.
Qed.

(** X17.  [validateImageFile] answers true only for a path that is not
    empty and names an existing regular file of more than 0 bytes whose
    extension [isFormatSupported] accepts too, and then leaves the
    bridge as it was; every refusal records [E_FAIL] and a message that
    ends in the code in hexadecimal, and touches nothing else. *)
Theorem validateImageFile_outcomes (h : Host) (st : BridgeState) (path : string) :
  let out := validateImageFile h st path in
  (fst out = true ->
   snd out = st
   /\ path <> EmptyString
   /\ fs_exists h path = inl true
   /\ fs_is_regular_file h path = inl true
   /\ isFormatSupported (fs_extension h path) = true
   /\ exists fileSize, fs_file_size h path = inl fileSize /\ fileSize <> 0)
  /\ (fst out = false -> failed_with st (snd out)).
Proof.
  cbv zeta; unfold validateImageFile.
  destruct path as [|c r]; cbn [string_empty].
  { split; [discriminate | intros _; apply setError_failed_with]. }
  destruct (fs_exists h (String c r)) as [[|]|ec];
    try (split; [discriminate | intros _; apply setError_failed_with]).
  destruct (fs_is_regular_file h (String c r)) as [[|]|ec];
    try (split; [discriminate | intros _; apply setError_failed_with]).
  destruct (existsb _ _) eqn:Efmt; cbn [negb];
    try (split; [discriminate | intros _; apply setError_failed_with]).
  destruct (fs_file_size h (String c r)) as [fileSize|ec];
    try (split; [discriminate | intros _; apply setError_failed_with]).
  destruct (Z.eqb_spec fileSize 0);
    try (split; [discriminate | intros _; apply setError_failed_with]).
  split; [intros _ | discriminate].
  repeat split; try discriminate.
  - apply isFormatSupported_lower.
    apply existsb_eqb_In in Efmt.
    cbn [In] in *; intuition auto.
  - exists fileSize; auto.
Qed.

(** [CreateOutline2D] answers [E_NOTIMPL] without an outline, so no
    path through [insertImage] reaches its last line. *)
Lemma insertImage_refuses (h : Host) (st : BridgeState)
    (imagePath : string) (x y width height : float) :
  fst (insertImage h st imagePath x y width height) = false.
Proof.
  unfold insertImage.
  destruct (string_empty imagePath); [reflexivity|].
  destruct ((width <? 0)%float || (height <? 0)%float); [reflexivity|].
  destruct (validateImageFile h st imagePath) as [[|] st1]; [|reflexivity].
  cbn [negb].
  destruct (m_initialized st1); [|reflexivity].
  cbn [negb].
  destruct (getCurrentDrawing h st1) as [[drawing|] st2]; [|reflexivity].
  destruct (stringToBSTR h (utf8ToWstring h imagePath)); reflexivity.
Qed.

(** X18.  [insertImage] never answers true, whatever the file system,
    the CAD session and the arguments.  So through the C interface
    [barcode_insert_image] always answers -1, and
    [barcode_insert_image_with_fallback] never reports an insertion
    through COM: it answers -1 for a null path and otherwise 1, with the
    fallback flag set. *)
Theorem insertImage_never_succeeds (h : Host) (st : BridgeState)
    (imagePath : string) (path : option string) (x y width height : float)
    (g_comBridgeLastError : string) (partName : option string)
    (usedFallback : bool) :
  fst (insertImage h st imagePath x y width height) = false
  /\ fst (fst (CApi.barcode_insert_image (bridge h) st g_comBridgeLastError
                 path x y width height)) = -1
  /\ (let out :=
        CApi.barcode_insert_image_with_fallback (bridge h) m_initialized st
          g_comBridgeLastError path x y width height partName usedFallback in
      fst (fst (fst out)) <> 0
      /\ (fst (fst (fst out)) = -1 <-> path = None)
      /\ (path <> None ->
          fst (fst (fst out)) = 1
          /\ snd (fst (fst out)) = if usedFallback then Some 1 else None)).
Proof.
  split; [apply insertImage_refuses|]; split.
  - unfold CApi.barcode_insert_image.
    destruct path as [p|]; [|reflexivity].
    change (CreoComBridge.insertImage (bridge h)) with (insertImage h).
    pose proof (insertImage_refuses h st (PureC.c_str p) x y width height) as Hno.
    destruct (insertImage h st _ _ _ _ _) as [ok st1]; cbn in Hno; subst ok.
    reflexivity.
  - cbv zeta; unfold CApi.barcode_insert_image_with_fallback.
    destruct path as [p|].
    + change (CreoComBridge.insertImage (bridge h)) with (insertImage h).
      pose proof (insertImage_refuses h st (PureC.c_str p) x y width height) as Hno.
      destruct (insertImage h st _ _ _ _ _) as [ok st1]; cbn in Hno; subst ok.
      destruct (m_initialized st); cbn;
        (split; [discriminate|]; split; [split; discriminate | auto]).
    + cbn; split; [discriminate|]; split; [split; reflexivity|].
      intros Hne; now elim Hne.
Qed.

(** X19.  An insertion that passes every check before the outline, on
    an initialised bridge with a drawing open, stops there: the bridge
    records [E_NOTIMPL], and its message names the missing type library
    and the code 0x80004001. *)
Theorem insertImage_stops_at_outline (h : Host) (st st' : BridgeState)
    (drawing : IpfcDrawing h) (imagePath : string) (x y width height : float) :
  (width <? 0)%float = false ->
  (height <? 0)%float = false ->
  validateImageFile h st imagePath = (true, st) ->
  m_initialized st = true ->
  getCurrentDrawing h st = (Some drawing, st') ->
  SysAllocString h (utf8ToWstring h imagePath) = true ->
  let out := insertImage h st imagePath x y width height in
  fst out = false
  /\ m_lastHResult (snd out) = E_NOTIMPL
  /\ exists tail,
       m_lastError (snd out)
       = "CreateOutline2D not implemented - Creo type library required (HRESULT: 0x80004001"
         ++ tail ++ ")".
Proof.
  intros Hw Hh Hv Hi Hd Hb; cbv zeta; unfold insertImage.
  assert (Hp : string_empty imagePath = false).
  { destruct imagePath; [|reflexivity].
    unfold validateImageFile in Hv; cbn in Hv; discriminate. }
  rewrite Hp, Hw, Hh, Hv; cbn [orb negb].
  rewrite Hi, Hd; cbn [negb].
  unfold stringToBSTR; rewrite Hb.
  cbn -[setError_hr].
  unfold setError_hr; cbn [m_lastHResult m_lastError].
  rewrite hex8_E_NOTIMPL.
  repeat split.
  destruct (system_message h E_NOTIMPL) as [utf8Msg|].
  - exists (" - " ++ utf8Msg); reflexivity.
  - exists EmptyString; reflexivity.
Qed.

End BridgeCoreProofs.

(** Both loops on a bridge whose [insertImage] always refuses: every
    input is counted as a failure and listed, in order. *)
Section RefusingBridge.

Import CreoComBridge.

Context {St : Type}.
Variable b : Bridge St.
Hypothesis refuses :
  forall st path px py pw ph, fst (insertImage b st path px py pw ph) = false.

Lemma tally_refused (result : BatchInsertResult) (path : string) (st : St) :
  failCount result + 1 <= Int32.INT_MAX ->
  0 <= failCount result ->
  let r := tally b result false path st in
  totalCount r = totalCount result
  /\ successCount r = successCount result
  /\ failCount r = failCount result + 1
  /\ failedPaths r = (failedPaths result ++ [path])%list
  /\ List.length (errorMessages r) = S (List.length (errorMessages result)).
Proof.
  intros Hmax Hmin; cbv zeta; unfold tally, Int32.add.
  cbn [totalCount successCount failCount failedPaths errorMessages].
  rewrite wrap_small by (unfold Int32.INT_MIN; lia).
  rewrite length_app; cbn [List.length].
  repeat split; lia.
Qed.

Lemma images_loop_all_fail (images : list BatchImageInfo) :
  forall (st : St) (result : BatchInsertResult) (calls : list InsertCall),
    0 <= failCount result ->
    failCount result + Z.of_nat (List.length images) <= Int32.INT_MAX ->
    let r := fst (fst (images_loop b images st result calls)) in
    totalCount r = totalCount result
    /\ successCount r = successCount result
    /\ failCount r = failCount result + Z.of_nat (List.length images)
    /\ failedPaths r = (failedPaths result ++ map imagePath images)%list
    /\ List.length (errorMessages r)
       = (List.length (errorMessages result) + List.length images)%nat.
Proof.
  induction images as [|img rest IH]; intros st result calls Hmin Hmax.
  - cbn; rewrite app_nil_r; repeat split; lia.
  - cbn [images_loop List.length] in *.
    rewrite Nat2Z.inj_succ in Hmax.
    pose proof (refuses st (imagePath img) (img_x img) (img_y img)
                  (img_width img) (img_height img)) as Hno.
    destruct (insertImage b st _ _ _ _ _) as [ok st1]; cbn in Hno; subst ok.
    destruct (tally_refused result (imagePath img) st1)
      as (T0 & T1 & T2 & T3 & T4); [lia|lia|].
    match goal with
    | |- context [images_loop b rest st1 ?r ?c] =>
        destruct (IH st1 r c) as (I0 & I1 & I2 & I3 & I4); [lia|lia|]
    end.
    cbv zeta in *.
    rewrite I0, I1, I2, I3, I4, T0, T1, T2, T3, T4.
    cbn [map]; rewrite <- app_assoc.
    repeat split; cbn; lia.
Qed.

Lemma grid_loop_all_fail (paths : list string) :
  forall (i : nat) (cols : Z) (params : GridLayoutParams)
         (st : St) (result : BatchInsertResult) (calls : list InsertCall),
    0 <= failCount result ->
    failCount result + Z.of_nat (List.length paths) <= Int32.INT_MAX ->
    let r := fst (fst (grid_loop b paths i cols params st result calls)) in
    totalCount r = totalCount result
    /\ successCount r = successCount result
    /\ failCount r = failCount result + Z.of_nat (List.length paths)
    /\ failedPaths r = (failedPaths result ++ paths)%list
    /\ List.length (errorMessages r)
       = (List.length (errorMessages result) + List.length paths)%nat.
Proof.
  induction paths as [|path rest IH];
    intros i cols params st result calls Hmin Hmax.
  - cbn; rewrite app_nil_r; repeat split; lia.
  - cbn [grid_loop List.length] in *.
    rewrite Nat2Z.inj_succ in Hmax.
    cbv zeta.
    set (pos := calculateGridPosition _ _ _ _ _ _ _).
    pose proof (refuses st path (x pos) (y pos)
                  (cell_width params) (cell_height params)) as Hno.
    destruct (insertImage b st _ _ _ _ _) as [ok st1]; cbn in Hno; subst ok.
    destruct (tally_refused result path st1)
      as (T0 & T1 & T2 & T3 & T4); [lia|lia|].
    match goal with
    | |- context [grid_loop b rest (S i) cols params st1 ?r ?c] =>
        destruct (IH (S i) cols params st1 r c) as (I0 & I1 & I2 & I3 & I4);
          [lia|lia|]
    end.
    cbv zeta in *.
    rewrite I0, I1, I2, I3, I4, T0, T1, T2, T3, T4.
    rewrite <- app_assoc.
    repeat split; cbn; lia.
Qed.

End RefusingBridge.

Section BridgeBatchProofs.

Import CreoComBridge.

(** X20.  On the bridge as it is written, a batch inserts nothing:
    [batchInsertImages] and [batchInsertImagesGrid] count every input as
    a failure, list every path as failed, in order, with one message
    each, and report no success. *)
Theorem batch_insert_all_fail (h : CreoComBridgeCore.Host)
    (st : CreoComBridgeCore.BridgeState)
    (images : list BatchImageInfo) (paths : list string)
    (params : GridLayoutParams) :
  Z.of_nat (List.length images) <= Int32.INT_MAX ->
  Z.of_nat (List.length paths) <= Int32.INT_MAX ->
  let r1 := fst (fst (batchInsertImages (CreoComBridgeCore.bridge h) st images)) in
  let r2 :=
    fst (fst (batchInsertImagesGrid (CreoComBridgeCore.bridge h) st paths params)) in
  (successCount r1 = 0
   /\ failCount r1 = Z.of_nat (List.length images)
   /\ totalCount r1 = Z.of_nat (List.length images)
   /\ failedPaths r1 = map imagePath images
   /\ List.length (errorMessages r1) = List.length images)
  /\ (successCount r2 = 0
      /\ failCount r2 = Z.of_nat (List.length paths)
      /\ totalCount r2 = Z.of_nat (List.length paths)
      /\ failedPaths r2 = paths
      /\ List.length (errorMessages r2) = List.length paths).
Proof.
  intros H1 H2; cbv zeta; split.
  - unfold batchInsertImages.
    rewrite of_size_small by assumption.
    destruct images as [|img rest] eqn:E; [cbn; auto 6|].
    rewrite <- E in *.
    match goal with
    | |- context [images_loop ?b images st ?r ?c] =>
        destruct (images_loop_all_fail b
                    (insertImage_refuses h)
                    images st r c) as (I0 & I1 & I2 & I3 & I4);
          [cbn; lia | cbn; lia |]
    end.
    cbv zeta in *; cbn in I0, I1, I2, I3, I4.
    rewrite I0, I1, I2, I3, I4; auto 6.
  - unfold batchInsertImagesGrid.
    rewrite of_size_small by assumption.
    destruct paths as [|p rest] eqn:E; [cbn; auto 6|].
    rewrite <- E in *.
    match goal with
    | |- context [grid_loop ?b paths ?i ?cols params st ?r ?c] =>
        destruct (grid_loop_all_fail b
                    (insertImage_refuses h)
                    paths i cols params st r c) as (I0 & I1 & I2 & I3 & I4);
          [cbn; lia | cbn; lia |]
    end.
    cbv zeta in *; cbn in I0, I1, I2, I3, I4.
    rewrite I0, I1, I2, I3, I4; auto 6.
Qed.

End BridgeBatchProofs.

Lemma insertImage_stops_at_outline_witness :
  let out :=
    CreoComBridgeCore.insertImage friendly_host bridge_ready "a.png" 10 20 0 0 in
  fst out = false
  /\ CreoComBridgeCore.m_lastHResult (snd out) = CreoComBridgeCore.E_NOTIMPL
  /\ exists tail,
       CreoComBridgeCore.m_lastError (snd out)
       = "CreateOutline2D not implemented - Creo type library required (HRESULT: 0x80004001"
         ++ tail ++ ")".
Proof.
  apply (insertImage_stops_at_outline friendly_host bridge_ready bridge_ready tt
           "a.png" 10 20 0 0); reflexivity.
Defined.

Lemma batch_insert_all_fail_witness :
  CreoComBridge.successCount
    (fst (fst (CreoComBridge.batchInsertImages
                 (CreoComBridgeCore.bridge friendly_host) bridge_ready
                 [CreoComBridge.mkBatchImageInfo "a.png" 0 0 50 50;
                  CreoComBridge.mkBatchImageInfo "b.png" 60 0 50 50]))) = 0
  /\ CreoComBridge.failedPaths
       (fst (fst (CreoComBridge.batchInsertImagesGrid
                    (CreoComBridgeCore.bridge friendly_host) bridge_ready
                    ["a.png"; "b.png"; "c.png"] grid_3)))
     = ["a.png"; "b.png"; "c.png"].
Proof.
  pose proof (batch_insert_all_fail friendly_host bridge_ready
                [CreoComBridge.mkBatchImageInfo "a.png" 0 0 50 50;
                 CreoComBridge.mkBatchImageInfo "b.png" 60 0 50 50]
                ["a.png"; "b.png"; "c.png"] grid_3
                ltac:(vm_compute; discriminate) ltac:(vm_compute; discriminate))
    as H.
  cbv zeta in H.
  split; [exact (proj1 (proj1 H)) | exact (proj1 (proj2 (proj2 (proj2 (proj2 H)))))].
Defined.

(** ** The C interface *)

Section WrapperLoops.

Import CreoComBridge.

Context {St : Type}.
Variable b : Bridge St.

(** The arguments of a call, as the image it was made for. *)
Lemma images_loop_calls (images : list BatchImageInfo) :
  forall (st : St) (result : BatchInsertResult) (calls : list InsertCall),
    exists new,
      snd (images_loop b images st result calls) = (calls ++ new)%list
      /\ map (fun c => mkBatchImageInfo (call_path c) (call_x c) (call_y c)
                         (call_width c) (call_height c)) new
         = images.
Proof.
  induction images as [|img rest IH]; intros st result calls.
  - exists []; cbn; now rewrite app_nil_r.
  - cbn [images_loop].
    destruct (insertImage b st _ _ _ _ _) as [ok st1].
    match goal with
    | |- context [images_loop b rest st1 ?r ?c] =>
        destruct (IH st1 r c) as (new & E1 & E2)
    end.
    eexists (_ :: new); rewrite E1, <- app_assoc; split; [reflexivity|].
    cbn; rewrite E2; now destruct img.
Qed.

Lemma grid_loop_calls (paths : list string) :
  forall (i : nat) (cols : Z) (params : GridLayoutParams)
         (st : St) (result : BatchInsertResult) (calls : list InsertCall),
    exists new,
      snd (grid_loop b paths i cols params st result calls) = (calls ++ new)%list
      /\ List.length new = List.length paths
      /\ forall k c,
           nth_error new k = Some c ->
           let pos :=
             calculateGridPosition (Int32.of_size (i + k)) cols (spacing params)
               (startX params) (startY params)
               (cell_width params) (cell_height params) in
           call_x c = x pos /\ call_y c = y pos
           /\ call_width c = cell_width params
           /\ call_height c = cell_height params.
Proof.
  induction paths as [|path rest IH]; intros i cols params st result calls.
  - exists []; cbn; rewrite app_nil_r.
    split; [reflexivity|]; split; [reflexivity|].
    intros [|k] c E; discriminate.
  - cbn [grid_loop]; cbv zeta.
    destruct (insertImage b st _ _ _ _ _) as [ok st1].
    match goal with
    | |- context [grid_loop b rest (S i) cols params st1 ?r ?c] =>
        destruct (IH (S i) cols params st1 r c) as (new & E1 & E2 & E3)
    end.
    eexists (_ :: new); rewrite E1, <- app_assoc; split; [reflexivity|].
    split; [cbn; now rewrite E2|].
    intros [|k] c E.
    + injection E as <-; cbn; rewrite Nat.add_0_r; auto.
    + cbn in E; specialize (E3 k c E); cbv zeta in E3.
      replace (i + S k)%nat with (S i + k)%nat by lia; exact E3.
Qed.

End WrapperLoops.

Section CApiProofs.

Import CreoComBridge CApi.

Lemma collect_paths_length (l : list (option string)) :
  (List.length (collect_paths l) <= List.length l)%nat.
Proof.
  induction l as [|[p|] l IH]; cbn; lia.
Qed.

Lemma collect_images_paths (l : list (option string)) (positions : list float)
    (i : Z) (w h : float) :
  map imagePath (collect_images l positions i w h) = collect_paths l.
Proof.
  revert i; induction l as [|[p|] l IH]; intros i; cbn; [reflexivity| |apply IH].
  now rewrite IH.
Qed.

(** Where an image collected by the loop comes from: the entry of index
    [j] of the array, whose coordinates are read at [2 j] and [2 j + 1]. *)
Lemma collect_images_source (l : list (option string)) (positions : list float)
    (w h : float) :
  forall (i : Z) (k : nat) (img : BatchImageInfo),
    0 <= i ->
    i + Z.of_nat (List.length l) <= 1073741823 ->
    nth_error (collect_images l positions i w h) k = Some img ->
    exists (j : nat) (p : string),
      nth_error l j = Some (Some p)
      /\ List.length (collect_paths (firstn j l)) = k
      /\ imagePath img = PureC.c_str p
      /\ img_x img = nth (Z.to_nat (2 * (i + Z.of_nat j))) positions 0%float
      /\ img_y img = nth (Z.to_nat (2 * (i + Z.of_nat j) + 1)) positions 0%float
      /\ img_width img = w /\ img_height img = h.
Proof.
  induction l as [|[p|] l IH]; intros i k img Hi Hmax E.
  - destruct k; discriminate.
  - cbn [collect_images] in E; cbn [List.length] in Hmax.
    rewrite Nat2Z.inj_succ in Hmax.
    destruct k as [|k].
    + injection E as <-.
      exists 0%nat, p; cbn [nth_error firstn collect_paths List.length
                            imagePath img_x img_y img_width img_height].
      unfold Int32.mul, Int32.add.
      rewrite (wrap_small (i * 2)) by (unfold Int32.INT_MIN, Int32.INT_MAX; lia).
      rewrite (wrap_small (i * 2 + 1))
        by (unfold Int32.INT_MIN, Int32.INT_MAX; lia).
      replace (2 * (i + Z.of_nat 0)) with (i * 2) by lia.
      repeat split; reflexivity.
    + cbn [nth_error] in E.
      destruct (IH (i + 1) k img ltac:(lia) ltac:(lia) E)
        as (j & q & J1 & J2 & J3 & J4 & J5 & J6 & J7).
      exists (S j), q; cbn [nth_error firstn collect_paths List.length].
      rewrite J2, J3, J4, J5.
      replace (i + 1 + Z.of_nat j) with (i + Z.of_nat (S j)) by lia.
      repeat split; assumption.
  - cbn [collect_images] in E; cbn [List.length] in Hmax.
    rewrite Nat2Z.inj_succ in Hmax.
    destruct (IH (i + 1) k img ltac:(lia) ltac:(lia) E)
      as (j & q & J1 & J2 & J3 & J4 & J5 & J6 & J7).
    exists (S j), q; cbn [nth_error firstn collect_paths].
    rewrite J3, J4, J5.
    replace (i + 1 + Z.of_nat j) with (i + Z.of_nat (S j)) by lia.
    repeat split; assumption.
Qed.

Lemma collect_paths_present (l : list (option string)) :
  collect_paths l = present_paths l.
Proof.
  unfold present_paths; induction l as [|[p|] l IH]; cbn; [reflexivity| |exact IH].
  now rewrite IH.
Qed.

Lemma collect_images_requests (l : list (option string)) (positions : list float)
    (w h : float) :
  forall i : nat,
    Z.of_nat i + Z.of_nat (List.length l) <= 1073741823 ->
    collect_images l positions (Z.of_nat i) w h
    = flat_map (fun '(j, entry) =>
                  match entry with
                  | Some path =>
                      [mkBatchImageInfo (PureC.c_str path)
                         (nth (2 * j) positions 0%float)
                         (nth (2 * j + 1) positions 0%float) w h]
                  | None => []
                  end)
        (combine (seq i (List.length l)) l).
Proof.
  induction l as [|[p|] l IH]; intros i Hmax; [reflexivity| |];
    cbn [collect_images List.length seq combine flat_map app] in *;
    rewrite Nat2Z.inj_succ in Hmax;
    replace (Z.of_nat i + 1) with (Z.of_nat (S i)) by lia;
    rewrite IH by lia; [|reflexivity].
  unfold Int32.mul, Int32.add.
  rewrite (wrap_small (Z.of_nat i * 2))
    by (unfold Int32.INT_MIN, Int32.INT_MAX; lia).
  rewrite (wrap_small (Z.of_nat i * 2 + 1))
    by (unfold Int32.INT_MIN, Int32.INT_MAX; lia).
  replace (Z.to_nat (Z.of_nat i * 2)) with (2 * i)%nat by lia.
  replace (Z.to_nat (Z.of_nat i * 2 + 1)) with (2 * i + 1)%nat by lia.
  reflexivity.
Qed.

Lemma copy_results_summary (total : Z) (calls : list InsertCall) (result : bool) :
  fst (fst (copy_results (summary_of total calls) result))
  = Z.of_nat (List.length (filter call_ok calls))
  /\ snd (fst (copy_results (summary_of total calls) result))
     = (if result then
          Some (mkBatchInsertResultC total
                  (Z.of_nat (List.length (filter call_ok calls)))
                  (Z.of_nat (List.length (filter call_failed calls))))
        else None)
  /\ snd (copy_results (summary_of total calls) result)
     = back (map call_error (filter call_failed calls)).
Proof.
  unfold copy_results, summary_of.
  cbn [totalCount successCount failCount errorMessages fst snd].
  repeat split.
  destruct (filter call_failed calls) as [|c l]; reflexivity.
Qed.

Context {St : Type}.
Variable b : Bridge St.

(** X21.  [barcode_batch_insert_images_grid] skips the null entries of
    the array before the grid is laid out: [insertImage] is called once
    for each entry that is not null, in order, the k-th call at the k-th
    cell of the grid, so a null entry leaves no hole; a column count
    below 1 counts as 1.  The calls are the answers of [insertImage] to
    these requests, each made on the bridge as the call before it left
    it, and the bridge ends as the last call left it.  The value returned
    is the number of calls that succeeded, and the total left behind
    [result] is the number of entries that are not null, not [count]. *)
Theorem grid_wrapper_skips_nulls (st : St) (g_comBridgeLastError : string)
    (imagePaths : list (option string))
    (startX startY width height : float) (columns : Z) (spacing : float)
    (result : bool) :
  imagePaths <> [] ->
  Z.of_nat (List.length imagePaths) <= Int32.INT_MAX ->
  let out :=
    barcode_batch_insert_images_grid b st g_comBridgeLastError
      (Some imagePaths) (Z.of_nat (List.length imagePaths))
      startX startY width height columns spacing result in
  let calls := snd out in
  let cols := if 0 <? columns then columns else 1 in
  map call_path calls = collect_paths imagePaths
  /\ (forall k c,
        nth_error calls k = Some c ->
        let pos :=
          calculateGridPosition (Z.of_nat k) cols spacing startX startY
            width height in
        call_x c = x pos /\ call_y c = y pos
        /\ call_width c = width /\ call_height c = height)
  /\ fst (fst (fst (fst out))) = Z.of_nat (List.length (filter call_ok calls))
  /\ snd (fst (fst (fst out)))
     = (if result then
          Some (mkBatchInsertResultC (Z.of_nat (List.length calls))
                  (Z.of_nat (List.length (filter call_ok calls)))
                  (Z.of_nat (List.length (filter call_failed calls))))
        else None)
  /\ snd (fst (fst out)) = back (map call_error (filter call_failed calls))
  /\ (let run :=
        answers b st
          (grid_requests (present_paths imagePaths)
             (mkGridLayoutParams startX startY width height cols spacing)) in
      calls = fst run /\ snd (fst out) = snd run).
Proof.
  intros Hne Hmax; cbv zeta.
  unfold barcode_batch_insert_images_grid.
  destruct (Z.leb_spec (Z.of_nat (List.length imagePaths)) 0) as [Hz|_].
  { destruct imagePaths; [now elim Hne | cbn in Hz; lia]. }
  rewrite Nat2Z.id, firstn_all.
  set (paths := collect_paths imagePaths).
  assert (Hlen : Z.of_nat (List.length paths) <= Int32.INT_MAX).
  { pose proof (collect_paths_length imagePaths); unfold paths; lia. }
  set (cols := if 0 <? columns then columns else 1).
  assert (Hcols : (if cols <? 1 then 1 else cols) = cols).
  { unfold cols; destruct (Z.ltb_spec 0 columns);
      [destruct (Z.ltb_spec columns 1); lia | reflexivity]. }
  set (params := mkGridLayoutParams startX startY width height cols spacing).
  assert (Hsum : exists calls,
             batchInsertImagesGrid b st paths params
             = (summary_of (Z.of_nat (List.length calls)) calls,
                snd (fst (batchInsertImagesGrid b st paths params)), calls)
             /\ map call_path calls = paths
             /\ forall k c,
                  nth_error calls k = Some c ->
                  let pos :=
                    calculateGridPosition (Z.of_nat k) cols spacing startX startY
                      width height in
                  call_x c = x pos /\ call_y c = y pos
                  /\ call_width c = width /\ call_height c = height).
  { unfold batchInsertImagesGrid.
    rewrite of_size_small by assumption.
    destruct paths as [|p rest] eqn:Ep.
    { exists []; cbn.
      split; [reflexivity|]; split; [reflexivity|].
      intros [|k] c E; discriminate. }
    rewrite <- Ep in *.
    cbn [CreoComBridge.columns params]; rewrite Hcols.
    change (mkBatchInsertResult (Z.of_nat (List.length paths)) 0 0 [] [])
      with (summary_of (Z.of_nat (List.length paths)) []).
    destruct (grid_loop_summary b paths 0 cols params
                (Z.of_nat (List.length paths)) st [] ltac:(cbn; lia))
      as (S1 & S2).
    destruct (grid_loop_calls b paths 0 cols params st
                (summary_of (Z.of_nat (List.length paths)) []) [])
      as (new & C1 & C2 & C3).
    cbv zeta in S1, S2.
    destruct (grid_loop b paths 0 cols params st _ []) as [[r st1] calls].
    cbn [fst snd] in *; subst calls r.
    exists new; rewrite C2; split; [reflexivity|]; split; [exact S2|].
    intros k c E; specialize (C3 k c E); cbv zeta in C3.
    rewrite of_size_small in C3.
    - exact C3.
    - assert (Hk : (k < List.length new)%nat)
        by (apply nth_error_Some; congruence).
      cbn; lia. }
  destruct Hsum as (calls & E & Hpaths & Hpos).
  pose proof (batchInsertImagesGrid_answers b st paths params Hlen) as Hrun.
  cbv zeta in Hrun.
  assert (Ecalls : calls = fst (answers b st (grid_requests paths params))).
  { pose proof (f_equal snd E) as X; rewrite Hrun in X; cbn [fst snd] in X.
    now symmetry. }
  assert (Estate : snd (fst (batchInsertImagesGrid b st paths params))
                   = snd (answers b st (grid_requests paths params)))
    by now rewrite Hrun.
  rewrite E.
  destruct (copy_results_summary (Z.of_nat (List.length calls)) calls result)
    as (R1 & R2 & R3).
  destruct (copy_results _ result) as [[ret res] err].
  cbn [fst snd] in *; subst ret res err.
  split; [exact Hpaths|]; split; [exact Hpos|].
  split; [reflexivity|]; split; [reflexivity|]; split; [reflexivity|].
  rewrite <- (collect_paths_present imagePaths); fold paths.
  split; [exact Ecalls | exact Estate].
Qed.

(** X22.  [barcode_batch_insert_images] skips the null entries of the
    array too, but keeps each image at the coordinates of its own index:
    the k-th call is made for the k-th entry that is not null, say the
    entry of index j, with the coordinates read at 2 j and 2 j + 1 of
    [positions] and the width and height given.  The calls are the
    answers of [insertImage] to these requests, each made on the bridge
    as the call before it left it, and the bridge ends as the last call
    left it.  The value returned is the number of calls that succeeded,
    and the last error is the message of the last failure, or empty. *)
Theorem batch_wrapper_positions (st : St) (g_comBridgeLastError : string)
    (imagePaths : list (option string)) (positions : list float)
    (width height : float) (result : bool) :
  imagePaths <> [] ->
  Z.of_nat (List.length imagePaths) <= 1073741823 ->
  let out :=
    barcode_batch_insert_images b st g_comBridgeLastError
      (Some imagePaths) (Some positions) (Z.of_nat (List.length imagePaths))
      width height result in
  let calls := snd out in
  map call_path calls = collect_paths imagePaths
  /\ (forall k c,
        nth_error calls k = Some c ->
        exists (j : nat) (p : string),
          nth_error imagePaths j = Some (Some p)
          /\ List.length (collect_paths (firstn j imagePaths)) = k
          /\ call_path c = PureC.c_str p
          /\ call_x c = nth (2 * j) positions 0%float
          /\ call_y c = nth (2 * j + 1) positions 0%float
          /\ call_width c = width /\ call_height c = height)
  /\ fst (fst (fst (fst out))) = Z.of_nat (List.length (filter call_ok calls))
  /\ snd (fst (fst (fst out)))
     = (if result then
          Some (mkBatchInsertResultC (Z.of_nat (List.length calls))
                  (Z.of_nat (List.length (filter call_ok calls)))
                  (Z.of_nat (List.length (filter call_failed calls))))
        else None)
  /\ snd (fst (fst out)) = back (map call_error (filter call_failed calls))
  /\ (let run :=
        answers b st (positioned_requests imagePaths positions width height) in
      calls = fst run /\ snd (fst out) = snd run).
Proof.
  intros Hne Hmax; cbv zeta.
  unfold barcode_batch_insert_images.
  destruct (Z.leb_spec (Z.of_nat (List.length imagePaths)) 0) as [Hz|_].
  { destruct imagePaths; [now elim Hne | cbn in Hz; lia]. }
  rewrite Nat2Z.id, firstn_all.
  set (images := collect_images imagePaths positions 0 width height).
  assert (Hlen : Z.of_nat (List.length images) <= Int32.INT_MAX).
  { pose proof (collect_paths_length imagePaths) as Hl.
    rewrite <- (collect_images_paths imagePaths positions 0 width height) in Hl.
    rewrite length_map in Hl; unfold images, Int32.INT_MAX; lia. }
  assert (Hsum : exists calls,
             batchInsertImages b st images
             = (summary_of (Z.of_nat (List.length calls)) calls,
                snd (fst (batchInsertImages b st images)), calls)
             /\ map (fun c => mkBatchImageInfo (call_path c) (call_x c) (call_y c)
                                (call_width c) (call_height c)) calls
                = images).
  { unfold batchInsertImages.
    rewrite of_size_small by assumption.
    destruct images as [|img rest] eqn:Ei.
    { exists []; cbn; auto. }
    rewrite <- Ei in *.
    change (mkBatchInsertResult (Z.of_nat (List.length images)) 0 0 [] [])
      with (summary_of (Z.of_nat (List.length images)) []).
    destruct (images_loop_summary b images
                (Z.of_nat (List.length images)) st [] ltac:(cbn; lia))
      as (S1 & S2).
    destruct (images_loop_calls b images st
                (summary_of (Z.of_nat (List.length images)) []) [])
      as (new & C1 & C2).
    cbv zeta in S1, S2.
    destruct (images_loop b images st _ []) as [[r st1] calls].
    cbn [fst snd] in *; subst calls r.
    exists new; split; [|exact C2].
    rewrite <- C2 at 1; rewrite length_map; reflexivity. }
  destruct Hsum as (calls & E & Hargs).
  pose proof (batchInsertImages_answers b st images Hlen) as Hrun.
  cbv zeta in Hrun.
  assert (Ecalls : calls = fst (answers b st images)).
  { pose proof (f_equal snd E) as X; rewrite Hrun in X; cbn [fst snd] in X.
    now symmetry. }
  assert (Estate : snd (fst (batchInsertImages b st images))
                   = snd (answers b st images))
    by now rewrite Hrun.
  assert (Eimages : images
                    = positioned_requests imagePaths positions width height).
  { unfold images, positioned_requests.
    apply (collect_images_requests imagePaths positions width height 0%nat).
    cbn [Z.of_nat]; lia. }
  rewrite E.
  destruct (copy_results_summary (Z.of_nat (List.length calls)) calls result)
    as (R1 & R2 & R3).
  destruct (copy_results _ result) as [[ret res] err].
  cbn [fst snd] in *; subst ret res err.
  split; [|split; [|split; [reflexivity|split; [reflexivity|split;
    [reflexivity|]]]]].
  3:{ rewrite <- Eimages; split; [exact Ecalls | exact Estate]. }
  - rewrite <- (collect_images_paths imagePaths positions 0 width height).
    fold images; rewrite <- Hargs, !map_map; reflexivity.
  - intros k c Ec.
    assert (Eimg : nth_error images k
                   = Some (mkBatchImageInfo (call_path c) (call_x c) (call_y c)
                             (call_width c) (call_height c))).
    { rewrite <- Hargs; now rewrite nth_error_map, Ec. }
    destruct (collect_images_source imagePaths positions width height 0 k _
                ltac:(lia) ltac:(lia) Eimg)
      as (j & p & J1 & J2 & J3 & J4 & J5 & J6 & J7).
    cbn [imagePath img_x img_y img_width img_height] in *.
    exists j, p.
    replace (Z.to_nat (2 * (0 + Z.of_nat j))) with (2 * j)%nat in J4 by lia.
    replace (Z.to_nat (2 * (0 + Z.of_nat j) + 1)) with (2 * j + 1)%nat in J5 by lia.
    repeat split; assumption.
Qed.

End CApiProofs.

Lemma grid_wrapper_skips_nulls_witness :
  map CreoComBridge.call_path
    (snd (CApi.barcode_batch_insert_images_grid picky_bridge EmptyString
            EmptyString (Some [Some "a.png"; None; Some EmptyString]) 3
            0 0 50 50 2 10 true))
  = ["a.png"; EmptyString]
  /\ map CreoComBridge.call_ok
       (snd (CApi.barcode_batch_insert_images_grid picky_bridge EmptyString
               EmptyString (Some [Some "a.png"; None; Some EmptyString]) 3
               0 0 50 50 2 10 true))
     = [true; false]
  /\ snd (fst (CApi.barcode_batch_insert_images_grid picky_bridge EmptyString
                 EmptyString (Some [Some "a.png"; None; Some EmptyString]) 3
                 0 0 50 50 2 10 true))
     = "Image path cannot be empty".
Proof.
  destruct (grid_wrapper_skips_nulls picky_bridge EmptyString EmptyString
              [Some "a.png"; None; Some EmptyString] 0 0 50 50 2 10 true
              ltac:(discriminate) ltac:(vm_compute; discriminate))
    as (H1 & _ & _ & _ & _ & H6 & H7).
  split; [exact H1|]; split.
  - etransitivity;
      [exact (f_equal (map CreoComBridge.call_ok) H6) | reflexivity].
  - etransitivity; [exact H7 | reflexivity].
Defined.

Lemma batch_wrapper_positions_witness :
  map CreoComBridge.call_path
    (snd (CApi.barcode_batch_insert_images picky_bridge EmptyString EmptyString
            (Some [Some "a.png"; None; Some EmptyString])
            (Some [1; 2; 3; 4; 5; 6]%float) 3 50 50 true))
  = ["a.png"; EmptyString]
  /\ map CreoComBridge.call_ok
       (snd (CApi.barcode_batch_insert_images picky_bridge EmptyString
               EmptyString (Some [Some "a.png"; None; Some EmptyString])
               (Some [1; 2; 3; 4; 5; 6]%float) 3 50 50 true))
     = [true; false]
  /\ map CreoComBridge.call_x
       (snd (CApi.barcode_batch_insert_images picky_bridge EmptyString
               EmptyString (Some [Some "a.png"; None; Some EmptyString])
               (Some [1; 2; 3; 4; 5; 6]%float) 3 50 50 true))
     = [1; 5]%float.
Proof.
  destruct (batch_wrapper_positions picky_bridge EmptyString EmptyString
              [Some "a.png"; None; Some EmptyString] [1; 2; 3; 4; 5; 6]%float
              50 50 true
              ltac:(discriminate) ltac:(vm_compute; discriminate))
    as (H1 & _ & _ & _ & _ & H5 & _).
  split; [exact H1|]; split.
  - etransitivity;
      [exact (f_equal (map CreoComBridge.call_ok) H5) | reflexivity].
  - etransitivity;
      [exact (f_equal (map CreoComBridge.call_x) H5) | reflexivity].
Defined.

Section CApiGeneratorProofs.

Import BarcodeGenerator CApi.

Lemma c_str_printable (s : string) :
  string_forallb (Char.between 32 126) s = true -> PureC.c_str s = s.
Proof.
  induction s as [|c s IH]; [reflexivity|].
  cbn [string_forallb PureC.c_str]; intros H.
  apply andb_prop in H; destruct H as [Hc Hs].
  rewrite (IH Hs).
  assert (E : Char.char_is 0 c = false).
  { revert Hc; clear; each_char c; cbn; intros E; try discriminate; reflexivity. }
  now rewrite E.
Qed.

Lemma substring_prefix (n : nat) (s : string) :
  String.length (substring 0 n s) = Nat.min n (String.length s)
  /\ exists rest, s = substring 0 n s ++ rest.
Proof.
  revert s; induction n as [|n IH]; intros [|c s]; cbn.
  - split; [reflexivity | now exists EmptyString].
  - split; [reflexivity | now exists (String c s)].
  - split; [reflexivity | now exists EmptyString].
  - destruct (IH s) as (I1 & rest & I2).
    split; [now rewrite I1 | exists rest; now rewrite <- I2].
Qed.

Lemma substring_whole (n : nat) (s : string) :
  (String.length s <= n)%nat -> substring 0 n s = s.
Proof.
  revert s; induction n as [|n IH]; intros [|c s]; cbn; intros H;
    try reflexivity; try lia.
  rewrite IH by lia; reflexivity.
Qed.

(** X23.  [barcode_generate] answers 0 or -1, and 0 exactly when the
    three pointers are set, neither string is empty and [generate]
    succeeds on the strings and the converted configuration.  On success
    [g_lastError] keeps the text it had; on failure it holds one of six
    fixed texts or the [what()] of the writer.  A null pointer or an
    empty string is refused before the generator is touched, and a type
    outside the enumeration is generated as Code 128. *)
Theorem barcode_generate_outcomes (env : Collaborators)
    (g_generator : option ErrorInfo) (g_lastError : string)
    (data : option string) (cfg : option BarcodeConfigC)
    (outputPath : option string) :
  let out := barcode_generate env g_generator g_lastError data cfg outputPath in
  let ret := fst (fst (fst out)) in
  let lastError0 :=
    match g_generator with
    | Some e => e
    | None => mkErrorInfo SUCCESS EmptyString EmptyString
    end in
  (ret = 0 \/ ret = -1)
  /\ (ret = 0 <->
      exists d c p,
        data = Some d /\ cfg = Some c /\ outputPath = Some p
        /\ PureC.c_str p <> EmptyString
        /\ returned (generate env lastError0 (PureC.c_str d) (toCppConfig c)
                       (PureC.c_str p)) = true)
  /\ (ret = 0 -> snd (fst out) = g_lastError)
  /\ (ret = -1 ->
      In (snd (fst out))
        [ "Invalid parameters: null pointer";
          "Invalid parameters: empty data string";
          "Invalid parameters: empty output path";
          "Invalid dimensions"; "Data not valid for barcode type";
          "Failed to write image" ]
      \/ exists format d w h,
           writer_encode env format d w h = inr (snd (fst out)))
  /\ (data = None \/ cfg = None \/ outputPath = None
      \/ (exists d, data = Some d /\ PureC.c_str d = EmptyString)
      \/ (exists p, outputPath = Some p /\ PureC.c_str p = EmptyString) ->
      snd out = [] /\ snd (fst (fst out)) = g_generator /\ ret = -1)
  /\ (forall c,
        cfg = Some c -> (c_type c < 0 \/ 4 < c_type c) ->
        out = barcode_generate env g_generator g_lastError data
                (Some (mkBarcodeConfigC 0 (c_width c) (c_height c) (c_margin c)
                         (c_showText c) (c_dpi c)))
                outputPath).
Proof.
  cbv zeta.
  assert (Htype : forall c, c_type c < 0 \/ 4 < c_type c ->
            toCppConfig (mkBarcodeConfigC 0 (c_width c) (c_height c)
                           (c_margin c) (c_showText c) (c_dpi c))
            = toCppConfig c).
  { intros c Hc; unfold toCppConfig, toCppType.
    cbn [c_type c_width c_height c_margin c_showText c_dpi].
    repeat match goal with
           | |- context [c_type c =? ?k] => destruct (Z.eqb_spec (c_type c) k)
           end; try lia; reflexivity. }
  assert (Hnull : data = None \/ cfg = None \/ outputPath = None ->
            barcode_generate env g_generator g_lastError data cfg outputPath
            = (-1, g_generator, "Invalid parameters: null pointer", [])).
  { unfold barcode_generate.
    destruct data, cfg, outputPath; try reflexivity;
      intros [E|[E|E]]; discriminate. }
  destruct data as [d|];
    [|rewrite Hnull by auto; cbn [fst snd];
      split; [now right|]; split;
      [split; [discriminate | intros (d0 & c0 & p0 & E & _); discriminate]|];
      split; [discriminate|]; split; [intros _; left; cbn; auto|];
      split; [auto|]; intros c0 E Hc; unfold barcode_generate; reflexivity].
  destruct cfg as [c|];
    [|rewrite Hnull by auto; cbn [fst snd];
      split; [now right|]; split;
      [split; [discriminate | intros (d0 & c0 & p0 & _ & E & _); discriminate]|];
      split; [discriminate|]; split; [intros _; left; cbn; auto|];
      split; [auto|]; intros c0 E Hc; discriminate].
  destruct outputPath as [p|];
    [|rewrite Hnull by auto; cbn [fst snd];
      split; [now right|]; split;
      [split; [discriminate | intros (d0 & c0 & p0 & _ & _ & E & _); discriminate]|];
      split; [discriminate|]; split; [intros _; left; cbn; auto|];
      split; [auto|]; intros c0 E Hc; unfold barcode_generate; reflexivity].
  clear Hnull.
  set (e0 := match g_generator with
             | Some e => e
             | None => mkErrorInfo SUCCESS EmptyString EmptyString
             end).
  unfold barcode_generate; fold e0.
  destruct (string_empty (PureC.c_str d)) eqn:Ed.
  { cbn [fst snd].
    split; [now right|]; split; [split; [discriminate|]|].
    { intros (d0 & c0 & p0 & E1 & E2 & E3 & Hp & Hr).
      injection E1 as <-; injection E2 as <-; injection E3 as <-.
      unfold generate in Hr; rewrite Ed in Hr; discriminate. }
    split; [discriminate|]; split; [intros _; left; cbn; auto|].
    split; [auto|]; intros c0 E Hc; reflexivity. }
  assert (Hd : PureC.c_str d <> EmptyString)
    by (destruct (PureC.c_str d); discriminate).
  destruct (string_empty (PureC.c_str p)) eqn:Ep.
  { cbn [fst snd].
    split; [now right|]; split; [split; [discriminate|]|].
    { intros (d0 & c0 & p0 & E1 & E2 & E3 & Hp & Hr).
      injection E3 as <-; destruct (PureC.c_str p); [now elim Hp | discriminate]. }
    split; [discriminate|]; split; [intros _; left; cbn; auto|].
    split; [auto|]; intros c0 E Hc; reflexivity. }
  assert (Hp : PureC.c_str p <> EmptyString)
    by (destruct (PureC.c_str p); discriminate).
  assert (Hrefused :
            (Some d = None \/ Some c = None \/ Some p = None
             \/ (exists d0, Some d = Some d0 /\ PureC.c_str d0 = EmptyString)
             \/ (exists p0, Some p = Some p0 /\ PureC.c_str p0 = EmptyString))
            -> False).
  { intros [E|[E|[E|[(d0 & E & Hd0)|(p0 & E & Hp0)]]]]; try discriminate;
      injection E as <-; contradiction. }
  assert (Hmsg :
            returned (generate env e0 (PureC.c_str d) (toCppConfig c) (PureC.c_str p))
            = false ->
            In (message (lastError_ (generate env e0 (PureC.c_str d) (toCppConfig c)
                                       (PureC.c_str p))))
              [ "Invalid parameters: null pointer";
                "Invalid parameters: empty data string";
                "Invalid parameters: empty output path";
                "Invalid dimensions"; "Data not valid for barcode type";
                "Failed to write image" ]
            \/ exists format d0 w h,
                 writer_encode env format d0 w h
                 = inr (message (lastError_ (generate env e0 (PureC.c_str d)
                                               (toCppConfig c) (PureC.c_str p))))).
  { unfold generate; rewrite Ed.
    destruct (_ || _); [intros _; left; cbn; auto 10|].
    destruct (negb (validateData _ _)); [intros _; left; cbn; auto 10|].
    destruct (writer_encode env _ _ _ _) as [matrix|what] eqn:Ew.
    - destruct (negb (stbi_write_png env _ _ _ _ _ _));
        [intros _; left; cbn; auto 10 | discriminate].
    - intros _; right; cbn; eauto. }
  destruct (returned (generate env e0 (PureC.c_str d) (toCppConfig c)
                        (PureC.c_str p))) eqn:Er; cbn [fst snd].
  - split; [now left|]; split; [split; [intros _; exists d, c, p; auto|auto]|].
    split; [auto|]; split; [discriminate|].
    split; [intros H; now elim (Hrefused H)|].
    intros c0 E Hc; injection E as <-; rewrite (Htype c Hc), Er; reflexivity.
  - split; [now right|]; split; [split; [discriminate|]|].
    { intros (d0 & c0 & p0 & E1 & E2 & E3 & _ & Hr).
      injection E1 as <-; injection E2 as <-; injection E3 as <-; congruence. }
    split; [discriminate|]; split; [intros _; now apply Hmsg|].
    split; [intros H; now elim (Hrefused H)|].
    intros c0 E Hc; injection E as <-; rewrite (Htype c Hc), Er; reflexivity.
Qed.

(** X24.  [sync_check] answers -1 exactly when a pointer is null or the
    module is not initialised, and otherwise 1 or 0 without touching
    [g_lastError].  A part name that is not empty is in sync with its own
    escaped form, which holds no NUL and so survives the passage through
    a C string, and with itself. *)
Theorem sync_check_answers (initialized : bool) (g_lastError : string)
    (partName barcodeData : option string) :
  let out := sync_check initialized g_lastError partName barcodeData in
  (fst out = -1 <-> initialized = false \/ partName = None \/ barcodeData = None)
  /\ (fst out = -1 \/ (fst out = 0 \/ fst out = 1) /\ snd out = g_lastError)
  /\ (forall p,
        PureC.c_str p <> EmptyString ->
        sync_check true g_lastError (Some p)
          (Some (Codec.encodeSpecialChars (PureC.c_str p))) = (1, g_lastError)
        /\ sync_check true g_lastError (Some p) (Some p) = (1, g_lastError)).
Proof.
  cbv zeta; unfold sync_check; split; [|split].
  - destruct partName as [p|], barcodeData as [d|], initialized; cbn;
      try (split; [auto | reflexivity]).
    destruct (DataSyncChecker.compareData _ _); cbn;
      (split; [discriminate | intros [E|[E|E]]; discriminate]).
  - destruct partName as [p|], barcodeData as [d|], initialized; cbn; auto.
    destruct (DataSyncChecker.compareData _ _); cbn; auto.
  - intros p Hp; cbn [negb].
    rewrite (c_str_printable _ (encode_printable (PureC.c_str p))).
    rewrite compareData_encoded.
    assert (Hself : DataSyncChecker.compareData (PureC.c_str p) (PureC.c_str p)
                    = true).
    { unfold DataSyncChecker.compareData; rewrite orb_diag.
      destruct (PureC.c_str p); [now elim Hp|].
      cbn [string_empty]; now rewrite String.eqb_refl. }
    rewrite Hself.
    destruct (PureC.c_str p); [now elim Hp | auto].
Qed.

(** X25.  [barcode_decode] leaves in the buffer the text that was read,
    cut to what fits: a prefix of it of at most [bufferSize - 1]
    characters, and the whole of it when it is shorter than the buffer.
    So an escaped part name read into a buffer that is long enough
    decodes to the part name. *)
Theorem barcode_decode_buffer (rd : GeneratorUtil.Reader)
    (lastError0 e : ErrorInfo) (g_lastError imagePath text : string)
    (bufferSize : Z) :
  0 < bufferSize <= Int32.INT_MAX ->
  GeneratorUtil.decode rd lastError0 (PureC.c_str imagePath) = (Some text, e) ->
  exists buffer,
    barcode_decode rd (Some lastError0) g_lastError (Some imagePath) true
      bufferSize
    = (0, Some buffer, g_lastError, Some e)
    /\ Z.of_nat (String.length buffer)
       = Z.min (bufferSize - 1) (Z.of_nat (PureC.strlen text))
    /\ (exists rest, PureC.c_str text = buffer ++ rest)
    /\ (Z.of_nat (PureC.strlen text) < bufferSize -> buffer = PureC.c_str text)
    /\ (forall name,
          text = Codec.encodeSpecialChars name ->
          Z.of_nat (String.length text) < bufferSize ->
          Codec.decodeSpecialChars buffer = name).
Proof.
  intros Hb Hd; unfold barcode_decode; rewrite Hd; cbn [negb orb].
  destruct (Z.leb_spec bufferSize 0); [lia|].
  unfold Int32.sub.
  rewrite wrap_small by (unfold Int32.INT_MIN, Int32.INT_MAX in *; lia).
  eexists; split; [reflexivity|].
  destruct (substring_prefix (Z.to_nat (bufferSize - 1)) (PureC.c_str text))
    as (L & rest & P).
  split; [|split; [|split]].
  - rewrite L; unfold PureC.strlen; lia.
  - exists rest; exact P.
  - intros Hfit; apply substring_whole; unfold PureC.strlen in Hfit; lia.
  - intros name -> Hfit.
    rewrite (c_str_printable _ (encode_printable name)).
    rewrite substring_whole by lia.
    apply decode_encode.
Qed.

End CApiGeneratorProofs.

Lemma barcode_decode_buffer_witness :
  exists buffer,
    CApi.barcode_decode escaped_reader (Some no_error) EmptyString
      (Some "label.png") true 4
    = (0, Some buffer, EmptyString, Some no_error)
    /\ Z.of_nat (String.length buffer) = 3.
Proof.
  destruct (barcode_decode_buffer escaped_reader no_error no_error EmptyString
              "label.png" (Codec.encodeSpecialChars escaped_name) 4
              ltac:(unfold Int32.INT_MAX; lia) eq_refl)
    as (buffer & E & L & _).
  exists buffer; split; [exact E | exact L].
Defined.

(** ** The text of an HRESULT *)

Section HResultProofs.

Import Char CreoComBridgeCore.

Lemma hex_value_digit (d : Z) :
  0 <= d < 16 -> Codec.hex_value (Codec.hex_digit d) = Some d.
Proof.
  intros Hd.
  assert (E : d = 0 \/ d = 1 \/ d = 2 \/ d = 3 \/ d = 4 \/ d = 5 \/ d = 6 \/ d = 7
              \/ d = 8 \/ d = 9 \/ d = 10 \/ d = 11 \/ d = 12 \/ d = 13
              \/ d = 14 \/ d = 15) by lia.
  repeat (destruct E as [->|E]; [reflexivity|]); subst; reflexivity.
Qed.

(** The eight digits read back to the unsigned value of the code. *)
Lemma hex8_read (hr : Z) :
  Codec.read_hex None (hex8 hr) = Some (hr mod 4294967296)
  /\ String.length (hex8 hr) = 8%nat.
Proof.
  unfold hex8.
  pose proof (Z.mod_pos_bound hr 4294967296 ltac:(lia)) as Hn.
  set (n := hr mod 4294967296) in *; clearbody n.
  unfold hex_loop.
  repeat match goal with
         | |- context [if ?q =? 0 then _ else _] => destruct (Z.eqb_spec q 0)
         end;
    cbn [Codec.setw_setfill Codec.pad_left String.length Nat.sub Codec.read_hex];
    change (Codec.hex_value (chr 48)) with (Some 0);
    cbn [Codec.read_hex];
    rewrite ?hex_value_digit by (apply Z.mod_pos_bound; lia);
    (split; [f_equal; Z.div_mod_to_equations; lia | reflexivity]).
Qed.

Lemma substring_head (s t : string) :
  substring 0 (String.length s) (s ++ t) = s.
Proof.
  induction s as [|c s IH]; cbn.
  - destruct t; reflexivity.
  - now rewrite IH.
Qed.

(** X26.  [formatHResult] writes "0x" and then exactly eight
    hexadecimal digits, which read back to the code as an unsigned
    32-bit number; so two codes with the same text are the same code.
    [setError] with a code stores the code and writes the same eight
    digits after the context. *)
Theorem formatHResult_digits (h : Host) (hr : Z) :
  substring 0 2 (formatHResult h hr) = "0x"
  /\ Codec.read_hex None (substring 2 8 (formatHResult h hr))
     = Some (hr mod 4294967296)
  /\ (forall hr',
        Int32.INT_MIN <= hr <= Int32.INT_MAX ->
        Int32.INT_MIN <= hr' <= Int32.INT_MAX ->
        formatHResult h hr = formatHResult h hr' -> hr = hr')
  /\ (forall st context,
        m_lastHResult (setError_hr h st hr context) = hr
        /\ exists tail,
             m_lastError (setError_hr h st hr context)
             = context ++ " (HRESULT: 0x" ++ substring 2 8 (formatHResult h hr)
               ++ tail ++ ")").
Proof.
  assert (Hsub : forall hr0, substring 2 8 (formatHResult h hr0) = hex8 hr0).
  { intros hr0; unfold formatHResult.
    change (substring 2 8 ("0x" ++ hex8 hr0 ++ ?t))
      with (substring 0 8 (hex8 hr0 ++ t)).
    destruct (hex8_read hr0) as [_ L].
    rewrite <- L at 1; apply substring_head. }
  split; [|split; [|split]].
  - unfold formatHResult; cbn [append substring].
    now destruct (hex8 hr ++ _).
  - rewrite Hsub; apply hex8_read.
  - intros hr' H1 H2 E.
    assert (E8 : hex8 hr = hex8 hr') by (rewrite <- !Hsub; now rewrite E).
    pose proof (proj1 (hex8_read hr)) as R1.
    pose proof (proj1 (hex8_read hr')) as R2.
    rewrite E8, R2 in R1; injection R1 as R1.
    unfold Int32.INT_MIN, Int32.INT_MAX in *.
    Z.div_mod_to_equations; lia.
  - intros st context; split; [reflexivity|].
    rewrite Hsub; unfold setError_hr; cbn [m_lastError].
    destruct (system_message h hr) as [utf8Msg|].
    + exists (" - " ++ utf8Msg); reflexivity.
    + exists EmptyString; reflexivity.
Qed.

End HResultProofs.

(** ** The generators of one symbology *)

Section TypedGeneratorProofs.

Import BarcodeGenerator GeneratorUtil.

(** X27.  [generateCode128], [generateCode39] and [generateQRCode]
    overwrite the type of the configuration they are given, so the type
    the caller left there has no effect.  [generateCode39] succeeds only
    on data over the Code 39 alphabet; the other two hand any data that
    is not empty to the writer, in their own format, once the dimensions
    are positive. *)
Theorem typed_generators_fix_the_type (env : Collaborators)
    (lastError0 : ErrorInfo) (data : string) (config : BarcodeConfig)
    (outputPath : string) :
  (forall t,
      generateCode128 env lastError0 data (with_type config t) outputPath
      = generateCode128 env lastError0 data config outputPath
      /\ generateCode39 env lastError0 data (with_type config t) outputPath
         = generateCode39 env lastError0 data config outputPath
      /\ generateQRCode env lastError0 data (with_type config t) outputPath
         = generateQRCode env lastError0 data config outputPath)
  /\ (returned (generateCode39 env lastError0 data config outputPath) = true ->
      string_forallb code39_allowed data = true)
  /\ (data <> EmptyString -> 0 < width config -> 0 < height config ->
      hd_error (events (generateCode128 env lastError0 data config outputPath))
      = Some (EvEncode ZX_Code128 data (width config) (height config))
      /\ hd_error (events (generateQRCode env lastError0 data config outputPath))
         = Some (EvEncode ZX_QRCode data (width config) (height config))).
Proof.
  split; [|split].
  - intros t; destruct config; repeat split; reflexivity.
  - unfold generateCode39, generate.
    destruct (string_empty data) eqn:Ed; [discriminate|].
    destruct (_ || _); [discriminate|].
    cbn [type with_type].
    rewrite validateData_code39, Ed; cbn [negb andb].
    destruct (string_forallb code39_allowed data); [reflexivity | discriminate].
  - intros Hd Hw Hh.
    unfold generateCode128, generateQRCode, generate.
    destruct data as [|c r]; [now elim Hd|]; cbn [string_empty].
    cbn [width height type with_type].
    destruct (Z.leb_spec (width config) 0); [lia|].
    destruct (Z.leb_spec (height config) 0); [lia|].
    cbn [orb validateData string_empty negb toZXingFormat].
    split.
    + destruct (writer_encode env ZX_Code128 _ _ _); [|reflexivity].
      destruct (negb (stbi_write_png env _ _ _ _ _ _)); reflexivity.
    + destruct (writer_encode env ZX_QRCode _ _ _); [|reflexivity].
      destruct (negb (stbi_write_png env _ _ _ _ _ _)); reflexivity.
Qed.

End TypedGeneratorProofs.

(** ** The menu handlers *)

Section MenuProofs.

Import MenuManager.

(** X28.  In the stand-alone build the settings menu changes nothing:
    [showSettingsDialog] hands the configuration back unaccepted, so
    [handleSettings] leaves the plug-in configuration as it found it.
    The generate menu calls its callback once if one is set, with the
    type, width, height, text flag and resolution of the plug-in
    configuration and always with the margin 10, which the plug-in
    configuration does not hold. *)
Theorem menu_handlers (configManager_ : option PluginConfig)
    (currentConfig : BarcodeConfig) :
  showSettingsDialog currentConfig = (false, currentConfig)
  /\ handleSettings configManager_ = configManager_
  /\ handleGenerateBarcode false configManager_ = []
  /\ (exists cfg,
        handleGenerateBarcode true configManager_ = [cfg]
        /\ margin cfg = 10
        /\ match configManager_ with
           | Some pluginConfig =>
               type cfg = defaultType pluginConfig
               /\ width cfg = defaultWidth pluginConfig
               /\ height cfg = defaultHeight pluginConfig
               /\ showText cfg = defaultShowText pluginConfig
               /\ dpi cfg = defaultDpi pluginConfig
           | None => cfg = mkConfig CODE_128 200 80 10 true 300
           end).
Proof.
  split; [reflexivity|]; split; [|split; [reflexivity|]].
  - destruct configManager_ as [pluginConfig|]; reflexivity.
  - destruct configManager_ as [pluginConfig|]; eexists;
      (split; [reflexivity|]); cbn; auto 6.
Qed.

End MenuProofs.

(** ** Version strings *)

Section VersionStringProofs.

Import Char VersionCheck.

(** The digits of a decimal numeral, read up to a text that does not go
    on with a digit. *)
Lemma read_digits_uint_acc (u : Decimal.uint) (t : string) :
  (forall c r, t = String c r -> isdigit c = false) ->
  forall acc : positive,
    read_digits (Z.pos acc) (NilEmpty.string_of_uint u ++ t)
    = (Z.pos (Pos.of_uint_acc u acc), t).
Proof.
  intros Ht; induction u as [|u IH|u IH|u IH|u IH|u IH|u IH|u IH|u IH|u IH|u IH];
    intros acc; cbn [NilEmpty.string_of_uint append Pos.of_uint_acc].
  - destruct t as [|c r]; [reflexivity|].
    cbn [read_digits]; now rewrite (Ht c r eq_refl).
  - cbn [read_digits]; change (isdigit "0") with true; cbv iota.
    change (ord "0" - 48) with 0.
    replace (10 * Z.pos acc + 0) with (Z.pos (10 * acc)) by lia; apply IH.
  - cbn [read_digits]; change (isdigit "1") with true; cbv iota.
    change (ord "1" - 48) with 1.
    replace (10 * Z.pos acc + 1) with (Z.pos (1 + 10 * acc)) by lia; apply IH.
  - cbn [read_digits]; change (isdigit "2") with true; cbv iota.
    change (ord "2" - 48) with 2.
    replace (10 * Z.pos acc + 2) with (Z.pos (2 + 10 * acc)) by lia; apply IH.
  - cbn [read_digits]; change (isdigit "3") with true; cbv iota.
    change (ord "3" - 48) with 3.
    replace (10 * Z.pos acc + 3) with (Z.pos (3 + 10 * acc)) by lia; apply IH.
  - cbn [read_digits]; change (isdigit "4") with true; cbv iota.
    change (ord "4" - 48) with 4.
    replace (10 * Z.pos acc + 4) with (Z.pos (4 + 10 * acc)) by lia; apply IH.
  - cbn [read_digits]; change (isdigit "5") with true; cbv iota.
    change (ord "5" - 48) with 5.
    replace (10 * Z.pos acc + 5) with (Z.pos (5 + 10 * acc)) by lia; apply IH.
  - cbn [read_digits]; change (isdigit "6") with true; cbv iota.
    change (ord "6" - 48) with 6.
    replace (10 * Z.pos acc + 6) with (Z.pos (6 + 10 * acc)) by lia; apply IH.
  - cbn [read_digits]; change (isdigit "7") with true; cbv iota.
    change (ord "7" - 48) with 7.
    replace (10 * Z.pos acc + 7) with (Z.pos (7 + 10 * acc)) by lia; apply IH.
  - cbn [read_digits]; change (isdigit "8") with true; cbv iota.
    change (ord "8" - 48) with 8.
    replace (10 * Z.pos acc + 8) with (Z.pos (8 + 10 * acc)) by lia; apply IH.
  - cbn [read_digits]; change (isdigit "9") with true; cbv iota.
    change (ord "9" - 48) with 9.
    replace (10 * Z.pos acc + 9) with (Z.pos (9 + 10 * acc)) by lia; apply IH.
Qed.

Lemma read_digits_uint (u : Decimal.uint) (t : string) :
  (forall c r, t = String c r -> isdigit c = false) ->
  read_digits 0 (NilEmpty.string_of_uint u ++ t) = (Z.of_N (Pos.of_uint u), t).
Proof.
  intros Ht; induction u as [|u IH|u IH|u IH|u IH|u IH|u IH|u IH|u IH|u IH|u IH];
    cbn [NilEmpty.string_of_uint append Pos.of_uint].
  - destruct t as [|c r]; [reflexivity|].
    cbn [read_digits]; now rewrite (Ht c r eq_refl).
  - cbn [read_digits]; change (isdigit "0") with true; cbv iota; exact IH.
  - cbn [read_digits]; change (isdigit "1") with true; cbv iota.
    apply (read_digits_uint_acc u t Ht 1).
  - cbn [read_digits]; change (isdigit "2") with true; cbv iota.
    apply (read_digits_uint_acc u t Ht 2).
  - cbn [read_digits]; change (isdigit "3") with true; cbv iota.
    apply (read_digits_uint_acc u t Ht 3).
  - cbn [read_digits]; change (isdigit "4") with true; cbv iota.
    apply (read_digits_uint_acc u t Ht 4).
  - cbn [read_digits]; change (isdigit "5") with true; cbv iota.
    apply (read_digits_uint_acc u t Ht 5).
  - cbn [read_digits]; change (isdigit "6") with true; cbv iota.
    apply (read_digits_uint_acc u t Ht 6).
  - cbn [read_digits]; change (isdigit "7") with true; cbv iota.
    apply (read_digits_uint_acc u t Ht 7).
  - cbn [read_digits]; change (isdigit "8") with true; cbv iota.
    apply (read_digits_uint_acc u t Ht 8).
  - cbn [read_digits]; change (isdigit "9") with true; cbv iota.
    apply (read_digits_uint_acc u t Ht 9).
Qed.

(** The decimal form of a positive number starts with a digit. *)
Lemma to_uint_head (p : positive) :
  exists c r,
    NilZero.string_of_uint (Pos.to_uint p) = String c r
    /\ NilEmpty.string_of_uint (Pos.to_uint p) = String c r
    /\ isdigit c = true.
Proof.
  pose proof (Unsigned.to_uint_nonnil p) as Hn.
  destruct (Pos.to_uint p); [now elim Hn| | | | | | | | | |];
    eexists; eexists; repeat split; reflexivity.
Qed.

(** Extraction reads back what [std::to_string] wrote. *)
Lemma extract_int_dec (z : Z) (t : string) :
  Int32.INT_MIN <= z <= Int32.INT_MAX ->
  (forall c r, t = String c r -> isdigit c = false) ->
  extract_int (BatchQueue.dec z ++ t) = Some (z, t).
Proof.
  intros Hz Ht; unfold BatchQueue.dec, extract_int.
  destruct z as [|p|p]; cbn [Z.to_int NilZero.string_of_int].
  - cbn [NilZero.string_of_uint NilEmpty.string_of_uint append Codec.skip_space].
    change (isspace "0") with false; cbv iota.
    cbn [Codec.strip_sign].
    change (char_is 45 "0") with false; change (char_is 43 "0") with false.
    cbv iota.
    change (isdigit "0") with true; cbv iota.
    pose proof (read_digits_uint (Decimal.D0 Decimal.Nil) t Ht) as R.
    cbn [NilEmpty.string_of_uint append Pos.of_uint] in R.
    rewrite R; reflexivity.
  - destruct (to_uint_head p) as (c & r & E1 & E2 & Hc).
    pose proof (read_digits_uint (Pos.to_uint p) t Ht) as R.
    rewrite Unsigned.of_to in R.
    rewrite E1; rewrite E2 in R; cbn [append] in *.
    assert (Hs : isspace c = false /\ char_is 45 c = false
                 /\ char_is 43 c = false).
    { revert Hc; clear; each_char c; cbn; intros E; try discriminate;
        repeat split; reflexivity. }
    destruct Hs as (Hs1 & Hs2 & Hs3).
    cbn [Codec.skip_space]; rewrite Hs1.
    cbn [Codec.strip_sign]; rewrite Hs2, Hs3, Hc, R.
    cbn [Z.of_N].
    destruct (Z.leb_spec Int32.INT_MIN (Z.pos p)); [|lia].
    destruct (Z.leb_spec (Z.pos p) Int32.INT_MAX); [reflexivity | lia].
  - destruct (to_uint_head p) as (c & r & E1 & E2 & Hc).
    pose proof (read_digits_uint (Pos.to_uint p) t Ht) as R.
    rewrite Unsigned.of_to in R.
    rewrite E1; rewrite E2 in R; cbn [append] in *.
    cbn [Codec.skip_space].
    change (isspace "-") with false; cbv iota.
    cbn [Codec.strip_sign].
    change (char_is 45 "-") with true; cbv iota.
    rewrite Hc, R.
    cbn [Z.of_N].
    change (- Z.pos p) with (Z.neg p).
    destruct (Z.leb_spec Int32.INT_MIN (Z.neg p)); [|lia].
    destruct (Z.leb_spec (Z.neg p) Int32.INT_MAX); [reflexivity | lia].
Qed.

Lemma dec_nonempty (z : Z) : string_empty (BatchQueue.dec z) = false.
Proof.
  unfold BatchQueue.dec; destruct z as [|p|p]; cbn; try reflexivity.
  destruct (to_uint_head p) as (c & r & E1 & _); now rewrite E1.
Qed.

(** X29.  [parseVersionString] reads back what [toString] writes: for
    a version whose three numbers are [int]s, negative ones included,
    parsing its text gives the version, also when the text goes on with
    anything but a digit or a dot.  A text of one or two numbers is read
    with the missing numbers 0, and the empty text is refused. *)
Theorem parseVersionString_toString (v : CreoVersion) (t : string) :
  Int32.INT_MIN <= major v <= Int32.INT_MAX ->
  Int32.INT_MIN <= minor v <= Int32.INT_MAX ->
  Int32.INT_MIN <= patch v <= Int32.INT_MAX ->
  (forall c r, t = String c r -> isdigit c = false /\ char_is 46 c = false) ->
  parseVersionString (toString v ++ t) = Some v
  /\ parseVersionString (toString v) = Some v
  /\ parseVersionString (BatchQueue.dec (major v) ++ "." ++ BatchQueue.dec (minor v) ++ t)
     = Some (mkCreoVersion (major v) (minor v) 0)
  /\ parseVersionString (BatchQueue.dec (major v) ++ t)
     = Some (mkCreoVersion (major v) 0 0)
  /\ parseVersionString EmptyString = None.
Proof.
  intros H1 H2 H3 Ht.
  assert (Hdigit : forall c r, t = String c r -> isdigit c = false)
    by (intros c r E; apply (Ht c r E)).
  assert (Hdot : forall s c r, "." ++ s = String c r -> isdigit c = false).
  { intros s c r E; injection E as <- _; reflexivity. }
  assert (Hafter : after_dot t = None).
  { destruct t as [|c r]; [reflexivity|].
    cbn; now rewrite (proj2 (Ht c r eq_refl)). }
  assert (Hnil : forall c r, EmptyString = String c r -> isdigit c = false)
    by (intros c r E; discriminate).
  assert (Hne : forall z s, string_empty (BatchQueue.dec z ++ s) = false).
  { intros z s; pose proof (dec_nonempty z) as E.
    destruct (BatchQueue.dec z); [discriminate | reflexivity]. }
  assert (Hthree : forall s,
            (forall c r, s = String c r -> isdigit c = false) ->
            parseVersionString (toString v ++ s) = Some v).
  { intros s Hs; destruct v as [a b c]; unfold toString, parseVersionString.
    cbn [major minor patch] in *.
    rewrite !string_app_assoc, Hne.
    rewrite extract_int_dec by (assumption || apply Hdot).
    cbn [append after_dot]; change (char_is 46 ".") with true; cbv iota.
    rewrite extract_int_dec by (assumption || apply Hdot).
    cbn [append after_dot]; change (char_is 46 ".") with true; cbv iota.
    rewrite extract_int_dec by assumption.
    reflexivity. }
  split; [apply Hthree; auto|]; split; [|split; [|split; [|reflexivity]]].
  - rewrite <- (string_app_nil_r (toString v)); apply Hthree; auto.
  - unfold parseVersionString.
    rewrite Hne.
    rewrite extract_int_dec by (assumption || apply Hdot).
    cbn [append after_dot]; change (char_is 46 ".") with true; cbv iota.
    rewrite extract_int_dec by assumption.
    now rewrite Hafter.
  - unfold parseVersionString.
    rewrite Hne, extract_int_dec by assumption.
    now rewrite Hafter.
Qed.

End VersionStringProofs.

Lemma parseVersionString_toString_witness :
  VersionCheck.parseVersionString "8.0.1-beta"
  = Some (VersionCheck.mkCreoVersion 8 0 1).
Proof.
  apply (proj1 (parseVersionString_toString (VersionCheck.mkCreoVersion 8 0 1)
                  "-beta"
                  ltac:(vm_compute; split; discriminate)
                  ltac:(vm_compute; split; discriminate)
                  ltac:(vm_compute; split; discriminate)
                  ltac:(intros c r E; injection E as <- _; split; reflexivity))).
Defined.
